(** * The UiAutomator2 driver: session lifecycle, port allocation, route tables

    A shallow embedding of [lib/driver.ts].  The driver is a class whose
    methods mutate [this] and await collaborators (the device bridge, the
    on-device server, the base driver, the port scanner).  Here a method is a
    function in a state-and-exception monad over the driver object and the
    host/device world; every awaited collaborator call is an event whose
    outcome is decided by an environment. *)

From Stdlib Require Import QArith Qround ZArith List String Ascii Bool Lia.
From Stdlib Require Import DecimalString.
Import ListNotations.

Local Open Scope string_scope.
Local Open Scope Z_scope.
Local Open Scope list_scope.

(** ** Constants (driver.ts, lines 43-62) *)

Definition DEVICE_PORT_RANGE : Z * Z := (8200, 8299).
Definition DEVICE_PORT : Z := 6790.
Definition MJPEG_SERVER_DEVICE_PORT : Z := 7810.
Definition LOCALHOST_IP4 : string := "127.0.0.1".
Definition DEFAULT_ADB_PORT : Z := 5037.

(** Template-literal rendering of a port number. *)
Definition string_of_Z (z : Z) : string := NilEmpty.string_of_int (Z.to_int z).

(** ** Regular expressions of the route tables

    The tables use a small fragment of JavaScript regular expressions:
    literal text, the classes [.] and [[^/]], [+] and [*] on a class, a
    negative lookahead and [$].  Every pattern of the tables starts with
    [^], so [RegExp.test] succeeds exactly when the pattern matches at the
    first character; a pattern is the list of its items after the [^]. *)

Module Regex.

Inductive CharClass : Type :=
| AnyChar      (* .     *)
| NotSlash.    (* [^/]  *)

#[warnings="-register-all"]
Inductive Re : Type :=
| Lit (s : string)
| Cls (c : CharClass)
| Plus (c : CharClass)
| Star (c : CharClass)
| NegLookahead (body : list Re)
| EndAnchor.

Definition RegExp : Type := list Re.

Definition in_class (c : CharClass) (x : ascii) : bool :=
  match c with
  | AnyChar => negb (Ascii.eqb x "010"%char || Ascii.eqb x "013"%char)
  | NotSlash => negb (Ascii.eqb x "/"%char)
  end.

(** [strip p s] removes the literal [p] from the front of [s]. *)
Fixpoint strip (p s : string) : option string :=
  match p with
  | EmptyString => Some s
  | String a p' =>
      match s with
      | String b s' => if Ascii.eqb a b then strip p' s' else None
      | EmptyString => None
      end
  end.

(** Zero or more characters of class [c], then the continuation [k];
    every split is tried, as backtracking does. *)
Fixpoint star (c : CharClass) (k : string -> bool) (s : string) : bool :=
  k s ||
  match s with
  | String x s' => in_class c x && star c k s'
  | EmptyString => false
  end.

Fixpoint match_re (r : Re) (k : string -> bool) (s : string) {struct r} : bool :=
  match r with
  | Lit p => match strip p s with Some s' => k s' | None => false end
  | Cls c => match s with String x s' => in_class c x && k s' | EmptyString => false end
  | Plus c => match s with String x s' => in_class c x && star c k s' | EmptyString => false end
  | Star c => star c k s
  | NegLookahead body =>
      negb ((fix seq (l : list Re) : string -> bool :=
               match l with
               | [] => fun _ => true
               | b :: l' => match_re b (seq l')
               end) body s) && k s
  | EndAnchor => match s with EmptyString => k s | String _ _ => false end
  end.

Fixpoint match_seq (l : list Re) (k : string -> bool) : string -> bool :=
  match l with
  | [] => k
  | r :: l' => match_re r (match_seq l' k)
  end.

(** [new RegExp('^...').test(path)] *)
Definition test (re : RegExp) (path : string) : bool :=
  match_seq re (fun _ => true) path.

End Regex.

Import Regex.

(** ** Route tables (driver.ts, lines 64-160) *)

Inductive Method : Type := GET | POST | DELETE.

Definition Method_eqb (a b : Method) : bool :=
  match a, b with
  | GET, GET | POST, POST | DELETE, DELETE => true
  | _, _ => false
  end.

Definition RouteMatcher : Type := (Method * RegExp)%type.

(** [^/session/[^/]+<tail>] *)
Definition sess (tail : list Re) : RegExp :=
  Lit "/session/" :: Plus NotSlash :: tail.

Definition seg : Re := Plus NotSlash.

Definition NO_PROXY : list RouteMatcher :=
  [ (DELETE, sess [Lit "/actions"]);
    (GET, [Lit "/session/"; NegLookahead [Star AnyChar; Lit "/"]]);
    (GET, sess [Lit "/alert_"; seg]);
    (GET, sess [Lit "/alert/"; seg]);
    (GET, sess [Lit "/appium/"; seg; Lit "/current_activity"]);
    (GET, sess [Lit "/appium/"; seg; Lit "/current_package"]);
    (GET, sess [Lit "/appium/app/"; seg]);
    (GET, sess [Lit "/appium/device/"; seg]);
    (GET, sess [Lit "/appium/settings"]);
    (GET, sess [Lit "/context"]);
    (GET, sess [Lit "/contexts"]);
    (GET, sess [Lit "/element/"; seg; Lit "/attribute"]);
    (GET, sess [Lit "/element/"; seg; Lit "/displayed"]);
    (GET, sess [Lit "/element/"; seg; Lit "/enabled"]);
    (GET, sess [Lit "/element/"; seg; Lit "/location_in_view"]);
    (GET, sess [Lit "/element/"; seg; Lit "/name"]);
    (GET, sess [Lit "/element/"; seg; Lit "/screenshot"]);
    (GET, sess [Lit "/element/"; seg; Lit "/selected"]);
    (GET, sess [Lit "/ime/"; seg]);
    (GET, sess [Lit "/location"]);
    (GET, sess [Lit "/network_connection"]);
    (GET, sess [Lit "/screenshot"]);
    (GET, sess [Lit "/timeouts"]);
    (GET, sess [Lit "/url"]);
    (POST, sess [Lit "/"; seg; Lit "_alert"; EndAnchor]);
    (POST, sess [Lit "/actions"]);
    (POST, sess [Lit "/alert/"; seg]);
    (POST, sess [Lit "/app/"; Cls NotSlash]);
    (POST, sess [Lit "/appium/"; seg; Lit "/start_activity"]);
    (POST, sess [Lit "/appium/app/"; seg]);
    (POST, sess [Lit "/appium/compare_images"]);
    (POST, sess [Lit "/appium/device/"; NegLookahead [Lit "set_clipboard"]; seg]);
    (POST, sess [Lit "/appium/element/"; seg; Lit "/replace_value"]);
    (POST, sess [Lit "/appium/element/"; seg; Lit "/value"]);
    (POST, sess [Lit "/appium/getPerformanceData"]);
    (POST, sess [Lit "/appium/performanceData/types"]);
    (POST, sess [Lit "/appium/settings"]);
    (POST, sess [Lit "/appium/execute_driver"]);
    (POST, sess [Lit "/appium/start_recording_screen"]);
    (POST, sess [Lit "/appium/stop_recording_screen"]);
    (POST, sess [Lit "/appium/"; Star AnyChar; Lit "event"]);
    (POST, sess [Lit "/context"]);
    (POST, sess [Lit "/element"]);
    (POST, sess [Lit "/ime/"; seg]);
    (POST, sess [Lit "/keys"]);
    (POST, sess [Lit "/location"]);
    (POST, sess [Lit "/network_connection"]);
    (POST, sess [Lit "/timeouts"]);
    (POST, sess [Lit "/touch/multi/perform"]);
    (POST, sess [Lit "/touch/perform"]);
    (POST, sess [Lit "/url"]);
    (* MJSONWP commands *)
    (GET, sess [Lit "/log/types"]);
    (POST, sess [Lit "/execute"]);
    (POST, sess [Lit "/execute_async"]);
    (POST, sess [Lit "/log"]);
    (* W3C commands *)
    (GET, sess [Lit "/se/log/types"]);
    (GET, sess [Lit "/window/rect"]);
    (POST, sess [Lit "/execute/async"]);
    (POST, sess [Lit "/execute/sync"]);
    (POST, sess [Lit "/se/log"]) ].

Definition CHROME_NO_PROXY : list RouteMatcher :=
  [ (GET, sess [Lit "/appium"]);
    (GET, sess [Lit "/context"]);
    (GET, sess [Lit "/element/"; seg; Lit "/rect"]);
    (GET, sess [Lit "/orientation"]);
    (POST, sess [Lit "/appium"]);
    (POST, sess [Lit "/context"]);
    (POST, sess [Lit "/orientation"]);
    (POST, sess [Lit "/touch/multi/perform"]);
    (POST, sess [Lit "/touch/perform"]);
    (* this is needed to make the mobile: commands working in web context *)
    (POST, sess [Lit "/execute"; EndAnchor]);
    (POST, sess [Lit "/execute/sync"]);
    (* MJSONWP commands *)
    (GET, sess [Lit "/log/types"; EndAnchor]);
    (POST, sess [Lit "/log"; EndAnchor]);
    (* W3C commands *)
    (GET, sess [Lit "/se/log/types"; EndAnchor]);
    (POST, sess [Lit "/se/log"; EndAnchor]) ].

(** The rule that [getProxyAvoidList] appends (line 904). *)
Definition SCREENSHOT_RULE : RouteMatcher := (GET, sess [Lit "/screenshot"]).

(** ** The driver object

    [Opts] and [Caps] hold the keys of [this.opts] and [this.caps] that the
    driver branches on or rewrites; keys that are only handed on to a
    collaborator (intent flags, timeouts of installers, ...) are left out.
    An absent key is [None]; a boolean flag that is only tested for
    truthiness is a [bool]. *)

Record Opts : Type := mkOpts {
  o_app : option string;
  o_appPackage : option string;
  o_appActivity : option string;
  o_browserName : option string;
  o_reboot : bool;
  o_avd : option string;
  o_adbPort : option Z;
  o_udid : option string;
  o_fullReset : option bool;
  o_autoLaunch : option bool;
  o_androidInstallTimeout : option Z;
  o_noReset : bool;
  o_fastReset : bool;
  o_noSign : bool;
  o_skipUninstall : bool;
  o_dontStopAppOnReset : bool;
  o_shouldTerminateApp : bool;
  o_forceAppLaunch : bool;
  o_gpsEnabled : option bool;
  o_ignoreHiddenApiPolicyError : bool;
  o_disableWindowAnimation : bool;
  o_skipServerInstallation : bool;
  o_skipUnlock : bool;
  o_uninstallOtherPackages : option string;
  o_otherApps : option string;
  o_orientation : option string;
  o_autoWebview : bool;
  o_autoWebviewTimeout : option Z;
  o_mjpegServerPort : option Z;
  o_mjpegScreenshotUrl : option string;
  o_nativeWebScreenshot : bool
}.

Definition set_o_app (v : option string) (x : Opts) : Opts :=
  {| o_app := v; o_appPackage := o_appPackage x; o_appActivity := o_appActivity x; o_browserName
     := o_browserName x; o_reboot := o_reboot x; o_avd := o_avd x; o_adbPort := o_adbPort x;
     o_udid := o_udid x; o_fullReset := o_fullReset x; o_autoLaunch := o_autoLaunch x;
     o_androidInstallTimeout := o_androidInstallTimeout x; o_noReset := o_noReset x; o_fastReset
     := o_fastReset x; o_noSign := o_noSign x; o_skipUninstall := o_skipUninstall x;
     o_dontStopAppOnReset := o_dontStopAppOnReset x; o_shouldTerminateApp :=
     o_shouldTerminateApp x; o_forceAppLaunch := o_forceAppLaunch x; o_gpsEnabled :=
     o_gpsEnabled x; o_ignoreHiddenApiPolicyError := o_ignoreHiddenApiPolicyError x;
     o_disableWindowAnimation := o_disableWindowAnimation x; o_skipServerInstallation :=
     o_skipServerInstallation x; o_skipUnlock := o_skipUnlock x; o_uninstallOtherPackages :=
     o_uninstallOtherPackages x; o_otherApps := o_otherApps x; o_orientation := o_orientation x;
     o_autoWebview := o_autoWebview x; o_autoWebviewTimeout := o_autoWebviewTimeout x;
     o_mjpegServerPort := o_mjpegServerPort x; o_mjpegScreenshotUrl := o_mjpegScreenshotUrl x;
     o_nativeWebScreenshot := o_nativeWebScreenshot x |}.

Definition set_o_appPackage (v : option string) (x : Opts) : Opts :=
  {| o_app := o_app x; o_appPackage := v; o_appActivity := o_appActivity x; o_browserName :=
     o_browserName x; o_reboot := o_reboot x; o_avd := o_avd x; o_adbPort := o_adbPort x; o_udid
     := o_udid x; o_fullReset := o_fullReset x; o_autoLaunch := o_autoLaunch x;
     o_androidInstallTimeout := o_androidInstallTimeout x; o_noReset := o_noReset x; o_fastReset
     := o_fastReset x; o_noSign := o_noSign x; o_skipUninstall := o_skipUninstall x;
     o_dontStopAppOnReset := o_dontStopAppOnReset x; o_shouldTerminateApp :=
     o_shouldTerminateApp x; o_forceAppLaunch := o_forceAppLaunch x; o_gpsEnabled :=
     o_gpsEnabled x; o_ignoreHiddenApiPolicyError := o_ignoreHiddenApiPolicyError x;
     o_disableWindowAnimation := o_disableWindowAnimation x; o_skipServerInstallation :=
     o_skipServerInstallation x; o_skipUnlock := o_skipUnlock x; o_uninstallOtherPackages :=
     o_uninstallOtherPackages x; o_otherApps := o_otherApps x; o_orientation := o_orientation x;
     o_autoWebview := o_autoWebview x; o_autoWebviewTimeout := o_autoWebviewTimeout x;
     o_mjpegServerPort := o_mjpegServerPort x; o_mjpegScreenshotUrl := o_mjpegScreenshotUrl x;
     o_nativeWebScreenshot := o_nativeWebScreenshot x |}.

Definition set_o_appActivity (v : option string) (x : Opts) : Opts :=
  {| o_app := o_app x; o_appPackage := o_appPackage x; o_appActivity := v; o_browserName :=
     o_browserName x; o_reboot := o_reboot x; o_avd := o_avd x; o_adbPort := o_adbPort x; o_udid
     := o_udid x; o_fullReset := o_fullReset x; o_autoLaunch := o_autoLaunch x;
     o_androidInstallTimeout := o_androidInstallTimeout x; o_noReset := o_noReset x; o_fastReset
     := o_fastReset x; o_noSign := o_noSign x; o_skipUninstall := o_skipUninstall x;
     o_dontStopAppOnReset := o_dontStopAppOnReset x; o_shouldTerminateApp :=
     o_shouldTerminateApp x; o_forceAppLaunch := o_forceAppLaunch x; o_gpsEnabled :=
     o_gpsEnabled x; o_ignoreHiddenApiPolicyError := o_ignoreHiddenApiPolicyError x;
     o_disableWindowAnimation := o_disableWindowAnimation x; o_skipServerInstallation :=
     o_skipServerInstallation x; o_skipUnlock := o_skipUnlock x; o_uninstallOtherPackages :=
     o_uninstallOtherPackages x; o_otherApps := o_otherApps x; o_orientation := o_orientation x;
     o_autoWebview := o_autoWebview x; o_autoWebviewTimeout := o_autoWebviewTimeout x;
     o_mjpegServerPort := o_mjpegServerPort x; o_mjpegScreenshotUrl := o_mjpegScreenshotUrl x;
     o_nativeWebScreenshot := o_nativeWebScreenshot x |}.

Definition set_o_avd (v : option string) (x : Opts) : Opts :=
  {| o_app := o_app x; o_appPackage := o_appPackage x; o_appActivity := o_appActivity x;
     o_browserName := o_browserName x; o_reboot := o_reboot x; o_avd := v; o_adbPort :=
     o_adbPort x; o_udid := o_udid x; o_fullReset := o_fullReset x; o_autoLaunch := o_autoLaunch
     x; o_androidInstallTimeout := o_androidInstallTimeout x; o_noReset := o_noReset x;
     o_fastReset := o_fastReset x; o_noSign := o_noSign x; o_skipUninstall := o_skipUninstall x;
     o_dontStopAppOnReset := o_dontStopAppOnReset x; o_shouldTerminateApp :=
     o_shouldTerminateApp x; o_forceAppLaunch := o_forceAppLaunch x; o_gpsEnabled :=
     o_gpsEnabled x; o_ignoreHiddenApiPolicyError := o_ignoreHiddenApiPolicyError x;
     o_disableWindowAnimation := o_disableWindowAnimation x; o_skipServerInstallation :=
     o_skipServerInstallation x; o_skipUnlock := o_skipUnlock x; o_uninstallOtherPackages :=
     o_uninstallOtherPackages x; o_otherApps := o_otherApps x; o_orientation := o_orientation x;
     o_autoWebview := o_autoWebview x; o_autoWebviewTimeout := o_autoWebviewTimeout x;
     o_mjpegServerPort := o_mjpegServerPort x; o_mjpegScreenshotUrl := o_mjpegScreenshotUrl x;
     o_nativeWebScreenshot := o_nativeWebScreenshot x |}.

Definition set_o_adbPort (v : option Z) (x : Opts) : Opts :=
  {| o_app := o_app x; o_appPackage := o_appPackage x; o_appActivity := o_appActivity x;
     o_browserName := o_browserName x; o_reboot := o_reboot x; o_avd := o_avd x; o_adbPort := v;
     o_udid := o_udid x; o_fullReset := o_fullReset x; o_autoLaunch := o_autoLaunch x;
     o_androidInstallTimeout := o_androidInstallTimeout x; o_noReset := o_noReset x; o_fastReset
     := o_fastReset x; o_noSign := o_noSign x; o_skipUninstall := o_skipUninstall x;
     o_dontStopAppOnReset := o_dontStopAppOnReset x; o_shouldTerminateApp :=
     o_shouldTerminateApp x; o_forceAppLaunch := o_forceAppLaunch x; o_gpsEnabled :=
     o_gpsEnabled x; o_ignoreHiddenApiPolicyError := o_ignoreHiddenApiPolicyError x;
     o_disableWindowAnimation := o_disableWindowAnimation x; o_skipServerInstallation :=
     o_skipServerInstallation x; o_skipUnlock := o_skipUnlock x; o_uninstallOtherPackages :=
     o_uninstallOtherPackages x; o_otherApps := o_otherApps x; o_orientation := o_orientation x;
     o_autoWebview := o_autoWebview x; o_autoWebviewTimeout := o_autoWebviewTimeout x;
     o_mjpegServerPort := o_mjpegServerPort x; o_mjpegScreenshotUrl := o_mjpegScreenshotUrl x;
     o_nativeWebScreenshot := o_nativeWebScreenshot x |}.

Definition set_o_udid (v : option string) (x : Opts) : Opts :=
  {| o_app := o_app x; o_appPackage := o_appPackage x; o_appActivity := o_appActivity x;
     o_browserName := o_browserName x; o_reboot := o_reboot x; o_avd := o_avd x; o_adbPort :=
     o_adbPort x; o_udid := v; o_fullReset := o_fullReset x; o_autoLaunch := o_autoLaunch x;
     o_androidInstallTimeout := o_androidInstallTimeout x; o_noReset := o_noReset x; o_fastReset
     := o_fastReset x; o_noSign := o_noSign x; o_skipUninstall := o_skipUninstall x;
     o_dontStopAppOnReset := o_dontStopAppOnReset x; o_shouldTerminateApp :=
     o_shouldTerminateApp x; o_forceAppLaunch := o_forceAppLaunch x; o_gpsEnabled :=
     o_gpsEnabled x; o_ignoreHiddenApiPolicyError := o_ignoreHiddenApiPolicyError x;
     o_disableWindowAnimation := o_disableWindowAnimation x; o_skipServerInstallation :=
     o_skipServerInstallation x; o_skipUnlock := o_skipUnlock x; o_uninstallOtherPackages :=
     o_uninstallOtherPackages x; o_otherApps := o_otherApps x; o_orientation := o_orientation x;
     o_autoWebview := o_autoWebview x; o_autoWebviewTimeout := o_autoWebviewTimeout x;
     o_mjpegServerPort := o_mjpegServerPort x; o_mjpegScreenshotUrl := o_mjpegScreenshotUrl x;
     o_nativeWebScreenshot := o_nativeWebScreenshot x |}.

Definition set_o_nativeWebScreenshot (v : bool) (x : Opts) : Opts :=
  {| o_app := o_app x; o_appPackage := o_appPackage x; o_appActivity := o_appActivity x;
     o_browserName := o_browserName x; o_reboot := o_reboot x; o_avd := o_avd x; o_adbPort :=
     o_adbPort x; o_udid := o_udid x; o_fullReset := o_fullReset x; o_autoLaunch := o_autoLaunch
     x; o_androidInstallTimeout := o_androidInstallTimeout x; o_noReset := o_noReset x;
     o_fastReset := o_fastReset x; o_noSign := o_noSign x; o_skipUninstall := o_skipUninstall x;
     o_dontStopAppOnReset := o_dontStopAppOnReset x; o_shouldTerminateApp :=
     o_shouldTerminateApp x; o_forceAppLaunch := o_forceAppLaunch x; o_gpsEnabled :=
     o_gpsEnabled x; o_ignoreHiddenApiPolicyError := o_ignoreHiddenApiPolicyError x;
     o_disableWindowAnimation := o_disableWindowAnimation x; o_skipServerInstallation :=
     o_skipServerInstallation x; o_skipUnlock := o_skipUnlock x; o_uninstallOtherPackages :=
     o_uninstallOtherPackages x; o_otherApps := o_otherApps x; o_orientation := o_orientation x;
     o_autoWebview := o_autoWebview x; o_autoWebviewTimeout := o_autoWebviewTimeout x;
     o_mjpegServerPort := o_mjpegServerPort x; o_mjpegScreenshotUrl := o_mjpegScreenshotUrl x;
     o_nativeWebScreenshot := v |}.

Record Caps : Type := mkCaps {
  c_appPackage : option string;
  c_appActivity : option string;
  c_deviceName : option string;
  c_platformVersion : option string;
  c_androidCoverage : option string;
  c_androidCoverageEndIntent : option string
}.

Definition set_c_appPackage (v : option string) (x : Caps) : Caps :=
  {| c_appPackage := v; c_appActivity := c_appActivity x; c_deviceName := c_deviceName x;
     c_platformVersion := c_platformVersion x; c_androidCoverage := c_androidCoverage x;
     c_androidCoverageEndIntent := c_androidCoverageEndIntent x |}.

Definition set_c_appActivity (v : option string) (x : Caps) : Caps :=
  {| c_appPackage := c_appPackage x; c_appActivity := v; c_deviceName := c_deviceName x;
     c_platformVersion := c_platformVersion x; c_androidCoverage := c_androidCoverage x;
     c_androidCoverageEndIntent := c_androidCoverageEndIntent x |}.

Record Driver : Type := mkDriver {
  sessionId : option string;
  opts : Opts;
  caps : Caps;
  adb : bool;
  uiautomator2 : bool;
  systemPort : option Z;
  _hasSystemPortInCaps : bool;
  jwpProxyActive : bool;
  jwpProxyAvoid : list RouteMatcher;
  chromedriver : bool;
  mjpegStream : bool;
  _wasWindowAnimationDisabled : bool;
  _screenRecordingProperties : bool;
  _screenStreamingProps : bool
}.

Definition set_sessionId (v : option string) (x : Driver) : Driver :=
  {| sessionId := v; opts := opts x; caps := caps x; adb := adb x; uiautomator2 := uiautomator2
     x; systemPort := systemPort x; _hasSystemPortInCaps := _hasSystemPortInCaps x;
     jwpProxyActive := jwpProxyActive x; jwpProxyAvoid := jwpProxyAvoid x; chromedriver :=
     chromedriver x; mjpegStream := mjpegStream x; _wasWindowAnimationDisabled :=
     _wasWindowAnimationDisabled x; _screenRecordingProperties := _screenRecordingProperties x;
     _screenStreamingProps := _screenStreamingProps x |}.

Definition set_opts (v : Opts) (x : Driver) : Driver :=
  {| sessionId := sessionId x; opts := v; caps := caps x; adb := adb x; uiautomator2 :=
     uiautomator2 x; systemPort := systemPort x; _hasSystemPortInCaps := _hasSystemPortInCaps x;
     jwpProxyActive := jwpProxyActive x; jwpProxyAvoid := jwpProxyAvoid x; chromedriver :=
     chromedriver x; mjpegStream := mjpegStream x; _wasWindowAnimationDisabled :=
     _wasWindowAnimationDisabled x; _screenRecordingProperties := _screenRecordingProperties x;
     _screenStreamingProps := _screenStreamingProps x |}.

Definition set_caps (v : Caps) (x : Driver) : Driver :=
  {| sessionId := sessionId x; opts := opts x; caps := v; adb := adb x; uiautomator2 :=
     uiautomator2 x; systemPort := systemPort x; _hasSystemPortInCaps := _hasSystemPortInCaps x;
     jwpProxyActive := jwpProxyActive x; jwpProxyAvoid := jwpProxyAvoid x; chromedriver :=
     chromedriver x; mjpegStream := mjpegStream x; _wasWindowAnimationDisabled :=
     _wasWindowAnimationDisabled x; _screenRecordingProperties := _screenRecordingProperties x;
     _screenStreamingProps := _screenStreamingProps x |}.

Definition set_adb (v : bool) (x : Driver) : Driver :=
  {| sessionId := sessionId x; opts := opts x; caps := caps x; adb := v; uiautomator2 :=
     uiautomator2 x; systemPort := systemPort x; _hasSystemPortInCaps := _hasSystemPortInCaps x;
     jwpProxyActive := jwpProxyActive x; jwpProxyAvoid := jwpProxyAvoid x; chromedriver :=
     chromedriver x; mjpegStream := mjpegStream x; _wasWindowAnimationDisabled :=
     _wasWindowAnimationDisabled x; _screenRecordingProperties := _screenRecordingProperties x;
     _screenStreamingProps := _screenStreamingProps x |}.

Definition set_uiautomator2 (v : bool) (x : Driver) : Driver :=
  {| sessionId := sessionId x; opts := opts x; caps := caps x; adb := adb x; uiautomator2 := v;
     systemPort := systemPort x; _hasSystemPortInCaps := _hasSystemPortInCaps x; jwpProxyActive
     := jwpProxyActive x; jwpProxyAvoid := jwpProxyAvoid x; chromedriver := chromedriver x;
     mjpegStream := mjpegStream x; _wasWindowAnimationDisabled := _wasWindowAnimationDisabled x;
     _screenRecordingProperties := _screenRecordingProperties x; _screenStreamingProps :=
     _screenStreamingProps x |}.

Definition set_systemPort (v : option Z) (x : Driver) : Driver :=
  {| sessionId := sessionId x; opts := opts x; caps := caps x; adb := adb x; uiautomator2 :=
     uiautomator2 x; systemPort := v; _hasSystemPortInCaps := _hasSystemPortInCaps x;
     jwpProxyActive := jwpProxyActive x; jwpProxyAvoid := jwpProxyAvoid x; chromedriver :=
     chromedriver x; mjpegStream := mjpegStream x; _wasWindowAnimationDisabled :=
     _wasWindowAnimationDisabled x; _screenRecordingProperties := _screenRecordingProperties x;
     _screenStreamingProps := _screenStreamingProps x |}.

Definition set__hasSystemPortInCaps (v : bool) (x : Driver) : Driver :=
  {| sessionId := sessionId x; opts := opts x; caps := caps x; adb := adb x; uiautomator2 :=
     uiautomator2 x; systemPort := systemPort x; _hasSystemPortInCaps := v; jwpProxyActive :=
     jwpProxyActive x; jwpProxyAvoid := jwpProxyAvoid x; chromedriver := chromedriver x;
     mjpegStream := mjpegStream x; _wasWindowAnimationDisabled := _wasWindowAnimationDisabled x;
     _screenRecordingProperties := _screenRecordingProperties x; _screenStreamingProps :=
     _screenStreamingProps x |}.

Definition set_jwpProxyActive (v : bool) (x : Driver) : Driver :=
  {| sessionId := sessionId x; opts := opts x; caps := caps x; adb := adb x; uiautomator2 :=
     uiautomator2 x; systemPort := systemPort x; _hasSystemPortInCaps := _hasSystemPortInCaps x;
     jwpProxyActive := v; jwpProxyAvoid := jwpProxyAvoid x; chromedriver := chromedriver x;
     mjpegStream := mjpegStream x; _wasWindowAnimationDisabled := _wasWindowAnimationDisabled x;
     _screenRecordingProperties := _screenRecordingProperties x; _screenStreamingProps :=
     _screenStreamingProps x |}.

Definition set_jwpProxyAvoid (v : list RouteMatcher) (x : Driver) : Driver :=
  {| sessionId := sessionId x; opts := opts x; caps := caps x; adb := adb x; uiautomator2 :=
     uiautomator2 x; systemPort := systemPort x; _hasSystemPortInCaps := _hasSystemPortInCaps x;
     jwpProxyActive := jwpProxyActive x; jwpProxyAvoid := v; chromedriver := chromedriver x;
     mjpegStream := mjpegStream x; _wasWindowAnimationDisabled := _wasWindowAnimationDisabled x;
     _screenRecordingProperties := _screenRecordingProperties x; _screenStreamingProps :=
     _screenStreamingProps x |}.

Definition set_chromedriver (v : bool) (x : Driver) : Driver :=
  {| sessionId := sessionId x; opts := opts x; caps := caps x; adb := adb x; uiautomator2 :=
     uiautomator2 x; systemPort := systemPort x; _hasSystemPortInCaps := _hasSystemPortInCaps x;
     jwpProxyActive := jwpProxyActive x; jwpProxyAvoid := jwpProxyAvoid x; chromedriver := v;
     mjpegStream := mjpegStream x; _wasWindowAnimationDisabled := _wasWindowAnimationDisabled x;
     _screenRecordingProperties := _screenRecordingProperties x; _screenStreamingProps :=
     _screenStreamingProps x |}.

Definition set_mjpegStream (v : bool) (x : Driver) : Driver :=
  {| sessionId := sessionId x; opts := opts x; caps := caps x; adb := adb x; uiautomator2 :=
     uiautomator2 x; systemPort := systemPort x; _hasSystemPortInCaps := _hasSystemPortInCaps x;
     jwpProxyActive := jwpProxyActive x; jwpProxyAvoid := jwpProxyAvoid x; chromedriver :=
     chromedriver x; mjpegStream := v; _wasWindowAnimationDisabled :=
     _wasWindowAnimationDisabled x; _screenRecordingProperties := _screenRecordingProperties x;
     _screenStreamingProps := _screenStreamingProps x |}.

Definition set__wasWindowAnimationDisabled (v : bool) (x : Driver) : Driver :=
  {| sessionId := sessionId x; opts := opts x; caps := caps x; adb := adb x; uiautomator2 :=
     uiautomator2 x; systemPort := systemPort x; _hasSystemPortInCaps := _hasSystemPortInCaps x;
     jwpProxyActive := jwpProxyActive x; jwpProxyAvoid := jwpProxyAvoid x; chromedriver :=
     chromedriver x; mjpegStream := mjpegStream x; _wasWindowAnimationDisabled := v;
     _screenRecordingProperties := _screenRecordingProperties x; _screenStreamingProps :=
     _screenStreamingProps x |}.

Definition set__screenRecordingProperties (v : bool) (x : Driver) : Driver :=
  {| sessionId := sessionId x; opts := opts x; caps := caps x; adb := adb x; uiautomator2 :=
     uiautomator2 x; systemPort := systemPort x; _hasSystemPortInCaps := _hasSystemPortInCaps x;
     jwpProxyActive := jwpProxyActive x; jwpProxyAvoid := jwpProxyAvoid x; chromedriver :=
     chromedriver x; mjpegStream := mjpegStream x; _wasWindowAnimationDisabled :=
     _wasWindowAnimationDisabled x; _screenRecordingProperties := v; _screenStreamingProps :=
     _screenStreamingProps x |}.

Definition set__screenStreamingProps (v : bool) (x : Driver) : Driver :=
  {| sessionId := sessionId x; opts := opts x; caps := caps x; adb := adb x; uiautomator2 :=
     uiautomator2 x; systemPort := systemPort x; _hasSystemPortInCaps := _hasSystemPortInCaps x;
     jwpProxyActive := jwpProxyActive x; jwpProxyAvoid := jwpProxyAvoid x; chromedriver :=
     chromedriver x; mjpegStream := mjpegStream x; _wasWindowAnimationDisabled :=
     _wasWindowAnimationDisabled x; _screenRecordingProperties := _screenRecordingProperties x;
     _screenStreamingProps := v |}.

(** JavaScript truthiness of an optional string, number or boolean. *)
Definition truthy_s (v : option string) : bool :=
  match v with
  | Some EmptyString | None => false
  | Some _ => true
  end.

Definition truthy_z (v : option Z) : bool :=
  match v with
  | Some z => negb (z =? 0)
  | None => false
  end.

Definition truthy_b (v : option bool) : bool :=
  match v with
  | Some b => b
  | None => false
  end.

(** [v || d] on an optional number *)
Definition or_z (v : option Z) (d : Z) : Z :=
  match v with
  | Some z => if z =? 0 then d else z
  | None => d
  end.

(** [util.hasValue] *)
Definition hasValue {A : Type} (v : option A) : bool :=
  match v with
  | Some _ => true
  | None => false
  end.

(** [_.defaults(this.opts, defaultOpts)] (lines 265-271): a key is filled in
    only where it is absent. *)
Definition or_default {A : Type} (v : option A) (d : A) : option A :=
  match v with
  | Some _ => v
  | None => Some d
  end.

Definition defaults (x : Opts) : Opts :=
  {| o_app := o_app x; o_appPackage := o_appPackage x; o_appActivity := o_appActivity x;
     o_browserName := o_browserName x; o_reboot := o_reboot x; o_avd := o_avd x;
     o_adbPort := or_default (o_adbPort x) DEFAULT_ADB_PORT;
     o_udid := o_udid x;
     o_fullReset := or_default (o_fullReset x) false;
     o_autoLaunch := or_default (o_autoLaunch x) true;
     o_androidInstallTimeout := or_default (o_androidInstallTimeout x) 90000;
     o_noReset := o_noReset x; o_fastReset := o_fastReset x; o_noSign := o_noSign x;
     o_skipUninstall := o_skipUninstall x; o_dontStopAppOnReset := o_dontStopAppOnReset x;
     o_shouldTerminateApp := o_shouldTerminateApp x; o_forceAppLaunch := o_forceAppLaunch x;
     o_gpsEnabled := o_gpsEnabled x;
     o_ignoreHiddenApiPolicyError := o_ignoreHiddenApiPolicyError x;
     o_disableWindowAnimation := o_disableWindowAnimation x;
     o_skipServerInstallation := o_skipServerInstallation x; o_skipUnlock := o_skipUnlock x;
     o_uninstallOtherPackages := o_uninstallOtherPackages x; o_otherApps := o_otherApps x;
     o_orientation := o_orientation x; o_autoWebview := o_autoWebview x;
     o_autoWebviewTimeout := o_autoWebviewTimeout x; o_mjpegServerPort := o_mjpegServerPort x;
     o_mjpegScreenshotUrl := o_mjpegScreenshotUrl x;
     o_nativeWebScreenshot := o_nativeWebScreenshot x |}.

(** ** Collaborator calls

    One constructor per awaited call that leaves [driver.ts]. *)

Inductive Call : Type :=
(* base driver and host helpers *)
| BaseCreateSession
| BaseDeleteSession
| ConfigureApp (app : string)
| FsExists (path : string)
| ParseArray (v : string)
| ConfigureOtherApps
| GetDeviceInfoFromCaps
| RemoveAllSessionWebSocketHandlers
| MjpegStreamStart
| MjpegStreamStop
| Sleep (ms : Z)
(* port scanner and the lock-file guard *)
| CheckPortStatus (port : Z)
| FindAPortNotInUse (startPort endPort : Z)
| GuardAcquire
| GuardRelease
(* device bridge: the ADB object and the helpers that drive it *)
| CreateADB
| AdbGetApiLevel
| AdbSetHiddenApiPolicy (ignoreError : bool)
| AdbSetDefaultHiddenApiPolicy (ignoreError : bool)
| IsEmulator
| AdbToggleGPSLocationProvider (enabled : bool)
| GetLaunchInfo
| InitDevice
| AdbForwardPort (localPort devicePort : Z)
| AdbRemovePortForward (localPort : Z)
| AdbAddToDeviceIdleWhitelist
| AdbIsAnimationOn
| AdbSetAnimationState (on : bool)
| UninstallOtherPackages
| InstallOtherApks
| AdbIsAppInstalled
| AdbCheckApkCert
| SignApp
| AdbUninstallApk
| InstallApk
| ResetApp
| Unlock
| AdbAndroidCoverage
| AdbEndAndroidCoverage
| AdbBroadcast
| AdbProcessExists
| AdbStartApp
| AdbForceStop
| AdbStopLogcat
| AdbKillEmulator
(* on-device server and the command mixins *)
| InstallServerApk
| Uia2StartSession
| Uia2DeleteSession
| MobileGetDeviceInfo
| GetDevicePixelRatio
| GetStatusBarHeight
| GetViewPortRect
| StartChromeSession
| StopChromedriverProxies
| SetOrientation
| SetContext
| StopRecordingScreen
| MobileIsMediaProjectionRecordingRunning
| MobileStopMediaProjectionRecording
| MobileStopScreenStreaming.

(** The calls that reach the device through the bridge. *)
Definition is_bridge_call (c : Call) : bool :=
  match c with
  | CreateADB | AdbGetApiLevel | AdbSetHiddenApiPolicy _ | AdbSetDefaultHiddenApiPolicy _
  | IsEmulator | AdbToggleGPSLocationProvider _ | GetLaunchInfo | InitDevice
  | AdbForwardPort _ _ | AdbRemovePortForward _ | AdbAddToDeviceIdleWhitelist
  | AdbIsAnimationOn | AdbSetAnimationState _ | UninstallOtherPackages | InstallOtherApks
  | AdbIsAppInstalled | AdbCheckApkCert | SignApp | AdbUninstallApk | InstallApk | ResetApp
  | Unlock | AdbAndroidCoverage | AdbEndAndroidCoverage | AdbBroadcast | AdbProcessExists
  | AdbStartApp | AdbForceStop | AdbStopLogcat | AdbKillEmulator => true
  | _ => false
  end.

Inductive Err : Type :=
| ErrorAndThrow (msg : string)   (* this.log.errorAndThrow(msg) *)
| Rejected (c : Call)            (* the awaited call rejected *)
| TypeError (what : string)      (* a method of [undefined] was called *)
| RequiredOption (name : string). (* new UiAutomator2Server: Option '<name>' is required! *)

(** ** The world outside the driver

    [trace] lists the collaborator calls in the order they were made,
    [forwards] is the bridge's table of (local port, device port) forwards,
    [warns] collects what [this.log.warn] received, and [detached] lists
    the calls that were started and never awaited: what becomes of them,
    and what their task goes on to do, happens later, outside the control
    flow of the driver. *)

Record World : Type := mkWorld {
  trace : list Call;
  forwards : list (Z * Z);
  warns : list (string * option Err);
  detached : list Call
}.

(** The environment decides what the collaborators do.  It may look at
    the whole history. *)
Record Env : Type := mkEnv {
  rejects : World -> Call -> bool;       (* does this call reject? *)
  answers : World -> Call -> bool;       (* result of a boolean query *)
  apiLevel : World -> Z;                 (* adb.getApiLevel() *)
  listening : World -> Z -> bool;        (* checkPortStatus(p, LOCALHOST_IP4) === 'open' *)
  isChromeBrowser : option string -> bool;
  getChromePkg : option string -> string * string;
  configuredApp : World -> string -> string;
  deviceUdid : World -> string;
  launchInfo : World -> option (option string * option string);
  newSessionId : World -> string
}.

Record St : Type := mkSt { drv : Driver; wld : World }.

(** ** State-and-exception monad

    A thrown error keeps the mutations made before it, as in JavaScript. *)

Inductive Res (A : Type) : Type :=
| Ok (a : A)
| Throw (e : Err).
Arguments Ok {A} a.
Arguments Throw {A} e.

Definition M (A : Type) : Type := St -> Res A * St.

Definition ret {A : Type} (a : A) : M A := fun st => (Ok a, st).

Definition throw {A : Type} (e : Err) : M A := fun st => (Throw e, st).

Definition bind {A B : Type} (m : M A) (k : A -> M B) : M B :=
  fun st =>
    match m st with
    | (Ok a, st') => k a st'
    | (Throw e, st') => (Throw e, st')
    end.

(** [try { m } catch (e) { h e }] *)
Definition try_catch {A : Type} (m : M A) (h : Err -> M A) : M A :=
  fun st =>
    match m st with
    | (Ok a, st') => (Ok a, st')
    | (Throw e, st') => h e st'
    end.

(** [try { m } finally { f }] where [f] cannot throw *)
Definition finally {A : Type} (m : M A) (f : St -> St) : M A :=
  fun st => let (r, st') := m st in (r, f st').

Declare Scope m_scope.
Delimit Scope m_scope with m.
Notation "x <- m ;; k" := (bind m (fun x => k))
  (at level 100, m at next level, right associativity) : m_scope.
Notation "m ;; k" := (bind m (fun _ => k))
  (at level 100, right associativity) : m_scope.
Local Open Scope m_scope.

Definition this : M Driver := fun st => (Ok (drv st), st).

Definition update (f : Driver -> Driver) : M unit :=
  fun st => (Ok tt, mkSt (f (drv st)) (wld st)).

Definition world : M World := fun st => (Ok (wld st), st).

Definition when (b : bool) (m : M unit) : M unit := if b then m else ret tt.

Definition record (c : Call) (w : World) : World :=
  mkWorld (trace w ++ [c]) (forwards w) (warns w) (detached w).

Definition add_forward (l d : Z) (w : World) : World :=
  mkWorld (trace w)
          ((l, d) :: filter (fun f => negb (fst f =? l)) (forwards w))
          (warns w) (detached w).

Definition remove_forward (l : Z) (w : World) : World :=
  mkWorld (trace w) (filter (fun f => negb (fst f =? l)) (forwards w)) (warns w)
          (detached w).

Definition add_warn (msg : string) (e : option Err) (w : World) : World :=
  mkWorld (trace w) (forwards w) (warns w ++ [(msg, e)]) (detached w).

(** The call [c], just made, is left running. *)
Definition leave (c : Call) (w : World) : World :=
  mkWorld (trace w) (forwards w) (warns w) (detached w ++ [c]).

Definition on_world (f : World -> World) : M unit :=
  fun st => (Ok tt, mkSt (drv st) (f (wld st))).

(** [this.log.warn(msg + err.message)] *)
Definition warn (msg : string) (e : option Err) : M unit := on_world (add_warn msg e).

(** An event that cannot fail (a timer, the release of the lock file). *)
Definition note (c : Call) : M unit := on_world (record c).

Section Driver.

Variable env : Env.

(** [await c]: the call is recorded, then rejects or resolves as the
    environment says.  What the called code assigns on the driver is not
    part of the model: the fields of the driver change by the assignments
    of [driver.ts] alone.  The mixins assign [chromedriver],
    [_screenRecordingProperties] and [_screenStreamingProps], which
    [driver.ts] only reads; [stopChromedriverProxies] may also assign
    [jwpProxyActive], which [deleteSession] reads once more to decide
    whether to end the device server's session and then clears
    (line 771). *)
Definition call (c : Call) : M unit :=
  fun st =>
    let w := wld st in
    let st' := mkSt (drv st) (record c w) in
    if rejects env w c then (Throw (Rejected c), st') else (Ok tt, st').

(** A call that resolves to a boolean. *)
Definition query (c : Call) : M bool :=
  w <- world ;; call c ;; ret (answers env w c).

(** [this.adb!.method(...)]: a [TypeError] when [this.adb] is undefined. *)
Definition adb_call (c : Call) : M unit :=
  d <- this ;;
  if adb d then call c else throw (TypeError "adb").

Definition adb_query (c : Call) : M bool :=
  d <- this ;;
  if adb d then query c else throw (TypeError "adb").

Definition adb_getApiLevel : M Z :=
  w <- world ;; adb_call AdbGetApiLevel ;; ret (apiLevel env w).

Definition adb_forwardPort (l d : Z) : M unit :=
  adb_call (AdbForwardPort l d) ;; on_world (add_forward l d).

Definition adb_removePortForward (l : Z) : M unit :=
  adb_call (AdbRemovePortForward l) ;; on_world (remove_forward l).

(** [checkPortStatus(port, LOCALHOST_IP4)], for a port number the probe
    accepts (0..65535): resolves to 'open' or 'closed'; [true] stands for
    'open'. *)
Definition checkPortStatus (port : Z) : M bool :=
  w <- world ;; note (CheckPortStatus port) ;; ret (listening env w port).

(** First port of [start, start + n) that nothing listens on. *)
Fixpoint scan (w : World) (start : Z) (n : nat) : option Z :=
  match n with
  | O => None
  | S n' => if listening env w start then scan w (start + 1) n' else Some start
  end.

(** [findAPortNotInUse(startPort, endPort)] of the port scanner: resolves
    to the first free port of the inclusive range and rejects when there is
    none. *)
Definition findAPortNotInUse (startPort endPort : Z) : M Z :=
  w <- world ;;
  note (FindAPortNotInUse startPort endPort) ;;
  match scan w startPort (Z.to_nat (endPort - startPort + 1)) with
  | Some p => ret p
  | None => throw (Rejected (FindAPortNotInUse startPort endPort))
  end.

(** [DEVICE_PORT_ALLOCATION_GUARD(behavior)]: take the lock file (this
    can time out), run the behaviour, release the lock whatever happened. *)
Definition DEVICE_PORT_ALLOCATION_GUARD {A : Type} (behavior : M A) : M A :=
  call GuardAcquire ;;
  finally behavior (fun st => mkSt (drv st) (record GuardRelease (wld st))).

(** ** Port allocation (lines 361-427) *)

Definition port_busy_message (localPort : Z) : string :=
  String.append "UiAutomator2 Server cannot start because the local port #"
    (String.append (string_of_Z localPort)
       (String.append " is busy. "
       (String.append "Make sure the port you provide via 'systemPort' capability is not occupied. "
       (String.append "This situation might often be a result of an inaccurate sessions management, e.g. "
          "old automation sessions on the same device must always be closed before starting new ones.")))).

Definition range_exhausted_message (startPort endPort : Z) : string :=
  String.append "Cannot find any free port in range "
    (String.append (string_of_Z startPort)
       (String.append ".."
       (String.append (string_of_Z endPort)
       (String.append "}. "
       (String.append "Please set the available port number by providing the systemPort capability or "
       (String.append "double check the processes that are locking ports within this range and terminate "
          "these which are not needed anymore")))))).

(** The local function [forwardPort] of [allocateSystemPort]. *)
Definition forwardPort (localPort : Z) : M unit :=
  open <- checkPortStatus localPort ;;
  when open (throw (ErrorAndThrow (port_busy_message localPort))) ;;
  adb_forwardPort localPort DEVICE_PORT.

(** The behaviour run under the guard (lines 382-396). *)
Definition scanAndForward : M unit :=
  let (startPort, endPort) := DEVICE_PORT_RANGE in
  p <- try_catch (findAPortNotInUse startPort endPort)
         (fun _ => throw (ErrorAndThrow (range_exhausted_message startPort endPort))) ;;
  update (set_systemPort (Some p)) ;;
  forwardPort p.

(** [if (this.systemPort)] is false for [undefined] and for [0]. *)
Definition allocateSystemPort : M unit :=
  d <- this ;;
  match systemPort d with
  | Some p =>
      if negb (p =? 0) then
        update (set__hasSystemPortInCaps true) ;;
        forwardPort p
      else DEVICE_PORT_ALLOCATION_GUARD scanAndForward
  | None => DEVICE_PORT_ALLOCATION_GUARD scanAndForward
  end.

Definition releaseSystemPort : M unit :=
  d <- this ;;
  match systemPort d with
  | Some p =>
      if (p =? 0) || negb (adb d) then ret tt
      else if _hasSystemPortInCaps d then adb_removePortForward p
      else DEVICE_PORT_ALLOCATION_GUARD (adb_removePortForward p)
  | None => ret tt
  end.

Definition allocateMjpegServerPort : M unit :=
  d <- this ;;
  match o_mjpegServerPort (opts d) with
  | Some p => when (negb (p =? 0)) (adb_forwardPort p MJPEG_SERVER_DEVICE_PORT)
  | None => ret tt
  end.

Definition releaseMjpegServerPort : M unit :=
  d <- this ;;
  match o_mjpegServerPort (opts d) with
  | Some p => when (negb (p =? 0)) (adb_removePortForward p)
  | None => ret tt
  end.

(** ** Session start (lines 236-317 and 429-731) *)

(** [deviceName.replace(/[^a-zA-Z0-9_.]/g, '-')], character by character
    of the string as it is held here. *)
Definition avd_char (c : ascii) : ascii :=
  let n := Z.of_nat (nat_of_ascii c) in
  if ((97 <=? n) && (n <=? 122)) || ((65 <=? n) && (n <=? 90)) || ((48 <=? n) && (n <=? 57))
     || (n =? 95) || (n =? 46)
  then c else "-"%char.

Fixpoint avd_name (s : string) : string :=
  match s with
  | EmptyString => EmptyString
  | String c s' => String (avd_char c) (avd_name s')
  end.

(** The text of a key in a template literal or as an argument. *)
Definition text (v : option string) : string :=
  match v with
  | Some s => s
  | None => "undefined"
  end.

Definition setAvdFromCapabilities (c : Caps) : M unit :=
  d <- this ;;
  if truthy_s (o_avd (opts d)) then ret tt
  else if negb (truthy_s (c_deviceName c)) then
    throw (ErrorAndThrow "avd or deviceName should be specified when reboot option is enables")
  else if negb (truthy_s (c_platformVersion c)) then
    throw (ErrorAndThrow "avd or platformVersion should be specified when reboot option is enabled")
  else
    let avdDevice := avd_name (text (c_deviceName c)) in
    update (fun d =>
      set_opts (set_o_avd (Some (String.append avdDevice
                                   (String.append "__" (text (c_platformVersion c))))) (opts d)) d).

Definition checkAppPresent : M unit :=
  d <- this ;;
  ex <- query (FsExists (text (o_app (opts d)))) ;;
  when (negb ex)
    (throw (ErrorAndThrow (String.append "Could not find app apk at '"
                             (String.append (text (o_app (opts d))) "'")))).

Definition isChromeSession (d : Driver) : bool :=
  isChromeBrowser env (o_browserName (opts d)).

(** [new UiAutomator2Server(this.log, uiautomator2Opts)] (line 601).  The
    constructor (lib/uiautomator2.ts) throws unless [adb], [tmpDir],
    [host], [systemPort], [devicePort] and [disableWindowAnimation] have a
    value, tested in this order.  [host], [devicePort] and
    [disableWindowAnimation] always have one (lines 586, 588 and 594), and
    [tmpDir] is filled in by the base driver. *)
Definition new_UiAutomator2Server : M unit :=
  d <- this ;;
  if negb (adb d) then throw (RequiredOption "adb")
  else if negb (hasValue (systemPort d)) then throw (RequiredOption "systemPort")
  else ret tt.

Definition initUiAutomator2Server : M unit :=
  new_UiAutomator2Server ;;
  update (set_uiautomator2 true) ;;
  d <- this ;;
  if o_skipServerInstallation (opts d) then ret tt
  else
    call InstallServerApk ;;
    try_catch (adb_call AdbAddToDeviceIdleWhitelist)
      (fun e => warn "Cannot add server packages to the Doze whitelist. Original error: " (Some e)).

(** The install branch of [initAUT] (lines 658-669). *)
Definition installApp : M unit :=
  d <- this ;;
  needSign <- (if o_noSign (opts d) then ret false
               else ok <- adb_query AdbCheckApkCert ;; ret (negb ok)) ;;
  when needSign (call SignApp) ;;
  when (negb (o_skipUninstall (opts d))) (adb_call AdbUninstallApk) ;;
  call InstallApk.

Definition initAUT : M unit :=
  d <- this ;;
  when (truthy_s (o_uninstallOtherPackages (opts d)))
    (call (ParseArray (text (o_uninstallOtherPackages (opts d)))) ;;
     call UninstallOtherPackages) ;;
  when (truthy_s (o_otherApps (opts d)))
    (try_catch (call (ParseArray (text (o_otherApps (opts d)))))
       (fun _ => throw (ErrorAndThrow "Could not parse 'otherApps' capability")) ;;
     call ConfigureOtherApps ;;
     call InstallOtherApks) ;;
  d <- this ;;
  if truthy_s (o_app (opts d)) then
    doInstall <- (if o_noReset (opts d)
                  then installed <- adb_query AdbIsAppInstalled ;; ret (negb installed)
                  else ret true) ;;
    if doInstall then installApp else ret tt
  else
    when (truthy_b (o_fullReset (opts d)))
      (throw (ErrorAndThrow "Full reset requires an app capability, use fastReset if app is not provided")) ;;
    when (o_fastReset (opts d) && truthy_s (o_appPackage (opts d))) (call ResetApp).

Definition ensureAppStarts : M unit :=
  d <- this ;;
  if truthy_s (c_androidCoverage (caps d)) then adb_call AdbAndroidCoverage
  else
    running <- (if o_noReset (opts d) && negb (o_forceAppLaunch (opts d))
                then adb_query AdbProcessExists else ret false) ;;
    if running then ret tt else adb_call AdbStartApp.

(** [retryInterval(times, sleepMs, fn)] of asyncbox.  [retry] runs the
    wrapped function while [tries < times] and rethrows once
    [tries >= times]; the wrapper counts its calls and sleeps after a
    failure unless [count === times].  [times] is a quotient, so it is a
    rational here.  The loop is by recursion on [fuel]; it is called with
    [fuel] at least the number of attempts, and the attempt that uses the
    last unit of fuel has [tries >= times]. *)
Fixpoint retryInterval_loop {A : Type} (fuel : nat) (times : Q) (sleepMs : Z)
    (tries count : Z) (fn : M A) : M (option A) :=
  if negb (Qle_bool times (inject_Z tries)) then
    let tries := tries + 1 in
    let count := count + 1 in
    try_catch
      (a <- try_catch fn
              (fun e =>
                 when (negb (Qeq_bool (inject_Z count) times)) (note (Sleep sleepMs)) ;;
                 throw e) ;;
       ret (Some a))
      (fun err =>
         if Qle_bool times (inject_Z tries) then throw err
         else
           match fuel with
           | S fuel' => retryInterval_loop fuel' times sleepMs tries count fn
           | O => throw err
           end)
  else ret None.

Definition retryInterval {A : Type} (times : Q) (sleepMs : Z) (fn : M A) : M (option A) :=
  retryInterval_loop (Z.to_nat (Qceiling times)) times sleepMs 0 0 fn.

(** [this.opts = {...this.opts, ...(appInfo ?? {})}] (line 472) *)
Definition mergeAppInfo (info : option (option string * option string)) (o : Opts) : Opts :=
  match info with
  | Some (pkg, act) =>
      let o1 := match pkg with Some _ => set_o_appPackage pkg o | None => o end in
      match act with Some _ => set_o_appActivity act o1 | None => o1 end
  | None => o
  end.

Definition getDeviceDetails : M unit :=
  call GetDevicePixelRatio ;; call GetStatusBarHeight ;; call GetViewPortRect.

Definition startUiAutomator2Session (c : Caps) : M unit :=
  (* get device udid for this session *)
  w <- world ;;
  call GetDeviceInfoFromCaps ;;
  update (fun d => set_opts (set_o_udid (Some (deviceUdid env w)) (opts d)) d) ;;
  call CreateADB ;;
  update (set_adb true) ;;
  level <- adb_getApiLevel ;;
  when (level <? 21)
    (throw (ErrorAndThrow
       (String.append "UIAutomator2 is only supported since Android 5.0 (Lollipop). "
          "You could still use other supported backends in order to automate older Android versions."))) ;;
  d <- this ;;
  when (level >=? 28) (adb_call (AdbSetHiddenApiPolicy (o_ignoreHiddenApiPolicyError (opts d)))) ;;
  (* check if we have to enable/disable gps before running the application *)
  match o_gpsEnabled (opts d) with
  | Some gps =>
      emu <- query IsEmulator ;;
      if emu then adb_call (AdbToggleGPSLocationProvider gps)
      else warn "Sorry! 'gpsEnabled' capability is only available for emulators" None
  | None => ret tt
  end ;;
  (* get appPackage et al from manifest if necessary *)
  w <- world ;;
  call GetLaunchInfo ;;
  update (fun d => set_opts (mergeAppInfo (launchInfo env w) (opts d)) d) ;;
  call InitDevice ;;
  (* Prepare the device by forwarding the UiAutomator2 port *)
  allocateSystemPort ;;
  allocateMjpegServerPort ;;
  (* set up the modified UiAutomator2 server etc *)
  initUiAutomator2Server ;;
  d <- this ;;
  below26 <- (if o_disableWindowAnimation (opts d)
              then l <- adb_getApiLevel ;; ret (l <? 26) else ret false) ;;
  when below26
    (on <- adb_query AdbIsAnimationOn ;;
     when on
       (adb_call (AdbSetAnimationState false) ;;
        update (set__wasWindowAnimationDisabled true))) ;;
  (* set up app under test *)
  initAUT ;;
  (* launch UiAutomator2 and wait till its online and we have a session *)
  call Uia2StartSession ;;
  call MobileGetDeviceInfo ;;
  d <- this ;;
  when (negb (o_skipUnlock (opts d))) (call Unlock) ;;
  (if isChromeSession d then call StartChromeSession
   else when (truthy_b (o_autoLaunch (opts d)) && truthy_s (o_appPackage (opts d))) ensureAppStarts) ;;
  when (hasValue (o_orientation (opts d))) (call SetOrientation) ;;
  (* if we want to immediately get into a webview, set our context *)
  when (o_autoWebview (opts d))
    (let timeout := or_z (o_autoWebviewTimeout (opts d)) 2000 in
     retryInterval (Qdiv (inject_Z timeout) (inject_Z 500)) 500 (call SetContext) ;; ret tt) ;;
  (* now that everything has started successfully, turn on proxying *)
  update (set_jwpProxyActive true) ;;
  getDeviceDetails.

(** ** Session end (lines 733-865) *)

(** [try { await m } catch (err) { this.log.warn(msg + err.message) }] *)
Definition try_warn (msg : string) (m : M unit) : M unit :=
  try_catch m (fun e => warn msg (Some e)).

(** [c()] is called and its promise is not awaited by [deleteSession]. *)
Definition start (c : Call) : M unit := note c ;; on_world (leave c).

(** The three stop tasks (lines 736-752), as [deleteSession] runs them
    (lines 775-781): the callback given to [map] calls each wrapped task
    and returns nothing, so [B.all] has nothing to wait for.  Each task
    runs up to its first [await], that is, it makes its first call, and
    is left running.  Whether that call rejects, and the
    [mobileStopMediaProjectionRecording] that the second task requests
    if its query resolves to true, come later and cannot reach
    [deleteSession]: the wrapper swallows every error. *)
Definition screenRecordingStopTasks : list (M unit) :=
  [ (d <- this ;; when (_screenRecordingProperties d) (start StopRecordingScreen));
    start MobileIsMediaProjectionRecordingRunning;
    (d <- this ;; when (_screenStreamingProps d) (start MobileStopScreenStreaming)) ].

Fixpoint run_all (tasks : list (M unit)) : M unit :=
  match tasks with
  | [] => ret tt
  | t :: tasks' => t ;; run_all tasks'
  end.

Definition shouldForceStop (d : Driver) : bool :=
  negb (isChromeSession d) &&
  ((negb (o_dontStopAppOnReset (opts d)) && negb (o_noReset (opts d))) ||
   (o_noReset (opts d) && o_shouldTerminateApp (opts d))).

(** The body of [if (this.adb) { ... }] (lines 773-859). *)
Definition deleteSession_adb : M unit :=
  run_all screenRecordingStopTasks ;;
  d <- this ;;
  when (truthy_s (c_androidCoverage (caps d)))
    (adb_call AdbEndAndroidCoverage ;;
     if truthy_s (c_androidCoverageEndIntent (caps d)) then adb_call AdbBroadcast
     else warn "No androidCoverageEndIntent is configured in caps. Possibly you cannot get coverage file." None) ;;
  when (truthy_s (o_appPackage (opts d)))
    (when (shouldForceStop d)
       (try_warn "Unable to force stop app: " (adb_call AdbForceStop)) ;;
     when (truthy_b (o_fullReset (opts d)) && negb (o_skipUninstall (opts d)))
       (try_warn "Unable to uninstall app: " (adb_call AdbUninstallApk))) ;;
  (* This value can be true if test target device is <= 26 *)
  when (_wasWindowAnimationDisabled d) (adb_call (AdbSetAnimationState true)) ;;
  adb_call AdbStopLogcat ;;
  try_warn "Unable to remove system port forward: " releaseSystemPort ;;
  try_warn "Unable to remove MJPEG server port forward: " releaseMjpegServerPort ;;
  level <- adb_getApiLevel ;;
  when (level >=? 28)
    (adb_call (AdbSetDefaultHiddenApiPolicy (o_ignoreHiddenApiPolicyError (opts d)))) ;;
  when (o_reboot (opts d))
    (match o_avd (opts d) with
     | Some _ => try_warn "Unable to close emulator: " (adb_call AdbKillEmulator)
     | None => throw (TypeError "avd")
     end).

(** Each field is read where the source reads it: [this.jwpProxyActive]
    after [stopChromedriverProxies] was awaited, [this.adb] and
    [this.mjpegStream] after what precedes them. *)
Definition deleteSession : M unit :=
  call RemoveAllSessionWebSocketHandlers ;;
  d <- this ;;
  when (uiautomator2 d)
    (try_warn "Unable to stop ChromeDriver proxies: " (call StopChromedriverProxies) ;;
     d <- this ;;
     when (jwpProxyActive d)
       (try_warn "Unable to proxy deleteSession to UiAutomator2: " (call Uia2DeleteSession)) ;;
     update (set_uiautomator2 false)) ;;
  update (set_jwpProxyActive false) ;;
  d <- this ;;
  when (adb d) deleteSession_adb ;;
  d <- this ;;
  when (mjpegStream d) (call MjpegStreamStop) ;;
  call BaseDeleteSession ;;
  update (set_sessionId None).

(** ** createSession (lines 236-317) *)

(** The [try] block.  The base driver validates the bundle and installs
    it as [this.opts] and [this.caps] together with a fresh session id. *)
Definition provision (o : Opts) (c : Caps) : M string :=
  w <- world ;;
  call BaseCreateSession ;;
  let sessionId := newSessionId env w in
  update (fun d => set_sessionId (Some sessionId) (set_caps c (set_opts o d))) ;;
  update (fun d => set_opts (defaults (opts d)) d) ;;
  d <- this ;;
  when (isChromeSession d)
    (let (pkg, activity) := getChromePkg env (o_browserName (opts d)) in
     update (fun d => set_caps (set_c_appActivity (Some activity) (set_c_appPackage (Some pkg) (caps d)))
                        (set_opts (set_o_appActivity (Some activity)
                                     (set_o_appPackage (Some pkg) (opts d))) d))) ;;
  when (o_reboot (opts d)) (setAvdFromCapabilities c) ;;
  d <- this ;;
  when (truthy_s (o_app (opts d)))
    (w <- world ;;
     call (ConfigureApp (text (o_app (opts d)))) ;;
     update (fun d => set_opts (set_o_app (Some (configuredApp env w (text (o_app (opts d))))) (opts d)) d) ;;
     checkAppPresent) ;;
  update (fun d => set_opts (set_o_adbPort (Some (or_z (o_adbPort (opts d)) DEFAULT_ADB_PORT)) (opts d)) d) ;;
  startUiAutomator2Session c ;;
  d <- this ;;
  when (truthy_s (o_mjpegScreenshotUrl (opts d)))
    (update (set_mjpegStream true) ;;
     call MjpegStreamStart) ;;
  ret sessionId.

Definition createSession (o : Opts) (c : Caps) : M string :=
  try_catch (provision o c)
    (fun e => deleteSession ;; throw e).

End Driver.

(** ** Proxying (lines 880-909) *)

Definition proxyActive (d : Driver) (sessionId : string) : bool := true.

Definition canProxy (d : Driver) (sessionId : string) : bool := true.

Definition getProxyAvoidList (d : Driver) : list RouteMatcher * Driver :=
  let d1 := if chromedriver d
            then set_jwpProxyAvoid CHROME_NO_PROXY d
            else set_jwpProxyAvoid NO_PROXY d in
  let d2 := if o_nativeWebScreenshot (opts d1)
            then set_jwpProxyAvoid (jwpProxyAvoid d1 ++ [SCREENSHOT_RULE]) d1
            else d1 in
  (jwpProxyAvoid d2, d2).

(** The state the constructor leaves (lines 194-227). *)
Definition emptyCaps : Caps := mkCaps None None None None None None.

Definition constructor (o : Opts) : Driver :=
  {| sessionId := None; opts := o; caps := emptyCaps; adb := false; uiautomator2 := false;
     systemPort := None; _hasSystemPortInCaps := false; jwpProxyActive := false;
     jwpProxyAvoid := NO_PROXY; chromedriver := false; mjpegStream := false;
     _wasWindowAnimationDisabled := false; _screenRecordingProperties := false;
     _screenStreamingProps := false |}.

Inductive Decision : Type := HandleLocally | ProxyToDevice.

(** Modelled from the spec: the loop of the base driver that matches a
    request against the list returned by [getProxyAvoidList] is not part of
    [driver.ts].  A request matches a rule when its method equals the
    rule's method and its path matches the rule's pattern; on any match the
    request is handled locally, otherwise it is proxied to the device
    server. *)
Definition matches (r : RouteMatcher) (method : Method) (path : string) : bool :=
  Method_eqb (fst r) method && test (snd r) path.

Definition routeRequest (d : Driver) (method : Method) (path : string) : Decision * Driver :=
  let (avoid, d') := getProxyAvoidList d in
  (if existsb (fun r => matches r method path) avoid then HandleLocally else ProxyToDevice, d').

(** * Reasoning rules

    [hoare P m Q]: from a state satisfying [P], the run of [m] ends in a
    result and a state related by [Q].  Every run ends, so this is total
    correctness; a thrown error is a result like any other.

    [passes I E m]: [m] keeps the invariant [I] whether it returns or
    throws, and throws only errors in [E]. *)

Definition hoare {A : Type} (P : St -> Prop) (m : M A) (Q : Res A -> St -> Prop) : Prop :=
  forall st, P st -> Q (fst (m st)) (snd (m st)).

Definition raises {A : Type} (E : Err -> Prop) (r : Res A) : Prop :=
  match r with
  | Ok _ => True
  | Throw e => E e
  end.

Definition passes {A : Type} (I : St -> Prop) (E : Err -> Prop) (m : M A) : Prop :=
  hoare I m (fun r st => I st /\ raises E r).

Definition is_throw {A : Type} (r : Res A) : Prop := exists e, r = Throw e.

(** Invariance of a state predicate under a change of the driver or of
    the world. *)
Definition stable_drv (I : St -> Prop) (f : Driver -> Driver) : Prop :=
  forall st, I st -> I (mkSt (f (drv st)) (wld st)).

Definition stable_wld (I : St -> Prop) (f : World -> World) : Prop :=
  forall st, I st -> I (mkSt (drv st) (f (wld st))).

(** A bundle with every key absent. *)
Definition bare_opts : Opts :=
  mkOpts None None None None false None None None None None None false false
         false false false false false None false false false false None None None
         false None None None false.

(** The table of the context the driver is in. *)
Definition active_table (d : Driver) : list RouteMatcher :=
  if chromedriver d then CHROME_NO_PROXY else NO_PROXY.

(** The extension of the table, computed once, in the state [d0] a
    session starts in. *)
Definition session_extension (d0 : Driver) : list RouteMatcher :=
  if o_nativeWebScreenshot (opts d0) then [SCREENSHOT_RULE] else [].
(** ** Vocabulary of the port properties *)

(** The session holds a port lease: [this.systemPort] is a usable port
    number and the bridge is attached. *)
Definition leased (p : Z) (d : Driver) : Prop :=
  systemPort d = Some p /\ p <> 0 /\ adb d = true.

(** Whether the guard (for a scanned port) and the bridge accept a
    release issued in world [w]. *)
Definition release_accepted (env : Env) (w : World) (d : Driver) (p : Z) : bool :=
  if _hasSystemPortInCaps d
  then negb (rejects env w (AdbRemovePortForward p))
  else negb (rejects env w GuardAcquire) &&
       negb (rejects env (record GuardAcquire w) (AdbRemovePortForward p)).

(** An environment with nothing listening, API level 30 and every
    collaborator call resolving. *)
Definition quiet_env : Env :=
  {| rejects := fun _ _ => false;
     answers := fun _ _ => true;
     apiLevel := fun _ => 30;
     listening := fun _ _ => false;
     isChromeBrowser := fun _ => false;
     getChromePkg := fun _ => ("com.android.chrome", "com.google.android.apps.chrome.Main");
     configuredApp := fun _ a => a;
     deviceUdid := fun _ => "emulator-5554";
     launchInfo := fun _ => None;
     newSessionId := fun _ => "4f2a" |}.

(** A bridge that, like [adb forward --remove], rejects the removal of a
    forward that is not in its table. *)
Definition strict_bridge_env : Env :=
  {| rejects := fun w c =>
       match c with
       | AdbRemovePortForward p => negb (existsb (fun f => fst f =? p) (forwards w))
       | _ => false
       end;
     answers := fun _ _ => true;
     apiLevel := fun _ => 30;
     listening := fun _ _ => false;
     isChromeBrowser := fun _ => false;
     getChromePkg := fun _ => ("com.android.chrome", "com.google.android.apps.chrome.Main");
     configuredApp := fun _ a => a;
     deviceUdid := fun _ => "emulator-5554";
     launchInfo := fun _ => None;
     newSessionId := fun _ => "4f2a" |}.

(** Port 9000 is taken on the host. *)
Definition port_9000_busy_env : Env :=
  {| rejects := fun _ _ => false;
     answers := fun _ _ => true;
     apiLevel := fun _ => 30;
     listening := fun _ p => p =? 9000;
     isChromeBrowser := fun _ => false;
     getChromePkg := fun _ => ("com.android.chrome", "com.google.android.apps.chrome.Main");
     configuredApp := fun _ a => a;
     deviceUdid := fun _ => "emulator-5554";
     launchInfo := fun _ => None;
     newSessionId := fun _ => "4f2a" |}.

Definition empty_world : World := mkWorld [] [] [] [].

(** A fresh driver. *)
Definition fresh : St := mkSt (constructor bare_opts) empty_world.

(** A driver whose bridge is attached, as after [createADB]. *)
Definition attached : St := mkSt (set_adb true (constructor bare_opts)) empty_world.

(** ** Vocabulary of the teardown properties *)

(** The collaborator calls of [deleteSession] that are awaited outside
    any [try]: a rejection of one of them leaves [deleteSession]. *)
Definition unwrapped_teardown_call (c : Call) : bool :=
  match c with
  | RemoveAllSessionWebSocketHandlers | AdbEndAndroidCoverage | AdbBroadcast
  | AdbSetAnimationState true | AdbStopLogcat | AdbGetApiLevel
  | AdbSetDefaultHiddenApiPolicy _ | MjpegStreamStop => true
  | _ => false
  end.

(** [l] occurs in [t], in this order, possibly with other calls between. *)
Inductive subsequence : list Call -> list Call -> Prop :=
| subsequence_nil : subsequence [] []
| subsequence_skip (l : list Call) (c : Call) (t : list Call) :
    subsequence l t -> subsequence l (c :: t)
| subsequence_take (l : list Call) (c : Call) (t : list Call) :
    subsequence l t -> subsequence (c :: l) (c :: t).

(** The first call of [releaseSystemPort] (lines 399-411): none without
    a recorded port or a bridge, the removal itself for a port from the
    capabilities, the lock file for a scanned port. *)
Definition release_first_call (d : Driver) : list Call :=
  match systemPort d with
  | Some p =>
      if (p =? 0) || negb (adb d) then []
      else if _hasSystemPortInCaps d then [AdbRemovePortForward p]
      else [GuardAcquire]
  | None => []
  end.

(** The call of [releaseMjpegServerPort] (lines 423-427). *)
Definition mjpeg_release_call (d : Driver) : list Call :=
  match o_mjpegServerPort (opts d) with
  | Some p => if negb (p =? 0) then [AdbRemovePortForward p] else []
  | None => []
  end.

(** The sub-steps of [if (this.adb) { ... }] (lines 773-859), each by
    its first call, in the order of the source.  Left out are the steps
    whose guard is not decided by the state [deleteSession] starts in:
    the two stop tasks guarded by [_screenRecordingProperties] and
    [_screenStreamingProps], which the mixins assign, and the restoring
    of the hidden API policy, which depends on the API level the bridge
    reports. *)
Definition bridge_steps (env : Env) (d : Driver) : list Call :=
  [MobileIsMediaProjectionRecordingRunning] ++
  (if truthy_s (c_androidCoverage (caps d)) then
     [AdbEndAndroidCoverage] ++
     (if truthy_s (c_androidCoverageEndIntent (caps d)) then [AdbBroadcast] else [])
   else []) ++
  (if truthy_s (o_appPackage (opts d)) then
     (if shouldForceStop env d then [AdbForceStop] else []) ++
     (if truthy_b (o_fullReset (opts d)) && negb (o_skipUninstall (opts d))
      then [AdbUninstallApk] else [])
   else []) ++
  (if _wasWindowAnimationDisabled d then [AdbSetAnimationState true] else []) ++
  [AdbStopLogcat] ++
  release_first_call d ++
  mjpeg_release_call d ++
  [AdbGetApiLevel] ++
  (if o_reboot (opts d) then [AdbKillEmulator] else []).

(** The sub-steps of [deleteSession] for a driver in state [d].  The
    end of the device server's session is left out: its guard is
    [jwpProxyActive] as [stopChromedriverProxies] leaves it. *)
Definition teardown_steps (env : Env) (d : Driver) : list Call :=
  [RemoveAllSessionWebSocketHandlers] ++
  (if uiautomator2 d then [StopChromedriverProxies] else []) ++
  (if adb d then bridge_steps env d else []) ++
  (if mjpegStream d then [MjpegStreamStop] else []) ++
  [BaseDeleteSession].

(** The fields that decide the sub-steps are those of [d0], and since
    [T0] the calls of [L] were made, in this order. *)
Definition reached (T0 : list Call) (d0 : Driver) (L : list Call) (st : St) : Prop :=
  adb (drv st) = adb d0 /\ opts (drv st) = opts d0 /\ caps (drv st) = caps d0 /\
  systemPort (drv st) = systemPort d0 /\
  _hasSystemPortInCaps (drv st) = _hasSystemPortInCaps d0 /\
  _wasWindowAnimationDisabled (drv st) = _wasWindowAnimationDisabled d0 /\
  mjpegStream (drv st) = mjpegStream d0 /\
  exists t, trace (wld st) = T0 ++ t /\ subsequence L t.

(** The step returned, in a state where [R] holds. *)
Definition returning {A : Type} (R : St -> Prop) (r : Res A) (st : St) : Prop :=
  match r with
  | Ok _ => R st
  | Throw _ => False
  end.

(** Every collaborator resolves, except that [adb.stopLogcat] rejects. *)
Definition logcat_fails_env : Env :=
  {| rejects := fun _ c => match c with AdbStopLogcat => true | _ => false end;
     answers := fun _ _ => true;
     apiLevel := fun _ => 30;
     listening := fun _ _ => false;
     isChromeBrowser := fun _ => false;
     getChromePkg := fun _ => ("com.android.chrome", "com.google.android.apps.chrome.Main");
     configuredApp := fun _ a => a;
     deviceUdid := fun _ => "emulator-5554";
     launchInfo := fun _ => None;
     newSessionId := fun _ => "4f2a" |}.

(** The wrapped sub-steps reject; everything else resolves. *)
Definition wrapped_steps_fail_env : Env :=
  {| rejects := fun _ c =>
       match c with
       | StopChromedriverProxies | Uia2DeleteSession | AdbForceStop | AdbUninstallApk
       | AdbRemovePortForward _ | MobileIsMediaProjectionRecordingRunning => true
       | _ => false
       end;
     answers := fun _ _ => true;
     apiLevel := fun _ => 30;
     listening := fun _ _ => false;
     isChromeBrowser := fun _ => false;
     getChromePkg := fun _ => ("com.android.chrome", "com.google.android.apps.chrome.Main");
     configuredApp := fun _ a => a;
     deviceUdid := fun _ => "emulator-5554";
     launchInfo := fun _ => None;
     newSessionId := fun _ => "4f2a" |}.

(** The server package cannot be installed, and at teardown
    [adb.stopLogcat] rejects. *)
Definition install_and_logcat_fail_env : Env :=
  {| rejects := fun _ c =>
       match c with InstallServerApk | AdbStopLogcat => true | _ => false end;
     answers := fun _ _ => true;
     apiLevel := fun _ => 30;
     listening := fun _ _ => false;
     isChromeBrowser := fun _ => false;
     getChromePkg := fun _ => ("com.android.chrome", "com.google.android.apps.chrome.Main");
     configuredApp := fun _ a => a;
     deviceUdid := fun _ => "emulator-5554";
     launchInfo := fun _ => None;
     newSessionId := fun _ => "4f2a" |}.

(** Only the server package cannot be installed. *)
Definition install_fails_env : Env :=
  {| rejects := fun _ c => match c with InstallServerApk => true | _ => false end;
     answers := fun _ _ => true;
     apiLevel := fun _ => 30;
     listening := fun _ _ => false;
     isChromeBrowser := fun _ => false;
     getChromePkg := fun _ => ("com.android.chrome", "com.google.android.apps.chrome.Main");
     configuredApp := fun _ a => a;
     deviceUdid := fun _ => "emulator-5554";
     launchInfo := fun _ => None;
     newSessionId := fun _ => "4f2a" |}.

(** [w] is a later world than [w0]. *)
Definition extends (w0 w : World) : Prop :=
  exists t, trace w = trace w0 ++ t.

(** The calls of [deleteSession] awaited outside any [try] before the
    port release is reached. *)
Definition before_release_call (c : Call) : bool :=
  match c with
  | RemoveAllSessionWebSocketHandlers | AdbEndAndroidCoverage | AdbBroadcast
  | AdbSetAnimationState true | AdbStopLogcat => true
  | _ => false
  end.

(** The calls the release of port [p] consists of. *)
Definition release_call (p : Z) (c : Call) : bool :=
  match c with
  | GuardAcquire => true
  | AdbRemovePortForward l => l =? p
  | _ => false
  end.

(** Every forward to the device control port is either one of the
    forwards [F0] that were there before, or is held by this driver as its
    lease. *)
Definition forwards_owned (F0 : list (Z * Z)) (st : St) : Prop :=
  forall p, In (p, DEVICE_PORT) (forwards (wld st)) ->
            In (p, DEVICE_PORT) F0 \/ leased p (drv st).

(** The driver holds the lease of [p] and the world is later than [w0]. *)
Definition holding (p : Z) (w0 : World) (st : St) : Prop :=
  adb (drv st) = true /\ systemPort (drv st) = Some p /\ extends w0 (wld st).

(** No local port [p] is forwarded. *)
Definition unforwarded (p : Z) (st : St) : Prop :=
  forall dp, ~ In (p, dp) (forwards (wld st)).

(** ** Vocabulary of the session-start properties *)

(** The error of the full-reset check of [initAUT] (line 677). *)
Definition full_reset_error : Err :=
  ErrorAndThrow "Full reset requires an app capability, use fastReset if app is not provided".

(** A bundle with the full-reset policy and no application. *)
Definition full_reset_opts : Opts :=
  mkOpts None None None None false None None None (Some true) None None false false
         false false false false false None false false false false None None None
         false None None None false.

(** The claim of C6 at one start: it fails, and no call to the device
    bridge was made on the way. *)
Definition fails_before_any_bridge_call (env : Env) (o : Opts) (c : Caps) (st : St) : Prop :=
  is_throw (fst (provision env o c st)) /\
  forall t, trace (wld (snd (provision env o c st))) = trace (wld st) ++ t ->
            forallb (fun k => negb (is_bridge_call k)) t = true.

(** The bundle asks for a full reset without an application, and since
    the trace [T0] each call of [L] was made. *)
Definition stage (T0 L : list Call) (st : St) : Prop :=
  truthy_b (o_fullReset (opts (drv st))) = true /\
  truthy_s (o_app (opts (drv st))) = false /\
  exists t, trace (wld st) = T0 ++ t /\ incl L t.

(** Number of [setContext] attempts in a trace. *)
Definition polls (t : list Call) : nat :=
  List.length (filter (fun k => match k with SetContext => true | _ => false end) t).

(** A bundle with the auto-webview policy and a timeout of 2000 ms. *)
Definition auto_webview_opts : Opts :=
  mkOpts None None None None false None None None None None None false false
         false false false false false None false false false false None None None
         true (Some 2000) None None false.

(** The webview context never appears: [setContext] always rejects. *)
Definition no_webview_env : Env :=
  {| rejects := fun _ c => match c with SetContext => true | _ => false end;
     answers := fun _ _ => true;
     apiLevel := fun _ => 30;
     listening := fun _ _ => false;
     isChromeBrowser := fun _ => false;
     getChromePkg := fun _ => ("com.android.chrome", "com.google.android.apps.chrome.Main");
     configuredApp := fun _ a => a;
     deviceUdid := fun _ => "emulator-5554";
     launchInfo := fun _ => None;
     newSessionId := fun _ => "4f2a" |}.

(** [n] attempts so far. *)
Definition polled (n : nat) (st : St) : Prop :=
  polls (trace (wld st)) = n.

(** [n] attempts so far, and the bundle asks to enter a webview with a
    timeout of [T] ms. *)
Definition polling (T : Z) (n : nat) (st : St) : Prop :=
  polls (trace (wld st)) = n /\
  o_autoWebview (opts (drv st)) = true /\
  or_z (o_autoWebviewTimeout (opts (drv st))) 2000 = T.

(** The number of attempts [retryInterval(timeout / 500, ...)] allows. *)
Definition attempts (T : Z) : nat :=
  Z.to_nat (Qceiling (Qdiv (inject_Z T) (inject_Z 500))).

Definition not_set_context (e : Err) : Prop := e <> Rejected SetContext.

(** The state after one failed attempt of the wrapped [setContext]. *)
Definition after_failed_attempt (sleepMs : Z) (pause : bool) (st : St) : St :=
  mkSt (drv st)
       (if pause then record (Sleep sleepMs) (record SetContext (wld st))
        else record SetContext (wld st)).

(** The start failed: with the rejection of [setContext] after [k] more
    attempts, or with another error and no attempt. *)
Definition gave_up (n k : nat) {A : Type} (r : Res A) (st : St) : Prop :=
  match r with
  | Ok _ => False
  | Throw e =>
      (e = Rejected SetContext /\ polled (n + k) st) \/
      (not_set_context e /\ polled n st)
  end.

(** The start failed with the rejection of [setContext], after [n]
    attempts in all. *)
Definition stuck_on_webview (n : nat) {A : Type} (r : Res A) (st : St) : Prop :=
  r = Throw (Rejected SetContext) /\ polled n st.

(** Nothing but the webview stands in the way of the start: every call
    other than [setContext] resolves, the device has API level 21 or more,
    no host port is taken, and the bundle asks neither for a reboot, nor
    for an application, nor for a full reset. *)
Definition unhindered (env : Env) (o : Opts) : Prop :=
  (forall w k, k <> SetContext -> rejects env w k = false) /\
  (forall w, 21 <= apiLevel env w) /\
  (forall w p, listening env w p = false) /\
  o_reboot o = false /\
  truthy_s (o_app o) = false /\
  truthy_b (o_fullReset o) = false.

(** [n] attempts so far, and a bundle that heads for the webview: the
    auto-webview policy with a timeout of 2000 ms, no reboot, no
    application, no full reset. *)
Definition webview_bound (n : nat) (st : St) : Prop :=
  polls (trace (wld st)) = n /\
  o_autoWebview (opts (drv st)) = true /\
  or_z (o_autoWebviewTimeout (opts (drv st))) 2000 = 2000 /\
  o_reboot (opts (drv st)) = false /\
  truthy_s (o_app (opts (drv st))) = false /\
  truthy_b (o_fullReset (opts (drv st))) = false.

(** The same once [this.adb] is set (line 440). *)
Definition webview_bound_bridged (n : nat) (st : St) : Prop :=
  adb (drv st) = true /\
  polls (trace (wld st)) = n /\
  o_autoWebview (opts (drv st)) = true /\
  or_z (o_autoWebviewTimeout (opts (drv st))) 2000 = 2000 /\
  o_reboot (opts (drv st)) = false /\
  truthy_s (o_app (opts (drv st))) = false /\
  truthy_b (o_fullReset (opts (drv st))) = false.

(** The same once [this.systemPort] has a value (line 491). *)
Definition webview_bound_forwarded (n : nat) (st : St) : Prop :=
  hasValue (systemPort (drv st)) = true /\
  adb (drv st) = true /\
  polls (trace (wld st)) = n /\
  o_autoWebview (opts (drv st)) = true /\
  or_z (o_autoWebviewTimeout (opts (drv st))) 2000 = 2000 /\
  o_reboot (opts (drv st)) = false /\
  truthy_s (o_app (opts (drv st))) = false /\
  truthy_b (o_fullReset (opts (drv st))) = false.
(** ** Vocabulary of the further properties *)

(** The class [[a-zA-Z0-9_.]] that [setAvdFromCapabilities] keeps. *)
Definition is_avd_char (c : ascii) : bool :=
  let n := Z.of_nat (nat_of_ascii c) in
  ((97 <=? n) && (n <=? 122)) || ((65 <=? n) && (n <=? 90)) || ((48 <=? n) && (n <=? 57))
  || (n =? 95) || (n =? 46).

Fixpoint string_forall (P : ascii -> bool) (s : string) : bool :=
  match s with
  | EmptyString => true
  | String c s' => P c && string_forall P s'
  end.

(** The calls made since the trace [T0] satisfy [P]. *)
Definition since (T0 : list Call) (P : list Call -> Prop) (w : World) : Prop :=
  exists t, trace w = T0 ++ t /\ P t.

(** None of the calls in [t] is one of the [bad] calls. *)
Definition none_of (bad : Call -> bool) (t : list Call) : Prop :=
  forallb (fun k => negb (bad k)) t = true.

(** No local port [p] is in the forward table. *)
Definition port_unused (p : Z) (w : World) : Prop :=
  forall dp, ~ In (p, dp) (forwards w).

(** [this.opts.avd!] is safe: the bridge is not attached, or no reboot
    was asked for, or the emulator name is defined. *)
Definition avd_safe (d : Driver) : Prop :=
  adb d = false \/ o_reboot (opts d) = false \/ truthy_s (o_avd (opts d)) = true.

Definition not_avd_type_error (e : Err) : Prop := e <> TypeError "avd".

(** The driver fields [deleteSession] reads to decide about the emulator. *)
Definition emulator_frame (a : bool) (o : Opts) (st : St) : Prop :=
  adb (drv st) = a /\ opts (drv st) = o /\ True.

Definition signing_call (c : Call) : bool :=
  match c with
  | AdbCheckApkCert | SignApp => true
  | _ => false
  end.

Definition uninstall_call (c : Call) : bool :=
  match c with
  | AdbUninstallApk => true
  | _ => false
  end.

(** [noSign] is set and no signing call was made since [T0]. *)
Definition unsigned (T0 : list Call) (st : St) : Prop :=
  o_noSign (opts (drv st)) = true /\ since T0 (none_of signing_call) (wld st).

(** [skipUninstall] is set and the application was not uninstalled since [T0]. *)
Definition kept (T0 : list Call) (st : St) : Prop :=
  o_skipUninstall (opts (drv st)) = true /\ since T0 (none_of uninstall_call) (wld st).

(** Since [T0] no call reached the device bridge. *)
Definition untouched (T0 : list Call) (st : St) : Prop :=
  adb (drv st) = false /\ since T0 (none_of is_bridge_call) (wld st).

(** Since [T0] the bridge was attached, and no call reached it before. *)
Definition attached_first (T0 : list Call) (w : World) : Prop :=
  exists t1 t2, trace w = T0 ++ t1 ++ CreateADB :: t2 /\ none_of is_bridge_call t1.

(** The bridge is never used before it is attached. *)
Definition bridge_order (T0 : list Call) (w : World) : Prop :=
  since T0 (none_of is_bridge_call) w \/ attached_first T0 w.

(** The application file is given and, since [T0], the bridge is untouched. *)
Definition app_pending (T0 : list Call) (st : St) : Prop :=
  adb (drv st) = false /\
  truthy_s (o_app (opts (drv st))) = true /\
  since T0 (none_of is_bridge_call) (wld st).

(** The calls that only a start on a supported device makes. *)
Definition provisioning_call (c : Call) : bool :=
  match c with
  | AdbForwardPort _ _ | InstallServerApk | InstallApk | Uia2StartSession => true
  | _ => false
  end.

Definition unprovisioned (T0 : list Call) (st : St) : Prop :=
  since T0 (none_of provisioning_call) (wld st).

Definition unsupported_api_error : Err :=
  ErrorAndThrow
    (String.append "UIAutomator2 is only supported since Android 5.0 (Lollipop). "
       "You could still use other supported backends in order to automate older Android versions.").

(** The file system has no application file. *)
Definition no_app_file_env : Env :=
  {| rejects := fun _ _ => false;
     answers := fun _ c => match c with FsExists _ => false | _ => true end;
     apiLevel := fun _ => 30;
     listening := fun _ _ => false;
     isChromeBrowser := fun _ => false;
     getChromePkg := fun _ => ("com.android.chrome", "com.google.android.apps.chrome.Main");
     configuredApp := fun _ a => a;
     deviceUdid := fun _ => "emulator-5554";
     launchInfo := fun _ => None;
     newSessionId := fun _ => "4f2a" |}.

(** A device with API level 19. *)
Definition kitkat_env : Env :=
  {| rejects := fun _ _ => false;
     answers := fun _ _ => true;
     apiLevel := fun _ => 19;
     listening := fun _ _ => false;
     isChromeBrowser := fun _ => false;
     getChromePkg := fun _ => ("com.android.chrome", "com.google.android.apps.chrome.Main");
     configuredApp := fun _ a => a;
     deviceUdid := fun _ => "emulator-5554";
     launchInfo := fun _ => None;
     newSessionId := fun _ => "4f2a" |}.

Definition app_opts : Opts :=
  mkOpts (Some "/tmp/app.apk") None None None false None None None None None None false
         false false false false false false None false false false false None None None
         false None None None false.

(** Stages of a successful start. *)
Definition identified (sid : string) (st : St) : Prop :=
  sessionId (drv st) = Some sid.

Definition bridged (sid : string) (st : St) : Prop :=
  sessionId (drv st) = Some sid /\ adb (drv st) = true.

Definition port_held (sid : string) (st : St) : Prop :=
  sessionId (drv st) = Some sid /\ adb (drv st) = true /\
  truthy_z (systemPort (drv st)) = true.

Definition server_known (sid : string) (st : St) : Prop :=
  sessionId (drv st) = Some sid /\ adb (drv st) = true /\
  truthy_z (systemPort (drv st)) = true /\ uiautomator2 (drv st) = true.

(** The driver serves a session: what a normal return of
    [createSession] leaves. *)
Definition live (sid : string) (st : St) : Prop :=
  sessionId (drv st) = Some sid /\ adb (drv st) = true /\
  truthy_z (systemPort (drv st)) = true /\ uiautomator2 (drv st) = true /\
  jwpProxyActive (drv st) = true.

(** The driver no longer proxies to a device server. *)
Definition proxying_off (st : St) : Prop :=
  uiautomator2 (drv st) = false /\ jwpProxyActive (drv st) = false.

(** Calls that the keys [skipUnlock], [skipServerInstallation],
    [gpsEnabled] and [disableWindowAnimation] govern. *)
Definition unlock_call (c : Call) : bool :=
  match c with Unlock => true | _ => false end.

Definition server_install_call (c : Call) : bool :=
  match c with InstallServerApk | AdbAddToDeviceIdleWhitelist => true | _ => false end.

Definition gps_call (c : Call) : bool :=
  match c with IsEmulator | AdbToggleGPSLocationProvider _ => true | _ => false end.

Definition animation_call (c : Call) : bool :=
  match c with AdbIsAnimationOn | AdbSetAnimationState _ => true | _ => false end.

(** None of the [bad] calls was made since [T0]. *)
Definition avoided (bad : Call -> bool) (T0 : list Call) (st : St) : Prop :=
  since T0 (none_of bad) (wld st).

(** The key [key] of the options has the value [v], and none of the
    [bad] calls was made since [T0]. *)
Definition opted_out {A : Type} (key : Opts -> A) (v : A) (bad : Call -> bool)
    (T0 : list Call) (st : St) : Prop :=
  key (opts (drv st)) = v /\ since T0 (none_of bad) (wld st).

(** The driver did not switch the window animations off, and did not
    query or set them since [T0]. *)
Definition animation_untouched (T0 : list Call) (st : St) : Prop :=
  _wasWindowAnimationDisabled (drv st) = false /\
  since T0 (none_of animation_call) (wld st).

Definition animation_kept (T0 : list Call) (st : St) : Prop :=
  o_disableWindowAnimation (opts (drv st)) = false /\
  _wasWindowAnimationDisabled (drv st) = false /\
  since T0 (none_of animation_call) (wld st).

(** A bundle with [skipServerInstallation] and [skipUnlock] set. *)
Definition opt_out_opts : Opts :=
  mkOpts None None None None false None None None None None None false false
         false false false false false None false false true true None None None
         false None None None false.

(** The options are the caller's bundle [o]. *)
Definition opts_from (o : Opts) (st : St) : Prop := opts (drv st) = o.

(** The four defaulted keys hold the caller's value, or the default where
    the caller gave none. *)
Definition defaulted (o : Opts) (st : St) : Prop :=
  o_adbPort (opts (drv st)) = or_default (o_adbPort o) DEFAULT_ADB_PORT /\
  o_fullReset (opts (drv st)) = or_default (o_fullReset o) false /\
  o_autoLaunch (opts (drv st)) = or_default (o_autoLaunch o) true /\
  o_androidInstallTimeout (opts (drv st)) = or_default (o_androidInstallTimeout o) 90000.

(** As [defaulted], after [adbPort || DEFAULT_ADB_PORT]. *)
Definition defaults_in_effect (o : Opts) (st : St) : Prop :=
  o_adbPort (opts (drv st)) = Some (or_z (o_adbPort o) DEFAULT_ADB_PORT) /\
  o_fullReset (opts (drv st)) = or_default (o_fullReset o) false /\
  o_autoLaunch (opts (drv st)) = or_default (o_autoLaunch o) true /\
  o_androidInstallTimeout (opts (drv st)) = or_default (o_androidInstallTimeout o) 90000.

(** What [deleteSession] does after [adb.stopLogcat]. *)
Definition after_logcat_call (c : Call) : bool :=
  match c with
  | GuardAcquire | GuardRelease | AdbRemovePortForward _ | AdbGetApiLevel
  | AdbSetDefaultHiddenApiPolicy _ | AdbKillEmulator | MjpegStreamStop
  | BaseDeleteSession => true
  | _ => false
  end.

(** The bridge is attached; the forward table is [F0] and the session id
    [S0]; nothing that follows [adb.stopLogcat] was done since [T0]. *)
Definition before_logcat (F0 : list (Z * Z)) (S0 : option string) (T0 : list Call)
    (st : St) : Prop :=
  adb (drv st) = true /\ forwards (wld st) = F0 /\ sessionId (drv st) = S0 /\
  since T0 (none_of after_logcat_call) (wld st).

Section Rules.

Context {A B : Type}.
Variable env : Env.

Lemma hoare_weaken (P P' : St -> Prop) (m : M A) (Q Q' : Res A -> St -> Prop) :
  hoare P' m Q' ->
  (forall st, P st -> P' st) ->
  (forall r st, Q' r st -> Q r st) ->
  hoare P m Q.
Proof. unfold hoare; auto. Qed.

Lemma hoare_ret (P : St -> Prop) (a : A) (Q : Res A -> St -> Prop) :
  (forall st, P st -> Q (Ok a) st) -> hoare P (ret a) Q.
Proof. unfold hoare, ret; simpl; auto. Qed.

Lemma hoare_throw (P : St -> Prop) (e : Err) (Q : Res A -> St -> Prop) :
  (forall st, P st -> Q (Throw e) st) -> hoare P (throw e) Q.
Proof. unfold hoare, throw; simpl; auto. Qed.

Lemma hoare_bind (P : St -> Prop) (R : A -> St -> Prop) (m : M A) (k : A -> M B)
    (Q : Res B -> St -> Prop) :
  hoare P m (fun r st => match r with Ok a => R a st | Throw e => Q (Throw e) st end) ->
  (forall a, hoare (R a) (k a) Q) ->
  hoare P (bind m k) Q.
Proof.
  unfold hoare, bind. intros Hm Hk st HP.
  specialize (Hm st HP). destruct (m st) as [[a | e] st']; simpl in *.
  - apply Hk, Hm.
  - exact Hm.
Qed.

Lemma hoare_bind_passes (I : St -> Prop) (E : Err -> Prop) (m : M A) (k : A -> M B)
    (Q : Res B -> St -> Prop) :
  passes I E m ->
  (forall e st, I st -> E e -> Q (Throw e) st) ->
  (forall a, hoare I (k a) Q) ->
  hoare I (bind m k) Q.
Proof.
  intros Hm HE Hk. apply hoare_bind with (R := fun _ => I); [| exact Hk].
  intros st HI. destruct (Hm st HI) as [HI' Hr].
  destruct (fst (m st)); simpl in *; auto.
Qed.

(** When the first part always throws, the rest is never run. *)
Lemma hoare_bind_throws (P : St -> Prop) (m : M A) (k : A -> M B)
    (Q : Res B -> St -> Prop) :
  hoare P m (fun r st => match r with Ok _ => False | Throw e => Q (Throw e) st end) ->
  hoare P (bind m k) Q.
Proof.
  intros Hm. apply hoare_bind with (R := fun _ _ => False); [exact Hm |].
  intros a st [].
Qed.

Lemma hoare_try_catch (P : St -> Prop) (R : Err -> St -> Prop) (m : M A) (h : Err -> M A)
    (Q : Res A -> St -> Prop) :
  hoare P m (fun r st => match r with Ok a => Q (Ok a) st | Throw e => R e st end) ->
  (forall e, hoare (R e) (h e) Q) ->
  hoare P (try_catch m h) Q.
Proof.
  unfold hoare, try_catch. intros Hm Hh st HP.
  specialize (Hm st HP). destruct (m st) as [[a | e] st']; simpl in *.
  - exact Hm.
  - apply Hh, Hm.
Qed.

Lemma hoare_this (P : St -> Prop) (k : Driver -> M B) (Q : Res B -> St -> Prop) :
  (forall d, hoare (fun st => P st /\ drv st = d) (k d) Q) ->
  hoare P (bind this k) Q.
Proof.
  unfold hoare, bind, this. intros Hk st HP. apply (Hk (drv st)). auto.
Qed.

Lemma hoare_world (P : St -> Prop) (k : World -> M B) (Q : Res B -> St -> Prop) :
  (forall w, hoare (fun st => P st /\ wld st = w) (k w) Q) ->
  hoare P (bind world k) Q.
Proof.
  unfold hoare, bind, world. intros Hk st HP. apply (Hk (wld st)). auto.
Qed.

Lemma hoare_of_passes (I : St -> Prop) (E : Err -> Prop) (m : M A)
    (Q : Res A -> St -> Prop) :
  passes I E m ->
  (forall r st, I st -> raises E r -> Q r st) ->
  hoare I m Q.
Proof.
  intros Hm HQ st HI. destruct (Hm st HI). auto.
Qed.

(** *** Rules for [passes] *)

Lemma passes_weaken (I : St -> Prop) (E E' : Err -> Prop) (m : M A) :
  passes I E' m -> (forall e, E' e -> E e) -> passes I E m.
Proof.
  intros Hm HE st HI. destruct (Hm st HI) as [HI' Hr]. split; [exact HI' |].
  destruct (fst (m st)); simpl in *; auto.
Qed.

Lemma passes_ret (I : St -> Prop) (E : Err -> Prop) (a : A) : passes I E (ret a).
Proof. intros st HI. simpl. auto. Qed.

Lemma passes_throw (I : St -> Prop) (E : Err -> Prop) (e : Err) :
  E e -> passes I E (@throw A e).
Proof. intros He st HI. simpl. auto. Qed.

Lemma passes_bind (I : St -> Prop) (E : Err -> Prop) (m : M A) (k : A -> M B) :
  passes I E m -> (forall a, passes I E (k a)) -> passes I E (bind m k).
Proof.
  intros Hm Hk. apply hoare_bind with (R := fun _ => I); [| exact Hk].
  intros st HI. destruct (Hm st HI) as [HI' Hr].
  destruct (fst (m st)); simpl in *; auto.
Qed.

(** The driver read by [this] satisfies whatever the invariant says
    about the driver. *)
Lemma passes_this (I : St -> Prop) (E : Err -> Prop) (k : Driver -> M B) :
  (forall d, (exists w, I (mkSt d w)) -> passes I E (k d)) ->
  passes I E (bind this k).
Proof.
  intros Hk st HI. unfold bind, this.
  apply (Hk (drv st)); [| exact HI]. exists (wld st). destruct st; exact HI.
Qed.

Lemma passes_world (I : St -> Prop) (E : Err -> Prop) (k : World -> M B) :
  (forall w, passes I E (k w)) -> passes I E (bind world k).
Proof. intros Hk st HI. unfold bind, world. apply (Hk (wld st)), HI. Qed.

Lemma passes_try_catch (I : St -> Prop) (E : Err -> Prop) (m : M A) (h : Err -> M A) :
  passes I (fun _ => True) m -> (forall e, passes I E (h e)) -> passes I E (try_catch m h).
Proof.
  intros Hm Hh. apply hoare_try_catch with (R := fun _ => I); [| exact Hh].
  intros st HI. destruct (Hm st HI) as [HI' _].
  destruct (fst (m st)); simpl; auto.
Qed.

Lemma passes_finally (I : St -> Prop) (E : Err -> Prop) (m : M A) (f : St -> St) :
  passes I E m -> (forall st, I st -> I (f st)) -> passes I E (finally m f).
Proof.
  intros Hm Hf st HI. unfold finally. destruct (Hm st HI) as [HI' Hr].
  destruct (m st) as [r st']; simpl in *. auto.
Qed.

End Rules.

Section RulesUnit.

Variable env : Env.

Lemma passes_update (I : St -> Prop) (E : Err -> Prop) (f : Driver -> Driver) :
  stable_drv I f -> passes I E (update f).
Proof. intros Hf st HI. simpl. split; [apply Hf, HI | exact Logic.I]. Qed.

Lemma passes_on_world (I : St -> Prop) (E : Err -> Prop) (f : World -> World) :
  stable_wld I f -> passes I E (on_world f).
Proof. intros Hf st HI. simpl. split; [apply Hf, HI | exact Logic.I]. Qed.

Lemma passes_call (I : St -> Prop) (E : Err -> Prop) (c : Call) :
  stable_wld I (record c) ->
  (forall st, I st -> rejects env (wld st) c = true -> E (Rejected c)) ->
  passes I E (call env c).
Proof.
  intros Hs Hr st HI. unfold call.
  destruct (rejects env (wld st) c) eqn:Hrej; simpl; split;
    solve [apply Hs, HI | exact Logic.I | eapply Hr; eauto].
Qed.

End RulesUnit.

Lemma hoare_this_inv {B : Type} (I : St -> Prop) (k : Driver -> M B)
    (Q : Res B -> St -> Prop) :
  (forall d, (exists w, I (mkSt d w)) -> hoare I (k d) Q) ->
  hoare I (bind this k) Q.
Proof.
  intros Hk st HI. unfold bind, this.
  apply (Hk (drv st)); [| exact HI]. exists (wld st). destruct st; exact HI.
Qed.

Lemma hoare_world_inv {B : Type} (I : St -> Prop) (k : World -> M B)
    (Q : Res B -> St -> Prop) :
  (forall w, hoare I (k w) Q) -> hoare I (bind world k) Q.
Proof. intros Hk st HI. unfold bind, world. apply (Hk (wld st)), HI. Qed.

Lemma hoare_or {A : Type} (P1 P2 : St -> Prop) (m : M A) (Q : Res A -> St -> Prop) :
  hoare P1 m Q -> hoare P2 m Q -> hoare (fun st => P1 st \/ P2 st) m Q.
Proof. intros H1 H2 st [H | H]; [apply H1 | apply H2]; exact H. Qed.

Lemma passes_bind_ret {A B : Type} (I : St -> Prop) (E : Err -> Prop) (a : A)
    (k : A -> M B) :
  passes I E (k a) -> passes I E (bind (ret a) k).
Proof. intros Hk st HI. exact (Hk st HI). Qed.

Lemma passes_try_catch_from {A : Type} (I : St -> Prop) (E E' : Err -> Prop)
    (m : M A) (h : Err -> M A) :
  passes I E' m -> (forall e, E' e -> passes I E (h e)) -> passes I E (try_catch m h).
Proof.
  intros Hm Hh. apply hoare_try_catch with (R := fun e st => I st /\ E' e).
  - intros st HI. destruct (Hm st HI) as [HI' Hr].
    destruct (fst (m st)); simpl in *; auto.
  - intros e st [HI He]. exact (Hh e He st HI).
Qed.

(** The retry loop throws only what the retried function throws. *)
Lemma retryInterval_loop_raises {A : Type} (I : St -> Prop) (E : Err -> Prop) (fn : M A)
    (times : Q) (sleepMs : Z) :
  passes I E fn ->
  stable_wld I (record (Sleep sleepMs)) ->
  forall fuel tries count,
    passes I E (retryInterval_loop fuel times sleepMs tries count fn).
Proof.
  intros Hfn Hsleep.
  assert (Hwrapped : forall count : Z,
            passes I E
              (bind (try_catch fn
                       (fun e => bind (when (negb (Qeq_bool (inject_Z count) times))
                                         (note (Sleep sleepMs)))
                                   (fun _ => throw e)))
                    (fun a => ret (Some a)))).
  { intros count. apply passes_bind; [| intros a; apply passes_ret].
    apply passes_try_catch_from with (E' := E); [exact Hfn |].
    intros e He. apply passes_bind; [| intros _; apply passes_throw; exact He].
    unfold when, note. destruct (negb _); [apply passes_on_world; exact Hsleep | apply passes_ret]. }
  induction fuel as [| fuel IH]; intros tries count; simpl;
    (destruct (negb (Qle_bool times (inject_Z tries))); [| apply passes_ret]);
    (apply passes_try_catch_from with (E' := E); [apply Hwrapped |]);
    intros e He; destruct (Qle_bool times (inject_Z (tries + 1)));
    solve [apply passes_throw; exact He | apply IH].
Qed.

(** *** Automation

    [pass] walks a method along its binds, conditionals and handlers and
    leaves the side conditions: stability of the invariant under each
    update, and membership in the error class of each thrown error.
    [snapshot] turns what the invariant says about the driver read by
    [this] into rewrites. *)

Ltac snapshot H :=
  let w := fresh "w" in
  destruct H as [w H]; try red in H; simpl in H;
  repeat match type of H with
         | _ /\ _ => let H1 := fresh "Hs" in destruct H as [H1 H]
         end;
  repeat match goal with
         | Hs : ?f ?d = _ |- context [?f ?d] => rewrite Hs
         end.

Ltac pass_unfold :=
  unfold when, warn, note, query, adb_call, adb_query, adb_getApiLevel, checkPortStatus,
    try_warn, start, new_UiAutomator2Server, getDeviceDetails.

Ltac pass_step :=
  lazymatch goal with
  | |- passes _ _ (bind (ret _) _) => apply passes_bind_ret
  | |- passes _ _ (bind (if true then _ else _) _) => cbv iota
  | |- passes _ _ (bind (if false then _ else _) _) => cbv iota
  | |- passes _ _ (if true then _ else _) => cbv iota
  | |- passes _ _ (if false then _ else _) => cbv iota
  | |- passes _ _ (bind this _) =>
      apply passes_this;
      let d := fresh "d" in let H := fresh "Hsnap" in
      intros d H; snapshot H
  | |- passes _ _ (bind world _) => apply passes_world; intro
  | |- passes _ _ (bind _ _) => apply passes_bind; [| intro]
  | |- passes _ _ (ret _) => apply passes_ret
  | |- passes _ _ (throw _) => apply passes_throw
  | |- passes _ _ (try_catch _ _) => apply passes_try_catch; [| intro]
  | |- passes _ _ (finally _ _) => apply passes_finally
  | |- passes _ _ (update _) => apply passes_update
  | |- passes _ _ (on_world _) => apply passes_on_world
  | |- passes _ _ (call _ _) => apply passes_call
  | |- passes _ _ (if ?b then _ else _) => destruct b eqn:?
  | |- passes _ _ (match ?x with _ => _ end) => destruct x eqn:?
  | |- passes _ _ _ => progress pass_unfold
  end.

Ltac pass := repeat pass_step.

(** [walk errs throwside side] follows a method step by step while each
    step keeps the current invariant and throws only errors of [errs]; it stops
    at the first step that does not. *)
Ltac walk1 errs throwside side :=
  first
    [ apply hoare_this_inv;
      let d := fresh "d" in let H := fresh "Hsnap" in
      intros d H; snapshot H
    | apply hoare_world_inv; intro
    | apply hoare_bind_passes with (E := errs);
      [ pass; lazymatch goal with
              | |- passes _ _ _ => fail
              | |- _ => solve [side]
              end
      | throwside
      | intro ] ].

Ltac walk errs throwside side := repeat walk1 errs throwside side.

(** As [walk], but stops in front of the step [stop]. *)
Ltac walk_to stop errs throwside side :=
  repeat (lazymatch goal with
          | |- hoare _ (bind ?m _) _ => tryif constr_eq m stop then fail else idtac
          | |- _ => idtac
          end;
          walk1 errs throwside side).

Ltac unfold_provision :=
  unfold startUiAutomator2Session, setAvdFromCapabilities, checkAppPresent,
    initUiAutomator2Server, initAUT, installApp, ensureAppStarts,
    allocateSystemPort, allocateMjpegServerPort, DEVICE_PORT_ALLOCATION_GUARD,
    scanAndForward, forwardPort, findAPortNotInUse, adb_forwardPort, DEVICE_PORT_RANGE,
    retryInterval.

Ltac unfold_teardown :=
  unfold deleteSession, deleteSession_adb, screenRecordingStopTasks, run_all,
    releaseSystemPort, releaseMjpegServerPort, DEVICE_PORT_ALLOCATION_GUARD,
    adb_removePortForward.

(** * Properties *)

(** ** Route tables and proxying *)

Lemma Method_eqb_eq (a b : Method) : Method_eqb a b = true <-> a = b.
Proof. destruct a, b; simpl; split; intro H; try reflexivity; discriminate H. Qed.

Lemma matches_iff (r : RouteMatcher) (method : Method) (path : string) :
  matches r method path = true <-> fst r = method /\ test (snd r) path = true.
Proof.
  unfold matches. rewrite andb_true_iff, Method_eqb_eq. tauto.
Qed.

Lemma getProxyAvoidList_eq (d : Driver) :
  fst (getProxyAvoidList d) =
    (if chromedriver d then CHROME_NO_PROXY else NO_PROXY) ++
    (if o_nativeWebScreenshot (opts d) then [SCREENSHOT_RULE] else []).
Proof.
  unfold getProxyAvoidList.
  destruct (chromedriver d); simpl; destruct (o_nativeWebScreenshot (opts d)); simpl;
    try reflexivity; symmetry; apply app_nil_r.
Qed.

Lemma getProxyAvoidList_stored (d : Driver) :
  jwpProxyAvoid (snd (getProxyAvoidList d)) = fst (getProxyAvoidList d).
Proof.
  unfold getProxyAvoidList.
  destruct (chromedriver d); simpl; destruct (o_nativeWebScreenshot (opts d)); reflexivity.
Qed.

(** C7.  The list a request is matched against is the Chrome table
    exactly when a chromedriver is active and the native table otherwise
    (followed by the screenshot rule when [nativeWebScreenshot] is set),
    and the two tables differ; a request is handled locally exactly when
    its method and path match some rule of that list, and is proxied to
    the device server in every other case. *)
Theorem route_matcher_table_and_decision :
  forall (d : Driver) (method : Method) (path : string),
    let avoid := fst (getProxyAvoidList d) in
    let extension := if o_nativeWebScreenshot (opts d) then [SCREENSHOT_RULE] else [] in
    avoid = (if chromedriver d then CHROME_NO_PROXY else NO_PROXY) ++ extension /\
    CHROME_NO_PROXY <> NO_PROXY /\
    (fst (routeRequest d method path) = HandleLocally <->
       exists r, In r avoid /\ fst r = method /\ test (snd r) path = true) /\
    (fst (routeRequest d method path) = ProxyToDevice <->
       ~ exists r, In r avoid /\ fst r = method /\ test (snd r) path = true).
Proof.
  intros d method path avoid extension.
  assert (Hd : fst (routeRequest d method path) =
               if existsb (fun r => matches r method path) avoid
               then HandleLocally else ProxyToDevice).
  { unfold routeRequest, avoid. destruct (getProxyAvoidList d); reflexivity. }
  assert (Hex : existsb (fun r => matches r method path) avoid = true <->
                exists r, In r avoid /\ fst r = method /\ test (snd r) path = true).
  { rewrite existsb_exists. split; intros [r [Hin Hm]]; exists r; split; auto;
      apply matches_iff; exact Hm. }
  split; [apply getProxyAvoidList_eq |].
  split; [discriminate |].
  split; split.
  - intros H. apply Hex. rewrite Hd in H.
    destruct (existsb _ _); [reflexivity | discriminate H].
  - intros H. apply Hex in H. rewrite Hd, H. reflexivity.
  - intros H Hr. apply Hex in Hr. rewrite Hd, Hr in H. discriminate H.
  - intros H. rewrite Hd. destruct (existsb _ _) eqn:He; [| reflexivity].
    exfalso. apply H, Hex. reflexivity.
Qed.

(** Requests against the two tables. *)
Example native_contexts_is_local :
  fst (routeRequest (constructor bare_opts) GET "/session/4f2a/contexts") = HandleLocally.
Proof. vm_compute. reflexivity. Qed.

Example native_element_text_is_proxied :
  fst (routeRequest (constructor bare_opts) GET "/session/4f2a/element/7/text")
  = ProxyToDevice.
Proof. vm_compute. reflexivity. Qed.

Example chrome_screenshot_is_proxied :
  fst (routeRequest (set_chromedriver true (constructor bare_opts))
         GET "/session/4f2a/screenshot") = ProxyToDevice.
Proof. vm_compute. reflexivity. Qed.

Example chrome_screenshot_is_local_with_capability :
  fst (routeRequest
         (set_chromedriver true (constructor (set_o_nativeWebScreenshot true bare_opts)))
         GET "/session/4f2a/screenshot") = HandleLocally.
Proof. vm_compute. reflexivity. Qed.



(** C10.  [proxyActive] and [canProxy] answer [true] for every driver
    state and session id: also for the state the constructor leaves, whose
    [jwpProxyActive] flag is still false, and for a state whose flag has
    been cleared again. *)
Theorem proxyActive_canProxy_unconditional :
  forall (d : Driver) (o : Opts) (sessionId : string),
    proxyActive d sessionId = true /\ canProxy d sessionId = true /\
    jwpProxyActive (constructor o) = false /\
    proxyActive (constructor o) sessionId = true /\
    canProxy (constructor o) sessionId = true /\
    jwpProxyActive (set_jwpProxyActive false d) = false /\
    proxyActive (set_jwpProxyActive false d) sessionId = true /\
    canProxy (set_jwpProxyActive false d) sessionId = true.
Proof. intros d o sessionId. repeat split. Qed.

(** ** Port allocation *)

Lemma scan_spec (env : Env) (w : World) (n : nat) :
  forall start,
    match scan env w start n with
    | Some p =>
        start <= p < start + Z.of_nat n /\ listening env w p = false /\
        (forall q, start <= q < p -> listening env w q = true)
    | None => forall q, start <= q < start + Z.of_nat n -> listening env w q = true
    end.
Proof.
  induction n as [| n IH]; intros start; simpl scan.
  - intros q Hq. lia.
  - destruct (listening env w start) eqn:Hl.
    + specialize (IH (start + 1)). destruct (scan env w (start + 1) n) as [p |].
      * destruct IH as [Hr [Hp Hq]]. split; [lia |]. split; [exact Hp |].
        intros q Hq'. destruct (Z.eq_dec q start) as [-> | Hne]; [exact Hl |].
        apply Hq. lia.
      * intros q Hq. destruct (Z.eq_dec q start) as [-> | Hne]; [exact Hl |].
        apply IH. lia.
    + split; [lia |]. split; [exact Hl |]. intros q Hq. lia.
Qed.



Lemma forwardPort_ok_forwards (env : Env) (p : Z) (st : St) :
  fst (forwardPort env p st) = Ok tt ->
  In (p, DEVICE_PORT) (forwards (wld (snd (forwardPort env p st)))).
Proof.
  unfold forwardPort, checkPortStatus, adb_forwardPort, adb_call, call, when,
    bind, this, world, note, on_world, ret, throw. simpl.
  destruct (listening env (wld st) p); simpl; [discriminate |].
  destruct (adb (drv st)); simpl; [| discriminate].
  destruct (rejects env _ _); simpl; [discriminate |].
  intros _. left. reflexivity.
Qed.

Lemma forwardPort_systemPort (env : Env) (p : Z) (st : St) :
  drv (snd (forwardPort env p st)) = drv st.
Proof.
  unfold forwardPort, checkPortStatus, adb_forwardPort, adb_call, call, when,
    bind, this, world, note, on_world, ret, throw. simpl.
  destruct (listening env (wld st) p); simpl; [reflexivity |].
  destruct (adb (drv st)); simpl; [| reflexivity].
  destruct (rejects env _ _); reflexivity.
Qed.

Lemma scanAndForward_run (env : Env) (st : St) :
  scanAndForward env st =
    match scan env (wld st) 8200 100 with
    | Some p =>
        forwardPort env p (mkSt (set_systemPort (Some p) (drv st))
                             (record (FindAPortNotInUse 8200 8299) (wld st)))
    | None =>
        (Throw (ErrorAndThrow (range_exhausted_message 8200 8299)),
         mkSt (drv st) (record (FindAPortNotInUse 8200 8299) (wld st)))
    end.
Proof.
  unfold scanAndForward, DEVICE_PORT_RANGE, findAPortNotInUse.
  change (Z.to_nat (8299 - 8200 + 1)) with 100%nat.
  unfold try_catch, bind, world, note, on_world, update, ret, throw.
  cbv beta iota zeta. cbn [drv wld].
  destruct (scan env (wld st) 8200 100) as [p |]; reflexivity.
Qed.

(** C5.  Without a usable [this.systemPort], and once the guard is
    held, [allocateSystemPort] scans 8200..8299.  If the scan finds a port,
    it is the first port of the range that nothing listens on,
    [this.systemPort] becomes that port, the rest of the call is the forward
    of the device port to it (run under the guard), and a normal return
    leaves that forward in the bridge's table.  If every port of the range
    is taken, the call throws the range-exhausted error and the forward
    table is unchanged. *)
Theorem allocateSystemPort_scans_range :
  forall (env : Env) (st : St),
    truthy_z (systemPort (drv st)) = false ->
    rejects env (wld st) GuardAcquire = false ->
    let w1 := record GuardAcquire (wld st) in
    let w2 := record (FindAPortNotInUse 8200 8299) w1 in
    let out := allocateSystemPort env st in
    match scan env w1 8200 100 with
    | Some p =>
        8200 <= p <= 8299 /\
        listening env w1 p = false /\
        (forall q, 8200 <= q < p -> listening env w1 q = true) /\
        systemPort (drv (snd out)) = Some p /\
        out = (let (r, st') := forwardPort env p (mkSt (set_systemPort (Some p) (drv st)) w2) in
               (r, mkSt (drv st') (record GuardRelease (wld st')))) /\
        (fst out = Ok tt -> In (p, DEVICE_PORT) (forwards (wld (snd out))))
    | None =>
        (forall q, 8200 <= q <= 8299 -> listening env w1 q = true) /\
        fst out = Throw (ErrorAndThrow (range_exhausted_message 8200 8299)) /\
        forwards (wld (snd out)) = forwards (wld st) /\
        systemPort (drv (snd out)) = systemPort (drv st)
    end.
Proof.
  intros env st Hsp Hg w1 w2 out.
  assert (Hout : out = DEVICE_PORT_ALLOCATION_GUARD env (scanAndForward env) st).
  { unfold out, allocateSystemPort, bind, this. simpl.
    destruct (systemPort (drv st)) as [p |]; [| reflexivity].
    simpl in Hsp. rewrite Hsp. reflexivity. }
  assert (Hrun : out =
     match scan env w1 8200 100 with
     | Some p =>
         let (r, st') := forwardPort env p (mkSt (set_systemPort (Some p) (drv st)) w2) in
         (r, mkSt (drv st') (record GuardRelease (wld st')))
     | None =>
         (Throw (ErrorAndThrow (range_exhausted_message 8200 8299)),
          mkSt (drv st) (record GuardRelease w2))
     end).
  { rewrite Hout. unfold DEVICE_PORT_ALLOCATION_GUARD, finally, call, bind at 1.
    cbv beta iota zeta. rewrite Hg. cbv beta iota zeta. rewrite scanAndForward_run.
    cbn [drv wld]. fold w1 w2. destruct (scan env w1 8200 100) as [p |]; reflexivity. }
  pose proof (scan_spec env w1 100 8200) as Hscan.
  destruct (scan env w1 8200 100) as [p |].
  - destruct Hscan as [Hr [Hp Hq]].
    assert (Hd : drv (snd out) = set_systemPort (Some p) (drv st)).
    { rewrite Hrun.
      pose proof (forwardPort_systemPort env p (mkSt (set_systemPort (Some p) (drv st)) w2)) as Hf.
      destruct (forwardPort env p _) as [r st']. simpl in *. exact Hf. }
    split; [lia |]. split; [exact Hp |]. split; [exact Hq |].
    split; [rewrite Hd; reflexivity |]. split; [exact Hrun |].
    rewrite Hrun.
    pose proof (forwardPort_ok_forwards env p (mkSt (set_systemPort (Some p) (drv st)) w2)) as Hf.
    destruct (forwardPort env p _) as [r st']. simpl in *. exact Hf.
  - split; [intros q Hq; apply Hscan; lia |].
    rewrite Hrun. simpl. repeat split.
Qed.

Lemma allocateSystemPort_scans_range_fresh :
  fst (allocateSystemPort quiet_env attached) = Ok tt /\
  systemPort (drv (snd (allocateSystemPort quiet_env attached))) = Some 8200 /\
  In (8200, DEVICE_PORT) (forwards (wld (snd (allocateSystemPort quiet_env attached)))).
Proof.
  pose proof (allocateSystemPort_scans_range quiet_env attached eq_refl eq_refl) as H.
  cbv zeta in H. change (scan quiet_env (record GuardAcquire (wld attached)) 8200 100)
    with (Some 8200) in H.
  destruct H as (_ & _ & _ & Hs & _ & Hf).
  split; [reflexivity |]. split; [exact Hs |]. apply Hf. reflexivity.
Defined.

Lemma releaseSystemPort_drv (env : Env) (st : St) :
  drv (snd (releaseSystemPort env st)) = drv st.
Proof.
  unfold releaseSystemPort, DEVICE_PORT_ALLOCATION_GUARD, adb_removePortForward, adb_call,
    finally, call, bind, this, on_world, ret, throw. simpl.
  destruct (systemPort (drv st)) as [p |]; [| reflexivity].
  destruct (p =? 0); simpl; [reflexivity |].
  destruct (adb (drv st)) eqn:Ha; simpl; [| reflexivity].
  destruct (_hasSystemPortInCaps (drv st)); simpl; rewrite ?Ha; simpl.
  - destruct (rejects env _ _); reflexivity.
  - destruct (rejects env (wld st) GuardAcquire); simpl; [reflexivity |].
    rewrite Ha. simpl. destruct (rejects env _ _); reflexivity.
Qed.

Lemma releaseSystemPort_leased (env : Env) (st : St) (p : Z) :
  leased p (drv st) ->
  fst (releaseSystemPort env st) =
    if release_accepted env (wld st) (drv st) p then Ok tt
    else if _hasSystemPortInCaps (drv st) then Throw (Rejected (AdbRemovePortForward p))
    else if rejects env (wld st) GuardAcquire then Throw (Rejected GuardAcquire)
    else Throw (Rejected (AdbRemovePortForward p)).
Proof.
  intros (Hsp & Hp & Ha). apply Z.eqb_neq in Hp.
  unfold releaseSystemPort, release_accepted, DEVICE_PORT_ALLOCATION_GUARD,
    adb_removePortForward, adb_call, finally, call, bind, this, on_world, ret, throw. simpl.
  rewrite Hsp, Hp, Ha. simpl.
  destruct (_hasSystemPortInCaps (drv st)); simpl; rewrite ?Ha; simpl.
  - destruct (rejects env _ _); reflexivity.
  - destruct (rejects env (wld st) GuardAcquire); simpl; [reflexivity |].
    rewrite Ha. simpl. destruct (rejects env _ _); reflexivity.
Qed.

(** C3, counterexample.  With a bridge that rejects the removal of a
    forward it does not have, a port is acquired, the first release
    succeeds and the second release throws. *)
Lemma second_release_throws :
  let st1 := snd (allocateSystemPort strict_bridge_env attached) in
  let st2 := snd (releaseSystemPort strict_bridge_env st1) in
  fst (allocateSystemPort strict_bridge_env attached) = Ok tt /\
  leased 8200 (drv st1) /\
  fst (releaseSystemPort strict_bridge_env st1) = Ok tt /\
  fst (releaseSystemPort strict_bridge_env st2) = Throw (Rejected (AdbRemovePortForward 8200)).
Proof.
  cbv zeta. split; [reflexivity |]. split; [| split; reflexivity].
  split; [reflexivity |]. split; [discriminate | reflexivity].
Qed.

(** C3, as the code has it.  A release keeps the lease in the driver
    ([this.systemPort] is not cleared), so a second release asks the bridge
    again to remove the same forward; it returns normally exactly when the
    guard (for a scanned port) and the bridge accept that second request,
    and otherwise throws the rejection of the guard or of the bridge. *)
Theorem second_release_asks_bridge_again :
  forall (env : Env) (st : St) (p : Z),
    leased p (drv st) ->
    let st1 := snd (releaseSystemPort env st) in
    let r2 := fst (releaseSystemPort env st1) in
    drv st1 = drv st /\
    leased p (drv (snd (releaseSystemPort env st1))) /\
    (r2 = Ok tt <-> release_accepted env (wld st1) (drv st) p = true) /\
    (r2 = Ok tt \/ r2 = Throw (Rejected GuardAcquire) \/
     r2 = Throw (Rejected (AdbRemovePortForward p))).
Proof.
  intros env st p Hl st1 r2.
  assert (Hd : drv st1 = drv st) by apply releaseSystemPort_drv.
  assert (Hl1 : leased p (drv st1)) by (rewrite Hd; exact Hl).
  split; [exact Hd |]. split.
  { rewrite releaseSystemPort_drv. exact Hl1. }
  unfold r2. rewrite (releaseSystemPort_leased env st1 p Hl1), Hd.
  destruct (release_accepted env (wld st1) (drv st) p).
  - split; [tauto | auto].
  - split.
    + split; intros H; [| discriminate H].
      destruct (_hasSystemPortInCaps (drv st)); [discriminate H |].
      destruct (rejects env (wld st1) GuardAcquire); discriminate H.
    + destruct (_hasSystemPortInCaps (drv st)); [auto |].
      destruct (rejects env (wld st1) GuardAcquire); auto.
Qed.

Lemma second_release_asks_bridge_again_strict :
  fst (releaseSystemPort strict_bridge_env
         (snd (releaseSystemPort strict_bridge_env
                 (snd (allocateSystemPort strict_bridge_env attached)))))
  <> Ok tt.
Proof.
  pose proof (second_release_asks_bridge_again strict_bridge_env
                (snd (allocateSystemPort strict_bridge_env attached)) 8200) as H.
  assert (Hl : leased 8200 (drv (snd (allocateSystemPort strict_bridge_env attached)))).
  { split; [reflexivity |]. split; [discriminate | reflexivity]. }
  specialize (H Hl). cbv zeta in H. destruct H as (_ & _ & Hiff & _).
  intros Hok. apply Hiff in Hok. vm_compute in Hok. discriminate Hok.
Defined.

(** ** Session end *)

Lemma subsequence_later (l t : list Call) (c : Call) :
  subsequence l t -> subsequence l (t ++ [c]).
Proof.
  induction 1; simpl.
  - apply subsequence_skip, subsequence_nil.
  - apply subsequence_skip. assumption.
  - apply subsequence_take. assumption.
Qed.

Lemma subsequence_next (l t : list Call) (c : Call) :
  subsequence l t -> subsequence (l ++ [c]) (t ++ [c]).
Proof.
  induction 1; simpl.
  - apply subsequence_take, subsequence_nil.
  - apply subsequence_skip. assumption.
  - apply subsequence_take. assumption.
Qed.

Section SubSteps.

Variable env : Env.
Variable T0 : list Call.
Variable d0 : Driver.

Hypothesis Hunw : forall w k, unwrapped_teardown_call k = true -> rejects env w k = false.

Lemma reached_record (L : list Call) (c : Call) (st : St) :
  reached T0 d0 L st -> reached T0 d0 L (mkSt (drv st) (record c (wld st))).
Proof.
  intros (H1 & H2 & H3 & H4 & H5 & H6 & H7 & t & Ht & Hs).
  repeat (split; [assumption |]). exists (t ++ [c]). split.
  - simpl. rewrite Ht. symmetry. apply app_assoc.
  - apply subsequence_later. exact Hs.
Qed.

Lemma reached_next (L : list Call) (c : Call) (st : St) :
  reached T0 d0 L st -> reached T0 d0 (L ++ [c]) (mkSt (drv st) (record c (wld st))).
Proof.
  intros (H1 & H2 & H3 & H4 & H5 & H6 & H7 & t & Ht & Hs).
  repeat (split; [assumption |]). exists (t ++ [c]). split.
  - simpl. rewrite Ht. symmetry. apply app_assoc.
  - apply subsequence_next. exact Hs.
Qed.

Ltac reached_side :=
  first [ exact Logic.I
        | discriminate
        | intros; exact Logic.I
        | intros ? H; exact H
        | intros ? H; apply reached_record; exact H
        | intros ? _ Hr; rewrite Hunw in Hr by reflexivity; discriminate Hr ].

(** A step that cannot throw and is followed by the rest. *)
Lemma hoare_bind_returned {A B : Type} (P : St -> Prop) (R : St -> Prop)
    (m : M A) (k : A -> M B) (Q : Res B -> St -> Prop) :
  hoare P m (returning R) ->
  (forall a, hoare R (k a) Q) ->
  hoare P (bind m k) Q.
Proof.
  intros Hm Hk. apply hoare_bind with (R := fun _ => R); [| exact Hk].
  intros st HP. specialize (Hm st HP). destruct (fst (m st)); [exact Hm | destruct Hm].
Qed.

Lemma step_kept {A : Type} (L : list Call) (m : M A) :
  passes (reached T0 d0 L) (fun _ => False) m ->
  hoare (reached T0 d0 L) m (returning (reached T0 d0 L)).
Proof.
  intros Hm st HP. destruct (Hm st HP) as [HI Hr].
  destruct (fst (m st)); [exact HI | destruct Hr].
Qed.

(** Whether the call resolves or rejects, it was made. *)
Lemma call_made (L : list Call) (c : Call) :
  hoare (reached T0 d0 L) (call env c) (fun _ st => reached T0 d0 (L ++ [c]) st).
Proof.
  intros st H. unfold call. destruct (rejects env (wld st) c); simpl;
    apply reached_next; exact H.
Qed.

Lemma call_reached (L : list Call) (c : Call) :
  unwrapped_teardown_call c = true ->
  hoare (reached T0 d0 L) (call env c) (returning (reached T0 d0 (L ++ [c]))).
Proof.
  intros Hc st H. unfold call. rewrite (Hunw _ _ Hc). simpl.
  apply reached_next; exact H.
Qed.

Lemma adb_call_made (L : list Call) (c : Call) :
  adb d0 = true ->
  hoare (reached T0 d0 L) (adb_call env c) (fun _ st => reached T0 d0 (L ++ [c]) st).
Proof.
  intros Ha st H. unfold adb_call, bind, this. simpl.
  rewrite (proj1 H), Ha. apply call_made. exact H.
Qed.

Lemma adb_call_reached (L : list Call) (c : Call) :
  adb d0 = true ->
  unwrapped_teardown_call c = true ->
  hoare (reached T0 d0 L) (adb_call env c) (returning (reached T0 d0 (L ++ [c]))).
Proof.
  intros Ha Hc st H. unfold adb_call, bind, this. simpl.
  rewrite (proj1 H), Ha. apply call_reached; assumption.
Qed.

(** A wrapped step whose first call is [c]: the call is made, and a
    failure of the step ends in a warning. *)
Lemma try_warn_reached (L l : list Call) (msg : string) (m : M unit) :
  hoare (reached T0 d0 L) m (fun _ st => reached T0 d0 (L ++ l) st) ->
  hoare (reached T0 d0 L) (try_warn msg m) (returning (reached T0 d0 (L ++ l))).
Proof.
  intros Hm. unfold try_warn.
  apply hoare_try_catch with (R := fun _ => reached T0 d0 (L ++ l)).
  - intros st H. specialize (Hm st H). destruct (fst (m st)); exact Hm.
  - intros e st H. exact H.
Qed.

Lemma when_reached (L l : list Call) (b : bool) (m : M unit) :
  (b = true -> hoare (reached T0 d0 L) m (returning (reached T0 d0 (L ++ l)))) ->
  hoare (reached T0 d0 L) (when b m) (returning (reached T0 d0 (L ++ if b then l else []))).
Proof.
  intros Hm. destruct b; simpl.
  - apply Hm. reflexivity.
  - rewrite app_nil_r. apply hoare_ret. intros st H. exact H.
Qed.

Lemma made_bind {A B : Type} (L L' : list Call) (m : M A) (k : A -> M B) :
  hoare (reached T0 d0 L) m (fun _ st => reached T0 d0 L' st) ->
  (forall a, hoare (reached T0 d0 L') (k a) (fun _ st => reached T0 d0 L' st)) ->
  hoare (reached T0 d0 L) (bind m k) (fun _ st => reached T0 d0 L' st).
Proof.
  intros Hm Hk. apply hoare_bind with (R := fun _ => reached T0 d0 L'); [| exact Hk].
  intros st H. specialize (Hm st H). destruct (fst (m st)); exact Hm.
Qed.

Lemma made_of_passes {A : Type} (L : list Call) (m : M A) :
  passes (reached T0 d0 L) (fun _ => True) m ->
  hoare (reached T0 d0 L) m (fun _ st => reached T0 d0 L st).
Proof. intros Hm st H. exact (proj1 (Hm st H)). Qed.

Ltac keep_step :=
  lazymatch goal with
  | |- hoare (reached ?T ?d ?L) (bind _ _) _ =>
      apply hoare_bind_returned with (R := reached T d L);
      [ apply step_kept; pass; reached_side | intro ]
  end.

(** The next segment of the plan is the one that follows what was reached. *)
Ltac next_step :=
  lazymatch goal with
  | |- hoare (reached ?T ?d ?L) (bind _ _) ?Q =>
      lazymatch Q with
      | context [L ++ ?l] =>
          apply hoare_bind_returned with (R := reached T d (L ++ l)); [ | intro ]
      end
  end.

Ltac read_this :=
  apply hoare_this_inv;
  let d := fresh "d" in let H := fresh "Hsnap" in
  intros d H; snapshot H.

Section BridgeSteps.

Hypothesis Hadb : adb d0 = true.
Hypothesis Hwf : o_reboot (opts d0) = true -> o_avd (opts d0) <> None.

Lemma releaseSystemPort_steps (L : list Call) (msg : string) :
  hoare (reached T0 d0 L) (try_warn msg (releaseSystemPort env))
    (returning (reached T0 d0 (L ++ release_first_call d0))).
Proof.
  apply try_warn_reached. unfold releaseSystemPort, release_first_call.
  read_this.
  destruct (systemPort d0) as [p |]; [| rewrite app_nil_r; apply hoare_ret; auto].
  cbn [negb orb]. rewrite orb_false_r.
  destruct (p =? 0); [rewrite app_nil_r; apply hoare_ret; auto |].
  destruct (_hasSystemPortInCaps d0).
  - unfold adb_removePortForward.
    apply made_bind; [apply adb_call_made, Hadb | intros _ st H; exact H].
  - unfold DEVICE_PORT_ALLOCATION_GUARD, adb_removePortForward.
    apply made_bind; [apply call_made | intros _].
    apply made_of_passes. pass; reached_side.
Qed.

Lemma releaseMjpegServerPort_steps (L : list Call) (msg : string) :
  hoare (reached T0 d0 L) (try_warn msg (releaseMjpegServerPort env))
    (returning (reached T0 d0 (L ++ mjpeg_release_call d0))).
Proof.
  apply try_warn_reached. unfold releaseMjpegServerPort, mjpeg_release_call.
  read_this.
  destruct (o_mjpegServerPort (opts d0)) as [p |]; [| rewrite app_nil_r; apply hoare_ret; auto].
  destruct (negb (p =? 0)); simpl; [| rewrite app_nil_r; apply hoare_ret; auto].
  unfold adb_removePortForward.
  apply made_bind; [apply adb_call_made, Hadb | intros _ st H; exact H].
Qed.

Lemma adb_getApiLevel_reached (L : list Call) :
  hoare (reached T0 d0 L) (adb_getApiLevel env)
    (returning (reached T0 d0 (L ++ [AdbGetApiLevel]))).
Proof.
  unfold adb_getApiLevel. apply hoare_world_inv; intros w0.
  apply hoare_bind_returned with (R := reached T0 d0 (L ++ [AdbGetApiLevel]));
    [apply adb_call_reached; [exact Hadb | reflexivity] | intros _].
  apply hoare_ret. intros st H. exact H.
Qed.

Lemma deleteSession_adb_steps (L : list Call) :
  hoare (reached T0 d0 L) (deleteSession_adb env)
    (returning (reached T0 d0 (L ++ bridge_steps env d0))).
Proof.
  unfold deleteSession_adb, screenRecordingStopTasks, run_all, bridge_steps,
    shouldForceStop, isChromeSession.
  rewrite !app_assoc.
  (* the three stop tasks *)
  next_step.
  { keep_step.
    next_step.
    { intros st H. simpl. apply reached_next. exact H. }
    keep_step. apply hoare_ret. intros st H. exact H. }
  read_this.
  (* coverage *)
  next_step.
  { apply when_reached. intros _. rewrite app_assoc.
    next_step; [apply adb_call_reached; [exact Hadb | reflexivity] |].
    destruct (truthy_s (c_androidCoverageEndIntent (caps d0))).
    - apply adb_call_reached; [exact Hadb | reflexivity].
    - rewrite app_nil_r. apply step_kept. pass; reached_side. }
  (* force stop and uninstall *)
  next_step.
  { apply when_reached. intros _. rewrite app_assoc.
    next_step.
    { apply when_reached. intros _. apply try_warn_reached, adb_call_made, Hadb. }
    apply when_reached. intros _. apply try_warn_reached, adb_call_made, Hadb. }
  (* window animations *)
  next_step.
  { apply when_reached. intros _. apply adb_call_reached; [exact Hadb | reflexivity]. }
  next_step; [apply adb_call_reached; [exact Hadb | reflexivity] |].
  next_step; [apply releaseSystemPort_steps |].
  next_step; [apply releaseMjpegServerPort_steps |].
  (* API level and hidden API policy *)
  next_step; [apply adb_getApiLevel_reached |].
  keep_step.
  (* the emulator *)
  apply when_reached. intros Hreboot.
  destruct (o_avd (opts d0)) eqn:Havd; [| destruct (Hwf Hreboot eq_refl)].
  apply try_warn_reached, adb_call_made, Hadb.
Qed.

End BridgeSteps.

Lemma deleteSession_steps :
  (adb d0 = true -> o_reboot (opts d0) = true -> o_avd (opts d0) <> None) ->
  hoare (fun st => drv st = d0 /\ trace (wld st) = T0) (deleteSession env)
    (fun r st =>
       (r = Ok tt \/ r = Throw (Rejected BaseDeleteSession)) /\
       exists t, trace (wld st) = T0 ++ t /\ subsequence (teardown_steps env d0) t).
Proof.
  intros Hwf. unfold deleteSession, teardown_steps. rewrite !app_assoc.
  apply hoare_bind_returned
    with (R := fun st => drv st = d0 /\
                         reached T0 d0 [RemoveAllSessionWebSocketHandlers] st).
  { intros st [Hd Ht]. unfold call. rewrite Hunw by reflexivity. simpl.
    split; [exact Hd |]. rewrite Hd. repeat (split; [reflexivity |]).
    exists [RemoveAllSessionWebSocketHandlers].
    split; [unfold record; simpl; rewrite Ht; reflexivity |].
    apply subsequence_take, subsequence_nil. }
  intros _. apply hoare_this. intros d st [[Hd Hr] Hd'].
  assert (d = d0) as -> by (rewrite <- Hd, Hd'; reflexivity). clear Hd Hd'.
  revert st Hr.
  change (hoare (reached T0 d0 [RemoveAllSessionWebSocketHandlers])
    (when (uiautomator2 d0)
       (try_warn "Unable to stop ChromeDriver proxies: " (call env StopChromedriverProxies);;
        d <- this;;
        when (jwpProxyActive d)
          (try_warn "Unable to proxy deleteSession to UiAutomator2: "
             (call env Uia2DeleteSession));;
        update (set_uiautomator2 false));;
     update (set_jwpProxyActive false);;
     d <- this;;
     when (adb d) (deleteSession_adb env);;
     d <- this;;
     when (mjpegStream d) (call env MjpegStreamStop);;
     call env BaseDeleteSession;; update (set_sessionId None))
    (fun r st =>
       (r = Ok tt \/ r = Throw (Rejected BaseDeleteSession)) /\
       exists t, trace (wld st) = T0 ++ t /\
         subsequence
           (((([RemoveAllSessionWebSocketHandlers] ++
               (if uiautomator2 d0 then [StopChromedriverProxies] else [])) ++
              (if adb d0 then bridge_steps env d0 else [])) ++
             (if mjpegStream d0 then [MjpegStreamStop] else [])) ++
            [BaseDeleteSession]) t)).
  (* the device server *)
  next_step.
  { apply when_reached. intros _.
    apply hoare_bind_returned
      with (R := reached T0 d0 ([RemoveAllSessionWebSocketHandlers] ++
                                [StopChromedriverProxies]));
      [apply try_warn_reached, call_made | intros _].
    read_this. keep_step. apply step_kept. pass; reached_side. }
  keep_step.
  (* the bridge *)
  read_this.
  next_step.
  { apply when_reached. intros Ha. apply deleteSession_adb_steps; [exact Ha | exact (Hwf Ha)]. }
  (* the MJPEG stream and the base driver *)
  read_this.
  next_step.
  { apply when_reached. intros _. apply call_reached. reflexivity. }
  intros st H. unfold bind, call, update.
  pose proof (reached_next _ BaseDeleteSession st H) as (_ & _ & _ & _ & _ & _ & _ & Hex).
  destruct (rejects env (wld st) BaseDeleteSession); simpl; (split; [auto | exact Hex]).
Qed.

End SubSteps.




(** The teardown of the witness: three wrapped sub-steps fail, each
    leaves a warning, and every later sub-step runs. *)
Example wrapped_failures_leave_warnings :
  let st := snd (createSession wrapped_steps_fail_env bare_opts emptyCaps fresh) in
  let out := deleteSession wrapped_steps_fail_env st in
  fst out = Ok tt /\
  skipn (List.length (trace (wld st))) (trace (wld (snd out))) =
    [RemoveAllSessionWebSocketHandlers; StopChromedriverProxies; Uia2DeleteSession;
     MobileIsMediaProjectionRecordingRunning; AdbStopLogcat; GuardAcquire;
     AdbRemovePortForward 8200; GuardRelease; AdbGetApiLevel;
     AdbSetDefaultHiddenApiPolicy false; BaseDeleteSession] /\
  List.map fst (warns (wld (snd out))) =
    ["Unable to stop ChromeDriver proxies: ";
     "Unable to proxy deleteSession to UiAutomator2: ";
     "Unable to remove system port forward: "] /\
  detached (wld (snd out)) = [MobileIsMediaProjectionRecordingRunning].
Proof. vm_compute. repeat split. Qed.

(** ** A failed session start *)

Lemma extends_refl (w : World) : extends w w.
Proof. exists []. symmetry. apply app_nil_r. Qed.

Lemma extends_record (w0 w : World) (c : Call) : extends w0 w -> extends w0 (record c w).
Proof.
  intros [t Ht]. exists (t ++ [c]). simpl. rewrite Ht. symmetry. apply app_assoc.
Qed.

Lemma filter_not_in (p dp : Z) (F : list (Z * Z)) :
  ~ In (p, dp) (filter (fun f => negb (fst f =? p)) F).
Proof.
  intros H. apply filter_In in H. destruct H as [_ H]. simpl in H.
  rewrite Z.eqb_refl in H. discriminate H.
Qed.

Lemma unforwarded_remove (p l : Z) (st : St) :
  unforwarded p st -> unforwarded p (mkSt (drv st) (remove_forward l (wld st))).
Proof.
  intros H dp Hin. simpl in Hin. apply filter_In in Hin. exact (H dp (proj1 Hin)).
Qed.

Ltac holding_side :=
  first [ exact Logic.I
        | intros; exact Logic.I
        | intros ? (? & ? & ?); simpl; repeat split;
          solve [assumption | apply extends_record; assumption] ].

Ltac unforwarded_side :=
  first [ exact Logic.I
        | intros; exact Logic.I
        | intros ? ?; apply unforwarded_remove; assumption
        | intros ? H; exact H ].

Section Release.

Variable env : Env.
Variable p : Z.
Variable w0 : World.
Hypothesis Hp : p <> 0.
Hypothesis Hrej :
  forall w k, extends w0 w ->
              before_release_call k || release_call p k = true ->
              rejects env w k = false.

Lemma release_call_self : release_call p (AdbRemovePortForward p) = true.
Proof. simpl. apply Z.eqb_refl. Qed.

Lemma release_unforwards (msg : string) :
  hoare (holding p w0) (try_warn msg (releaseSystemPort env))
    (fun _ st => unforwarded p st).
Proof.
  intros st (Ha & Hsp & Hext).
  assert (Hg : rejects env (wld st) GuardAcquire = false) by (apply Hrej; auto).
  assert (Hr1 : rejects env (wld st) (AdbRemovePortForward p) = false).
  { apply Hrej; [exact Hext |]. rewrite release_call_self. apply orb_true_r. }
  assert (Hr2 : rejects env (record GuardAcquire (wld st)) (AdbRemovePortForward p) = false).
  { apply Hrej; [apply extends_record; exact Hext |].
    rewrite release_call_self. apply orb_true_r. }
  apply Z.eqb_neq in Hp.
  unfold try_warn, try_catch, releaseSystemPort, DEVICE_PORT_ALLOCATION_GUARD,
    adb_removePortForward, adb_call, finally, call, bind, this, on_world, ret, throw.
  simpl. rewrite Hsp, Hp, Ha. simpl.
  destruct (_hasSystemPortInCaps (drv st));
    repeat (progress (simpl; rewrite ?Ha, ?Hg, ?Hr1, ?Hr2));
    intros dp; apply filter_not_in.
Qed.

Lemma deleteSession_adb_unforwards :
  hoare (holding p w0) (deleteSession_adb env) (fun _ st => unforwarded p st).
Proof.
  unfold deleteSession_adb, screenRecordingStopTasks, run_all.
  apply hoare_bind_passes with (E := fun _ => False); [| intros ? ? _ [] | intros _].
  { pass; holding_side. }
  apply hoare_this_inv. intros d Hsnap. snapshot Hsnap.
  apply hoare_bind_passes with (E := fun _ => False); [| intros ? ? _ [] | intros _].
  { pass; try holding_side.
    all: intros ? (_ & _ & Hext) Hr; rewrite Hrej in Hr by (exact Hext || reflexivity);
      discriminate Hr. }
  apply hoare_bind_passes with (E := fun _ => False); [| intros ? ? _ [] | intros _].
  { pass; holding_side. }
  apply hoare_bind_passes with (E := fun _ => False); [| intros ? ? _ [] | intros _].
  { pass; try holding_side.
    all: intros ? (_ & _ & Hext) Hr; rewrite Hrej in Hr by (exact Hext || reflexivity);
      discriminate Hr. }
  apply hoare_bind_passes with (E := fun _ => False); [| intros ? ? _ [] | intros _].
  { pass; try holding_side.
    all: intros ? (_ & _ & Hext) Hr; rewrite Hrej in Hr by (exact Hext || reflexivity);
      discriminate Hr. }
  apply hoare_bind with (R := fun _ => unforwarded p).
  { intros st Hst.
    pose proof (release_unforwards "Unable to remove system port forward: " st Hst) as H.
    destruct (fst (try_warn _ _ st)); exact H. }
  intros _. apply hoare_of_passes with (E := fun _ => True); [| auto].
  unfold releaseMjpegServerPort, adb_removePortForward.
  pass; unforwarded_side.
Qed.

Lemma deleteSession_unforwards :
  hoare (holding p w0) (deleteSession env) (fun _ st => unforwarded p st).
Proof.
  unfold deleteSession.
  apply hoare_bind_passes with (E := fun _ => False); [| intros ? ? _ [] | intros _].
  { pass; try holding_side.
    all: intros ? (_ & _ & Hext) Hr; rewrite Hrej in Hr by (exact Hext || reflexivity);
      discriminate Hr. }
  apply hoare_this_inv. intros d Hsnap. snapshot Hsnap.
  apply hoare_bind_passes with (E := fun _ => False); [| intros ? ? _ [] | intros _].
  { pass; holding_side. }
  apply hoare_bind_passes with (E := fun _ => False); [| intros ? ? _ [] | intros _].
  { pass; holding_side. }
  apply hoare_this_inv. intros d' Hsnap'. snapshot Hsnap'.
  apply hoare_bind with (R := fun _ => unforwarded p).
  { intros st Hst. pose proof (deleteSession_adb_unforwards st Hst) as H.
    cbn [when]. destruct (fst (deleteSession_adb env st)); exact H. }
  intros _. apply hoare_of_passes with (E := fun _ => True); [| auto].
  pass; unforwarded_side.
Qed.

End Release.

(** *** What provisioning does to the forward table *)

Lemma retryInterval_loop_passes {A : Type} (I : St -> Prop) (fn : M A)
    (times : Q) (sleepMs : Z) :
  passes I (fun _ => True) fn ->
  stable_wld I (record (Sleep sleepMs)) ->
  forall fuel tries count,
    passes I (fun _ => True) (retryInterval_loop fuel times sleepMs tries count fn).
Proof.
  intros Hfn Hsleep. induction fuel as [| fuel IH]; intros tries count; simpl.
  - pass; try exact Hfn; try exact Hsleep; exact Logic.I.
  - pass; try exact Hfn; try exact Hsleep; try exact Logic.I. apply IH.
Qed.

Section Provision.

Variable env : Env.
Variable F0 : list (Z * Z).

Lemma owned_add_forward (st : St) (p : Z) :
  forwards_owned F0 st ->
  leased p (drv st) ->
  forwards_owned F0 (mkSt (drv st) (add_forward p DEVICE_PORT (wld st))).
Proof.
  intros H Hl q Hin. simpl in Hin. destruct Hin as [Heq | Hin].
  - inversion Heq; subst q. right. exact Hl.
  - apply filter_In in Hin. apply H. exact (proj1 Hin).
Qed.

Lemma forwardPort_owned (st : St) (p : Z) :
  forwards_owned F0 st ->
  systemPort (drv st) = Some p ->
  p <> 0 ->
  forwards_owned F0 (snd (forwardPort env p st)).
Proof.
  intros H Hsp Hp.
  unfold forwardPort, checkPortStatus, adb_forwardPort, adb_call, call, when,
    bind, this, world, note, on_world, ret, throw. simpl.
  destruct (listening env (wld st) p); simpl; [exact H |].
  destruct (adb (drv st)) eqn:Ha; simpl; [| exact H].
  destruct (rejects env _ _); simpl; [exact H |].
  apply (owned_add_forward (mkSt (drv st) _) p); [exact H |].
  split; [exact Hsp |]. split; [exact Hp | exact Ha].
Qed.

Lemma owned_fresh_lease (st : St) (p : Z) (w : World) :
  forwards_owned F0 st ->
  truthy_z (systemPort (drv st)) = false ->
  forwards (wld st) = forwards w ->
  forwards_owned F0 (mkSt (set_systemPort (Some p) (drv st)) w).
Proof.
  intros H Hf Hw q Hin. simpl in Hin. rewrite <- Hw in Hin.
  destruct (H q Hin) as [Hin0 | (Hsp & Hq & _)]; [left; exact Hin0 |].
  rewrite Hsp in Hf. simpl in Hf. apply Z.eqb_neq in Hq. rewrite Hq in Hf. discriminate Hf.
Qed.

Lemma guard_scan_owned (st : St) :
  forwards_owned F0 st ->
  truthy_z (systemPort (drv st)) = false ->
  forwards_owned F0 (snd (DEVICE_PORT_ALLOCATION_GUARD env (scanAndForward env) st)).
Proof.
  intros H Hf. unfold DEVICE_PORT_ALLOCATION_GUARD, finally, call, bind.
  cbv beta iota zeta. destruct (rejects env (wld st) GuardAcquire); [exact H |].
  cbv beta iota zeta. rewrite scanAndForward_run. cbn [drv wld].
  pose proof (scan_spec env (record GuardAcquire (wld st)) 100 8200) as Hscan.
  destruct (scan env (record GuardAcquire (wld st)) 8200 100) as [p |]; [| exact H].
  assert (Hown : forwards_owned F0
            (snd (forwardPort env p
               (mkSt (set_systemPort (Some p) (drv st))
                  (record (FindAPortNotInUse 8200 8299) (record GuardAcquire (wld st))))))).
  { apply forwardPort_owned; [| reflexivity | lia].
    apply owned_fresh_lease; [exact H | exact Hf | reflexivity]. }
  destruct (forwardPort env p _) as [r st']. exact Hown.
Qed.

Lemma allocateSystemPort_owned :
  passes (forwards_owned F0) (fun _ => True) (allocateSystemPort env).
Proof.
  intros st H. split; [| destruct (fst _); exact Logic.I].
  unfold allocateSystemPort, bind at 1, this. cbv beta iota zeta.
  destruct (systemPort (drv st)) as [p |] eqn:Hsp.
  - destruct (p =? 0) eqn:Hp; cbn [negb].
    + apply guard_scan_owned; [exact H |]. rewrite Hsp. simpl. rewrite Hp. reflexivity.
    + unfold bind, update. cbv beta iota zeta.
      apply forwardPort_owned; [| exact Hsp | apply Z.eqb_neq; exact Hp].
      intros q Hin. exact (H q Hin).
  - apply guard_scan_owned; [exact H |]. rewrite Hsp. reflexivity.
Qed.

Lemma allocateMjpegServerPort_owned :
  passes (forwards_owned F0) (fun _ => True) (allocateMjpegServerPort env).
Proof.
  intros st H. split; [| destruct (fst _); exact Logic.I].
  unfold allocateMjpegServerPort, adb_forwardPort, adb_call, call, when,
    bind, this, on_world, ret, throw. simpl.
  destruct (o_mjpegServerPort (opts (drv st))) as [p |]; [| exact H].
  destruct (p =? 0); simpl; [exact H |].
  destruct (adb (drv st)); simpl; [| exact H].
  destruct (rejects env _ _); simpl; [exact H |].
  intros q Hin. simpl in Hin. destruct Hin as [Heq | Hin].
  - inversion Heq.
  - apply filter_In in Hin. apply H. exact (proj1 Hin).
Qed.

Ltac owned_side :=
  first [ exact Logic.I
        | intros; exact Logic.I
        | intros ? H; exact H
        | intros ? H q Hin; destruct (H q Hin) as [Hin0 | (Hsp & Hq & Ha)];
          [left; exact Hin0 | right; repeat split; assumption] ].

Lemma provision_owned (o : Opts) (c : Caps) :
  passes (forwards_owned F0) (fun _ => True) (provision env o c).
Proof.
  unfold provision, startUiAutomator2Session, setAvdFromCapabilities, checkAppPresent,
    initUiAutomator2Server, initAUT, installApp, ensureAppStarts, retryInterval.
  pass.
  all: try owned_side.
  - apply allocateSystemPort_owned.
  - apply allocateMjpegServerPort_owned.
  - apply retryInterval_loop_passes; [pass; owned_side | owned_side].
Qed.

End Provision.




(** ** Session start *)

(** C6, counterexample.  With the full-reset policy and no application,
    in an environment where every collaborator resolves, the start fails
    with the error of the full-reset check, but only after the bridge was
    attached, the API level read and port 8200 forwarded. *)
Lemma full_reset_fails_after_bridge_calls :
  ~ fails_before_any_bridge_call quiet_env full_reset_opts emptyCaps fresh.
Proof.
  intros [_ H].
  specialize (H [BaseCreateSession; GetDeviceInfoFromCaps; CreateADB; AdbGetApiLevel;
                 AdbSetHiddenApiPolicy false; GetLaunchInfo; InitDevice; GuardAcquire;
                 FindAPortNotInUse 8200 8299; CheckPortStatus 8200;
                 AdbForwardPort 8200 6790; GuardRelease; InstallServerApk;
                 AdbAddToDeviceIdleWhitelist] eq_refl).
  discriminate H.
Qed.

Example full_reset_error_at_initAUT :
  fst (provision quiet_env full_reset_opts emptyCaps fresh) = Throw full_reset_error.
Proof. reflexivity. Qed.

Section FullReset.

Variable env : Env.
Variable T0 : list Call.

Lemma stage_record (L : list Call) (c : Call) : stable_wld (stage T0 L) (record c).
Proof.
  intros st (H1 & H2 & t & Ht & Hincl). repeat split; try assumption.
  exists (t ++ [c]). split.
  - simpl. rewrite Ht. symmetry. apply app_assoc.
  - apply incl_appl. exact Hincl.
Qed.

Lemma stage_advance (L : list Call) (c : Call) (st : St) :
  stage T0 L st -> stage T0 (c :: L) (mkSt (drv st) (record c (wld st))).
Proof.
  intros (H1 & H2 & t & Ht & Hincl). repeat split; try assumption.
  exists (t ++ [c]). split.
  - simpl. rewrite Ht. symmetry. apply app_assoc.
  - intros k [<- | Hk]; apply in_or_app; [right; left; reflexivity | left; auto].
Qed.

Lemma stage_defaults (L : list Call) :
  stable_drv (stage T0 L) (fun d => set_opts (defaults (opts d)) d).
Proof.
  intros st (H1 & H2 & H3). repeat split; try assumption. simpl.
  destruct (o_fullReset (opts (drv st))); [exact H1 | discriminate H1].
Qed.

Lemma stage_mergeAppInfo (L : list Call) (info : option (option string * option string)) :
  stable_drv (stage T0 L) (fun d => set_opts (mergeAppInfo info (opts d)) d).
Proof.
  intros st (H1 & H2 & H3). unfold stage. simpl.
  destruct info as [[[pkg |] [act |]] |]; simpl; repeat split; assumption.
Qed.

Definition not_full_reset (e : Err) : Prop := e <> full_reset_error.

Ltac stage_side :=
  first [ exact Logic.I
        | intros; exact Logic.I
        | discriminate
        | apply stage_record
        | apply stage_defaults
        | apply stage_mergeAppInfo
        | intros ? (? & ? & ?); simpl; repeat split; assumption
        | unfold not_full_reset; intros; discriminate
        | unfold not_full_reset, port_busy_message, range_exhausted_message; simpl; discriminate ].

Lemma allocateSystemPort_stage (L : list Call) :
  passes (stage T0 L) not_full_reset (allocateSystemPort env).
Proof.
  unfold allocateSystemPort, DEVICE_PORT_ALLOCATION_GUARD, scanAndForward, forwardPort,
    findAPortNotInUse, adb_forwardPort, DEVICE_PORT_RANGE.
  pass.
  all: stage_side.
Qed.

Lemma allocateMjpegServerPort_stage (L : list Call) :
  passes (stage T0 L) not_full_reset (allocateMjpegServerPort env).
Proof.
  unfold allocateMjpegServerPort, adb_forwardPort. pass. all: stage_side.
Qed.

(** The start fails, and if it fails with the error of the full-reset
    check then the calls of [L] were made before. *)
Definition fails_late (L : list Call) {A : Type} (r : Res A) (st : St) : Prop :=
  is_throw r /\ (r = Throw full_reset_error -> stage T0 L st).

Lemma fails_late_other (L : list Call) {A : Type} (e : Err) (st : St) :
  not_full_reset e -> @fails_late L A (Throw e) st.
Proof.
  intros He. split; [exists e; reflexivity |].
  intros H. inversion H. contradiction.
Qed.

Lemma call_advance (L Lf : list Call) {B : Type} (c : Call) (k : unit -> M B) :
  (forall a, hoare (stage T0 (c :: L)) (k a) (@fails_late Lf B)) ->
  hoare (stage T0 L) (bind (call env c) k) (@fails_late Lf B).
Proof.
  intros Hk. apply hoare_bind with (R := fun _ => stage T0 (c :: L)); [| exact Hk].
  intros st HS. unfold call. destruct (rejects env (wld st) c); simpl.
  - apply fails_late_other. discriminate.
  - apply stage_advance. exact HS.
Qed.

Lemma adb_getApiLevel_advance (L Lf : list Call) {B : Type} (k : Z -> M B) :
  (forall a, hoare (stage T0 (AdbGetApiLevel :: L)) (k a) (@fails_late Lf B)) ->
  hoare (stage T0 L) (bind (adb_getApiLevel env) k) (@fails_late Lf B).
Proof.
  intros Hk. apply hoare_bind with (R := fun _ => stage T0 (AdbGetApiLevel :: L)); [| exact Hk].
  intros st HS. unfold adb_getApiLevel, adb_call, call, bind, world, this, ret, throw. simpl.
  destruct (adb (drv st)); simpl.
  - destruct (rejects env (wld st) AdbGetApiLevel); simpl.
    + apply fails_late_other. discriminate.
    + apply stage_advance. exact HS.
  - apply fails_late_other. discriminate.
Qed.

Ltac keep :=
  apply hoare_bind_passes with (E := not_full_reset);
  [ | intros ? ? _ ?; apply fails_late_other; assumption | intro ].

Lemma initAUT_full_reset (L : list Call) :
  hoare (stage T0 L) (initAUT env) (@fails_late L unit).
Proof.
  unfold initAUT.
  apply hoare_this_inv. intros d Hsnap. snapshot Hsnap.
  keep. { pass; stage_side. }
  keep. { pass; stage_side. }
  apply hoare_this_inv. intros d' Hsnap'. snapshot Hsnap'.
  intros st HS. simpl. split; [exists full_reset_error; reflexivity |].
  intros _. exact HS.
Qed.

Definition bridge_calls_before_initAUT : list Call :=
  [InitDevice; GetLaunchInfo; AdbGetApiLevel; CreateADB].

Lemma startUiAutomator2Session_full_reset (c : Caps) :
  hoare (stage T0 []) (startUiAutomator2Session env c)
    (@fails_late bridge_calls_before_initAUT unit).
Proof.
  unfold startUiAutomator2Session.
  apply hoare_world_inv; intros w.
  keep. { pass; stage_side. }
  keep. { pass; stage_side. }
  apply call_advance; intros _.
  keep. { pass; stage_side. }
  apply adb_getApiLevel_advance; intros level.
  keep. { pass; stage_side. }
  apply hoare_this_inv. intros d Hsnap. snapshot Hsnap.
  keep. { pass; stage_side. }
  keep. { pass; stage_side. }
  apply hoare_world_inv; intros w'.
  apply call_advance; intros _.
  keep. { pass; stage_side. }
  apply call_advance; intros _.
  keep. { apply allocateSystemPort_stage. }
  keep. { apply allocateMjpegServerPort_stage. }
  keep. { unfold initUiAutomator2Server. pass; stage_side. }
  apply hoare_this_inv. intros d' Hsnap'. snapshot Hsnap'.
  keep. { pass; stage_side. }
  keep. { pass; stage_side. }
  apply hoare_bind_throws.
  intros st HS. pose proof (initAUT_full_reset _ st HS) as H.
  destruct (fst (initAUT env st)) as [[] | e].
  - destruct H as [[e He] _]. discriminate He.
  - exact H.
Qed.

End FullReset.

Lemma provision_full_reset (env : Env) (o : Opts) (c : Caps) (T0 : list Call) :
  truthy_b (o_fullReset o) = true ->
  truthy_s (o_app o) = false ->
  hoare (fun st => trace (wld st) = T0) (provision env o c)
    (@fails_late T0 bridge_calls_before_initAUT string).
Proof.
  intros Hfr Happ. unfold provision.
  apply hoare_world; intros w.
  apply hoare_bind with (R := fun _ st => exists t, trace (wld st) = T0 ++ t).
  { intros st [Ht _]. unfold call. destruct (rejects env (wld st) BaseCreateSession); simpl.
    - apply fails_late_other. discriminate.
    - exists [BaseCreateSession]. rewrite Ht. reflexivity. }
  intros _.
  apply hoare_bind with (R := fun _ => stage T0 []).
  { intros st [t Ht]. simpl. split; [exact Hfr |]. split; [exact Happ |].
    exists t. split; [exact Ht | intros k []]. }
  intros _.
  apply hoare_bind_passes with (E := not_full_reset);
    [ | intros ? ? _ ?; apply fails_late_other; assumption | intro ].
  { apply passes_update, stage_defaults. }
  apply hoare_this_inv. intros d Hsnap. snapshot Hsnap.
  apply hoare_bind_passes with (E := not_full_reset);
    [ | intros ? ? _ ?; apply fails_late_other; assumption | intro ].
  { pass.
    all: first [ exact Logic.I | intros; exact Logic.I
               | intros ? (? & ? & ?); simpl; repeat split; assumption ]. }
  apply hoare_bind_passes with (E := not_full_reset);
    [ | intros ? ? _ ?; apply fails_late_other; assumption | intro ].
  { unfold setAvdFromCapabilities. pass.
    all: first [ exact Logic.I | intros; exact Logic.I
               | unfold not_full_reset; discriminate
               | intros ? (? & ? & ?); simpl; repeat split; assumption ]. }
  apply hoare_this_inv. intros d' Hsnap'. snapshot Hsnap'.
  apply hoare_bind_passes with (E := not_full_reset);
    [ | intros ? ? _ ?; apply fails_late_other; assumption | intro ].
  { simpl. apply passes_ret. }
  apply hoare_bind_passes with (E := not_full_reset);
    [ | intros ? ? _ ?; apply fails_late_other; assumption | intro ].
  { pass. intros ? (? & ? & ?); simpl; repeat split; assumption. }
  apply hoare_bind_throws.
  intros st HS. pose proof (startUiAutomator2Session_full_reset env T0 c st HS) as H.
  destruct (fst (startUiAutomator2Session env c st)) as [[] | e].
  - destruct H as [[e He] _]. discriminate He.
  - destruct H as [H1 H2]. split; [exists e; reflexivity |].
    intros He. inversion He; subst e. apply H2. reflexivity.
Qed.

(** C6, as the code has it.  With the full-reset policy and no
    application the start always fails.  The full-reset check sits in
    [initAUT]: when the start fails with its error, the device bridge has
    already been attached ([createADB]), asked for the API level, asked for
    the launch info and used to initialise the device. *)
Theorem full_reset_without_app_fails_in_initAUT :
  forall (env : Env) (o : Opts) (c : Caps) (st : St),
    truthy_b (o_fullReset o) = true ->
    truthy_s (o_app o) = false ->
    let prov := provision env o c st in
    is_throw (fst prov) /\
    is_throw (fst (createSession env o c st)) /\
    (fst prov = Throw full_reset_error ->
     exists t, trace (wld (snd prov)) = trace (wld st) ++ t /\
               incl [CreateADB; AdbGetApiLevel; GetLaunchInfo; InitDevice] t /\
               forallb is_bridge_call [CreateADB; AdbGetApiLevel; GetLaunchInfo; InitDevice]
               = true).
Proof.
  intros env o c st Hfr Happ prov.
  pose proof (provision_full_reset env o c (trace (wld st)) Hfr Happ st eq_refl) as [Ht Hl].
  fold prov in Ht, Hl.
  split; [exact Ht |]. split.
  - unfold createSession, try_catch, bind, throw. destruct Ht as [e He].
    unfold prov in He. destruct (provision env o c st) as [r st1]. simpl in He. subst r.
    destruct (deleteSession env st1) as [[[] | e'] st2]; simpl; eexists; reflexivity.
  - intros He. destruct (Hl He) as (_ & _ & t & Htr & Hincl).
    exists t. split; [exact Htr |]. split; [| reflexivity].
    intros k Hk. apply Hincl. unfold bridge_calls_before_initAUT.
    simpl in Hk. simpl. tauto.
Qed.

Lemma full_reset_without_app_fails_in_initAUT_quiet :
  is_throw (fst (provision quiet_env full_reset_opts emptyCaps fresh)) /\
  is_throw (fst (createSession quiet_env full_reset_opts emptyCaps fresh)).
Proof.
  pose proof (full_reset_without_app_fails_in_initAUT quiet_env full_reset_opts emptyCaps
                fresh eq_refl eq_refl) as H.
  cbv zeta in H. destruct H as (H1 & H2 & _). split; assumption.
Defined.

(** *** Entering the webview *)

Lemma Qle_bool_ceiling (x : Q) (z : Z) :
  Qle_bool x (inject_Z z) = (Qceiling x <=? z).
Proof.
  destruct (Qceiling x <=? z) eqn:Hc.
  - apply Z.leb_le in Hc. apply Qle_bool_iff.
    apply Qle_trans with (inject_Z (Qceiling x)); [apply Qle_ceiling |].
    rewrite <- Zle_Qle. exact Hc.
  - apply Z.leb_gt in Hc. destruct (Qle_bool x (inject_Z z)) eqn:Hq; [| reflexivity].
    apply Qle_bool_iff in Hq. apply Qceiling_resp_le in Hq.
    rewrite Qceiling_Z in Hq. lia.
Qed.

Lemma polls_record (t : list Call) (c : Call) :
  polls (t ++ [c]) = (polls t + match c with SetContext => 1 | _ => 0 end)%nat.
Proof.
  unfold polls. rewrite filter_app, length_app. destruct c; reflexivity.
Qed.

Section AutoWebview.

Variable env : Env.
Hypothesis Hnever : forall w, rejects env w SetContext = true.

(** One failing attempt of the wrapped function: the call is recorded,
    possibly followed by a sleep. *)
Lemma failing_attempt (sleepMs : Z) (pause : bool) (st : St) :
  bind (try_catch (call env SetContext)
          (fun e => bind (when pause (note (Sleep sleepMs))) (fun _ => throw e)))
       (fun a => ret (Some a)) st
  = (Throw (Rejected SetContext), after_failed_attempt sleepMs pause st).
Proof.
  unfold try_catch, bind, call, when, note, on_world, ret, throw, after_failed_attempt.
  simpl. rewrite Hnever. destruct pause; reflexivity.
Qed.

Lemma polls_after_failed_attempt (sleepMs : Z) (pause : bool) (st : St) :
  polls (trace (wld (after_failed_attempt sleepMs pause st))) = S (polls (trace (wld st))).
Proof.
  unfold after_failed_attempt. destruct pause; simpl; rewrite ?polls_record; simpl; lia.
Qed.

Lemma retryInterval_loop_step (times : Q) (sleepMs : Z) (fuel : nat) (tries count : Z)
    (st : St) :
  retryInterval_loop fuel times sleepMs tries count (call env SetContext) st =
    if Qceiling times <=? tries then (Ok None, st)
    else
      let st1 := after_failed_attempt sleepMs
                   (negb (Qeq_bool (inject_Z (count + 1)) times)) st in
      if Qceiling times <=? tries + 1 then (Throw (Rejected SetContext), st1)
      else
        match fuel with
        | S fuel' =>
            retryInterval_loop fuel' times sleepMs (tries + 1) (count + 1)
              (call env SetContext) st1
        | O => (Throw (Rejected SetContext), st1)
        end.
Proof.
  destruct fuel; simpl; rewrite !Qle_bool_ceiling;
    destruct (Qceiling times <=? tries); simpl; try reflexivity;
    unfold try_catch at 1; rewrite failing_attempt;
    destruct (Qceiling times <=? tries + 1); reflexivity.
Qed.

Lemma retryInterval_loop_never (times : Q) (sleepMs : Z) :
  forall fuel tries count st,
    tries < Qceiling times ->
    (Z.to_nat (Qceiling times - tries - 1) <= fuel)%nat ->
    exists st',
      retryInterval_loop fuel times sleepMs tries count (call env SetContext) st
      = (Throw (Rejected SetContext), st') /\
      drv st' = drv st /\
      polls (trace (wld st')) =
        (polls (trace (wld st)) + Z.to_nat (Qceiling times - tries))%nat.
Proof.
  induction fuel as [| fuel IH]; intros tries count st Hlt Hfuel;
    rewrite retryInterval_loop_step;
    replace (Qceiling times <=? tries) with false by (symmetry; apply Z.leb_gt; lia);
    cbv zeta.
  - replace (Qceiling times <=? tries + 1) with true by (symmetry; apply Z.leb_le; lia).
    eexists. split; [reflexivity |]. split; [reflexivity |].
    rewrite polls_after_failed_attempt. lia.
  - destruct (Qceiling times <=? tries + 1) eqn:Hc.
    + apply Z.leb_le in Hc. eexists. split; [reflexivity |]. split; [reflexivity |].
      rewrite polls_after_failed_attempt. lia.
    + apply Z.leb_gt in Hc.
      destruct (IH (tries + 1) (count + 1)
                  (after_failed_attempt sleepMs
                     (negb (Qeq_bool (inject_Z (count + 1)) times)) st))
        as (st' & Hrun & Hd & Hp); [lia | lia |].
      exists st'. split; [exact Hrun |]. split; [rewrite Hd; reflexivity |].
      rewrite Hp, polls_after_failed_attempt. lia.
Qed.

End AutoWebview.

(** * Further properties of the driver *)

(** ** The emulator name (lines 340-359) *)

Lemma avd_char_spec (c : ascii) :
  avd_char c = if is_avd_char c then c else "-"%char.
Proof. reflexivity. Qed.

Lemma avd_char_allowed (c : ascii) :
  is_avd_char (avd_char c) = true \/ avd_char c = "-"%char.
Proof.
  rewrite avd_char_spec. destruct (is_avd_char c) eqn:H; [left; exact H | right; reflexivity].
Qed.

Lemma avd_char_idem (c : ascii) : avd_char (avd_char c) = avd_char c.
Proof.
  rewrite (avd_char_spec c). destruct (is_avd_char c) eqn:H.
  - rewrite avd_char_spec, H. reflexivity.
  - reflexivity.
Qed.

(** X1.  The emulator name derived from the device name has the length
    of the device name, consists only of letters, digits, [_], [.] and [-],
    and a name that is already of that form is left as it is (deriving
    twice gives the same name). *)
Theorem avd_name_sanitizes :
  forall s : string,
    String.length (avd_name s) = String.length s /\
    string_forall (fun c => is_avd_char c || Ascii.eqb c "-") (avd_name s) = true /\
    avd_name (avd_name s) = avd_name s /\
    (string_forall is_avd_char s = true -> avd_name s = s).
Proof.
  induction s as [| c s (IH1 & IH2 & IH3 & IH4)]; [repeat split |].
  split; [simpl; rewrite IH1; reflexivity |].
  split.
  { simpl string_forall. rewrite IH2, andb_true_r.
    destruct (avd_char_allowed c) as [H | H]; rewrite H; [reflexivity |].
    apply orb_true_r. }
  split.
  { simpl. rewrite avd_char_idem, IH3. reflexivity. }
  simpl. intros H. apply andb_true_iff in H. destruct H as [Hc Hs].
  rewrite avd_char_spec, Hc, (IH4 Hs). reflexivity.
Qed.

Lemma truthy_append (a : string) (c : ascii) (b : string) :
  truthy_s (Some (String.append a (String c b))) = true.
Proof. destruct a; reflexivity. Qed.

Lemma setAvdFromCapabilities_result (c : Caps) (st : St) :
  let out := setAvdFromCapabilities c st in
  wld (snd out) = wld st /\
  adb (drv (snd out)) = adb (drv st) /\
  (fst out = Ok tt -> truthy_s (o_avd (opts (drv (snd out)))) = true) /\
  (truthy_s (o_avd (opts (drv st))) = true -> out = (Ok tt, st)).
Proof.
  unfold setAvdFromCapabilities, bind, this, update, ret, throw. simpl.
  destruct (truthy_s (o_avd (opts (drv st)))) eqn:Havd; simpl.
  { repeat split; auto. }
  destruct (truthy_s (c_deviceName c)); simpl.
  - destruct (truthy_s (c_platformVersion c)); simpl; repeat split;
      try discriminate; try (intros _; apply truthy_append).
  - repeat split; discriminate.
Qed.

(** X2.  [setAvdFromCapabilities] calls no collaborator.  When it
    returns, [opts.avd] is defined; a name that was already given is kept,
    in which case nothing changes; otherwise the only errors are the two
    about a missing device name or platform version. *)
Theorem setAvdFromCapabilities_defines_avd :
  forall (c : Caps) (st : St),
    let out := setAvdFromCapabilities c st in
    wld (snd out) = wld st /\
    (fst out = Ok tt /\ truthy_s (o_avd (opts (drv (snd out)))) = true \/
     out = (Throw (ErrorAndThrow
                     "avd or deviceName should be specified when reboot option is enables"), st) \/
     out = (Throw (ErrorAndThrow
                     "avd or platformVersion should be specified when reboot option is enabled"), st)) /\
    (if truthy_s (o_avd (opts (drv st))) then out = (Ok tt, st)
     else fst out = Ok tt ->
          o_avd (opts (drv (snd out))) =
            Some (String.append (avd_name (text (c_deviceName c)))
                    (String.append "__" (text (c_platformVersion c))))).
Proof.
  intros c st. unfold setAvdFromCapabilities, bind, this, update, ret, throw. simpl.
  destruct (truthy_s (o_avd (opts (drv st)))) eqn:Havd; simpl.
  { split; [reflexivity |]. split; [left; split; [reflexivity | exact Havd] | reflexivity]. }
  destruct (truthy_s (c_deviceName c)); simpl.
  - destruct (truthy_s (c_platformVersion c)); simpl.
    + split; [reflexivity |]. split; [| reflexivity].
      left. split; [reflexivity | apply truthy_append].
    + split; [reflexivity |]. split; [right; right; destruct st; reflexivity |].
      discriminate.
  - split; [reflexivity |]. split; [right; left; destruct st; reflexivity |].
    discriminate.
Qed.

Lemma mergeAppInfo_reboot (info : option (option string * option string)) (o : Opts) :
  o_reboot (mergeAppInfo info o) = o_reboot o /\
  o_avd (mergeAppInfo info o) = o_avd o.
Proof. destruct info as [[[pkg |] [act |]] |]; split; reflexivity. Qed.

Section AvdSafe.

Variable env : Env.

Definition reboot_settled (st : St) : Prop :=
  o_reboot (opts (drv st)) = false \/ truthy_s (o_avd (opts (drv st))) = true.

Lemma reboot_settled_merge (info : option (option string * option string)) :
  stable_drv reboot_settled (fun d => set_opts (mergeAppInfo info (opts d)) d).
Proof.
  intros st H. unfold reboot_settled in *. simpl.
  destruct (mergeAppInfo_reboot info (opts (drv st))) as [-> ->]. exact H.
Qed.

Ltac settled_side :=
  first [ exact Logic.I
        | intros; exact Logic.I
        | apply reboot_settled_merge
        | intros ? H; exact H ].

Lemma provision_rest_settled (c : Caps) (sessionId : string) :
  passes reboot_settled (fun _ => True)
    (bind this (fun d =>
       bind (when (truthy_s (o_app (opts d)))
               (bind world (fun w =>
                  bind (call env (ConfigureApp (text (o_app (opts d))))) (fun _ =>
                  bind (update (fun d0 =>
                          set_opts (set_o_app (Some (configuredApp env w (text (o_app (opts d0)))))
                                      (opts d0)) d0)) (fun _ =>
                  checkAppPresent env))))) (fun _ =>
       bind (update (fun d0 =>
               set_opts (set_o_adbPort (Some (or_z (o_adbPort (opts d0)) DEFAULT_ADB_PORT))
                           (opts d0)) d0)) (fun _ =>
       bind (startUiAutomator2Session env c) (fun _ =>
       bind this (fun d0 =>
         bind (when (truthy_s (o_mjpegScreenshotUrl (opts d0)))
                 (bind (update (set_mjpegStream true)) (fun _ => call env MjpegStreamStart)))
              (fun _ => ret sessionId))))))).
Proof.
  unfold_provision. pass.
  all: try settled_side.
  apply retryInterval_loop_passes; [pass; settled_side | settled_side].
Qed.

Definition before_attach (b : bool) (st : St) : Prop :=
  adb (drv st) = false /\ o_reboot (opts (drv st)) = b.

Lemma provision_avd_safe (o : Opts) (c : Caps) :
  hoare (fun st => adb (drv st) = false) (provision env o c)
    (fun _ st => avd_safe (drv st)).
Proof.
  unfold provision.
  apply hoare_world_inv; intro w.
  apply hoare_bind_passes with (E := fun _ : Err => True);
    [ pass; first [intros; exact Logic.I | intros ? H; exact H]
    | intros ? ? H _; left; exact H
    | intros _ ].
  apply hoare_bind with (R := fun _ => before_attach (o_reboot o)).
  { intros st H. simpl. split; [exact H | reflexivity]. }
  intros _.
  walk (fun _ : Err => True)
       ltac:(intros ? ? H _; left; exact (proj1 H))
       ltac:(first [exact Logic.I | intros; exact Logic.I | intros ? H; exact H]).
  apply hoare_bind with (R := fun _ => reboot_settled).
  { intros st [Ha Hr]. destruct (o_reboot o) eqn:Hb; simpl.
    - pose proof (setAvdFromCapabilities_result c st) as (_ & Hadb & Hok & _).
      destruct (fst (setAvdFromCapabilities c st)) as [[] | e].
      + right. apply Hok. reflexivity.
      + left. rewrite Hadb. exact Ha.
    - left. exact Hr. }
  intros _.
  apply hoare_of_passes with (E := fun _ : Err => True);
    [ apply provision_rest_settled | intros r st H _; right; exact H ].
Qed.

Ltac type_error_side :=
  first [ exact Logic.I
        | intros; exact Logic.I
        | unfold not_avd_type_error; discriminate
        | unfold not_avd_type_error; intros; discriminate
        | intros ? H; exact H
        | intros ? (? & ? & ?); simpl; repeat split; assumption ].

Lemma provision_no_avd_type_error (o : Opts) (c : Caps) :
  passes (fun _ => True) not_avd_type_error (provision env o c).
Proof.
  unfold provision. unfold_provision. pass.
  all: try type_error_side.
  apply retryInterval_loop_raises; [pass; type_error_side | type_error_side].
Qed.

Lemma deleteSession_adb_no_avd_type_error (o : Opts) :
  (o_reboot o = true -> o_avd o <> None) ->
  passes (emulator_frame true o) not_avd_type_error (deleteSession_adb env).
Proof.
  intros Hsafe. unfold_teardown.
  pass.
  all: try type_error_side.
  exfalso. apply Hsafe; reflexivity.
Qed.

Lemma deleteSession_no_avd_type_error (a : bool) (o : Opts) :
  (a = true -> o_reboot o = true -> o_avd o <> None) ->
  passes (emulator_frame a o) not_avd_type_error (deleteSession env).
Proof.
  intros Hsafe. unfold deleteSession.
  pass.
  all: try type_error_side.
  apply deleteSession_adb_no_avd_type_error. apply Hsafe. reflexivity.
Qed.

End AvdSafe.

(** X3.  On a driver whose bridge is not yet attached, provisioning
    leaves the driver in a state where the emulator name that
    [deleteSession] dereferences ([this.opts.avd!], line 851) is defined
    whenever it is needed; [createSession] therefore never raises the
    [TypeError] of that dereference, whatever the bundle and whatever the
    collaborators do. *)
Theorem createSession_never_dereferences_missing_avd :
  forall (env : Env) (o : Opts) (c : Caps) (st : St),
    adb (drv st) = false ->
    avd_safe (drv (snd (provision env o c st))) /\
    fst (createSession env o c st) <> Throw (TypeError "avd").
Proof.
  intros env o c st Hadb.
  pose proof (provision_avd_safe env o c st Hadb) as Hsafe.
  pose proof (provision_no_avd_type_error env o c st Logic.I) as [_ Hprov].
  split; [exact Hsafe |].
  unfold createSession, try_catch, bind, throw.
  destruct (provision env o c st) as [[sid | e] st1]; simpl in *; [discriminate |].
  assert (Hdel : passes (emulator_frame (adb (drv st1)) (opts (drv st1)))
                   not_avd_type_error (deleteSession env)).
  { apply deleteSession_no_avd_type_error. intros Ha Hr Havd.
    destruct Hsafe as [H | [H | H]].
    - rewrite H in Ha. discriminate Ha.
    - rewrite H in Hr. discriminate Hr.
    - rewrite Havd in H. discriminate H. }
  destruct (Hdel st1) as [_ Hr]; [repeat split |].
  destruct (deleteSession env st1) as [[[] | e'] st2]; simpl in *.
  - intros H. inversion H. subst e. apply Hprov. reflexivity.
  - intros H. inversion H. subst e'. apply Hr. reflexivity.
Qed.

Lemma createSession_never_dereferences_missing_avd_fresh :
  avd_safe (drv (snd (provision quiet_env bare_opts emptyCaps fresh))) /\
  fst (createSession quiet_env bare_opts emptyCaps fresh) <> Throw (TypeError "avd").
Proof.
  apply (createSession_never_dereferences_missing_avd quiet_env bare_opts emptyCaps fresh).
  reflexivity.
Defined.

(** ** The MJPEG port (lines 413-427) *)

Lemma filter_unused (p : Z) (F : list (Z * Z)) :
  (forall dp, ~ In (p, dp) F) ->
  filter (fun f => negb (fst f =? p)) F = F.
Proof.
  induction F as [| [l d] F IH]; intros H; [reflexivity |].
  simpl. destruct (l =? p) eqn:Hl.
  - apply Z.eqb_eq in Hl. subst l. exfalso. apply (H d). left. reflexivity.
  - simpl. f_equal. apply IH. intros dp Hin. apply (H dp). right. exact Hin.
Qed.

(** X4.  With [mjpegServerPort] set to [p], a bridge attached that
    accepts both requests, and [p] not forwarded before:
    [allocateMjpegServerPort] forwards [p] to the device's MJPEG port 7810
    with a single bridge call (no probe of the local port, no guard), and
    [releaseMjpegServerPort] after it restores the forward table. *)
Theorem mjpeg_port_round_trip :
  forall (env : Env) (st : St) (p : Z),
    o_mjpegServerPort (opts (drv st)) = Some p ->
    p <> 0 ->
    adb (drv st) = true ->
    port_unused p (wld st) ->
    rejects env (wld st) (AdbForwardPort p MJPEG_SERVER_DEVICE_PORT) = false ->
    rejects env (add_forward p MJPEG_SERVER_DEVICE_PORT
                   (record (AdbForwardPort p MJPEG_SERVER_DEVICE_PORT) (wld st)))
            (AdbRemovePortForward p) = false ->
    let allocated := allocateMjpegServerPort env st in
    let released := releaseMjpegServerPort env (snd allocated) in
    fst allocated = Ok tt /\
    forwards (wld (snd allocated)) = (p, 7810) :: forwards (wld st) /\
    trace (wld (snd allocated)) = trace (wld st) ++ [AdbForwardPort p 7810] /\
    fst released = Ok tt /\
    forwards (wld (snd released)) = forwards (wld st) /\
    trace (wld (snd released)) =
      trace (wld st) ++ [AdbForwardPort p 7810; AdbRemovePortForward p] /\
    drv (snd released) = drv st.
Proof.
  intros env st p Hport Hp Hadb Hun Hf Hr allocated released.
  apply Z.eqb_neq in Hp.
  assert (Ha : allocated =
    (Ok tt, mkSt (drv st) (add_forward p MJPEG_SERVER_DEVICE_PORT
                             (record (AdbForwardPort p MJPEG_SERVER_DEVICE_PORT) (wld st))))).
  { unfold allocated, allocateMjpegServerPort, adb_forwardPort, adb_call, call, when,
      bind, this, on_world, ret, throw. simpl.
    rewrite Hport, Hp. simpl. rewrite Hadb. simpl. rewrite Hf. reflexivity. }
  assert (Hrel : released =
    (Ok tt, mkSt (drv st)
              (remove_forward p
                 (record (AdbRemovePortForward p)
                    (add_forward p MJPEG_SERVER_DEVICE_PORT
                       (record (AdbForwardPort p MJPEG_SERVER_DEVICE_PORT) (wld st))))))).
  { unfold released. rewrite Ha.
    unfold releaseMjpegServerPort, adb_removePortForward, adb_call, call, when,
      bind, this, on_world, ret, throw. simpl.
    rewrite Hport, Hp. simpl. rewrite Hadb. simpl.
    rewrite Hr. reflexivity. }
  rewrite Hrel, Ha. simpl. rewrite Z.eqb_refl. simpl.
  rewrite (filter_unused p (forwards (wld st)) Hun).
  rewrite (filter_unused p (forwards (wld st)) Hun).
  repeat split. rewrite <- app_assoc. reflexivity.
Qed.

Lemma mjpeg_port_round_trip_9100 :
  let st := mkSt (set_opts
                    (mkOpts None None None None false None None None None None None false
                       false false false false false false None false false false false
                       None None None false None (Some 9100) None false)
                    (set_adb true (constructor bare_opts)))
                 empty_world in
  fst (releaseMjpegServerPort quiet_env (snd (allocateMjpegServerPort quiet_env st))) = Ok tt /\
  forwards (wld (snd (releaseMjpegServerPort quiet_env
                        (snd (allocateMjpegServerPort quiet_env st))))) = [].
Proof.
  cbv zeta.
  pose proof (mjpeg_port_round_trip quiet_env
    (mkSt (set_opts
             (mkOpts None None None None false None None None None None None false
                false false false false false false None false false false false
                None None None false None (Some 9100) None false)
             (set_adb true (constructor bare_opts)))
          empty_world) 9100) as H.
  cbv zeta in H.
  destruct H as (_ & _ & _ & H1 & H2 & _); try reflexivity.
  - discriminate.
  - intros dp [].
  - split; [exact H1 | exact H2].
Defined.

(** ** Installing the server and starting the application
    (lines 582-626 and 688-731) *)

(** X5.  [initUiAutomator2Server] needs the bridge and a system
    port: without the bridge, or with the bridge and without a system port,
    the constructor of the server throws that the option is required, and
    neither the driver nor the world has changed.  With both, the server
    handle is set before anything else can fail.  Then, with
    [skipServerInstallation], no collaborator is called; otherwise the call
    throws exactly when the installation of the server is rejected, and a
    failure to add the packages to the Doze whitelist only leaves a
    warning. *)
Theorem initUiAutomator2Server_outcome :
  forall (env : Env) (st : St),
    let out := initUiAutomator2Server env st in
    if negb (adb (drv st)) then out = (Throw (RequiredOption "adb"), st)
    else if negb (hasValue (systemPort (drv st)))
    then out = (Throw (RequiredOption "systemPort"), st)
    else
      uiautomator2 (drv (snd out)) = true /\
      (if o_skipServerInstallation (opts (drv st))
       then fst out = Ok tt /\ wld (snd out) = wld st
       else if rejects env (wld st) InstallServerApk
            then out = (Throw (Rejected InstallServerApk),
                        mkSt (set_uiautomator2 true (drv st))
                             (record InstallServerApk (wld st)))
            else fst out = Ok tt /\
                 forwards (wld (snd out)) = forwards (wld st) /\
                 (warns (wld (snd out)) = warns (wld st) \/
                  warns (wld (snd out)) =
                    warns (wld st) ++
                    [("Cannot add server packages to the Doze whitelist. Original error: ",
                      Some (Rejected AdbAddToDeviceIdleWhitelist))])).
Proof.
  intros env st.
  unfold initUiAutomator2Server, new_UiAutomator2Server, try_catch, adb_call, call,
    warn, on_world, bind, this, update, ret, throw. simpl.
  destruct (adb (drv st)) eqn:Hadb; simpl; [| reflexivity].
  destruct (hasValue (systemPort (drv st))); simpl; [| reflexivity].
  destruct (o_skipServerInstallation (opts (drv st))); simpl; [repeat split |].
  destruct (rejects env (wld st) InstallServerApk); simpl; [repeat split |].
  rewrite Hadb.
  destruct (rejects env _ AdbAddToDeviceIdleWhitelist); simpl; repeat split.
  - right. reflexivity.
  - left. reflexivity.
Qed.

(** X6.  [ensureAppStarts] with the bridge attached.  When
    [androidCoverage] is configured it only starts the instrumentation and
    never calls [startApp].  Otherwise, with [noReset] and without
    [forceAppLaunch], an application that is already running is left alone:
    the only call is the process query.  With [forceAppLaunch] the process
    is not even queried: the one call is [startApp]. *)
Theorem ensureAppStarts_calls :
  forall (env : Env) (st : St),
    adb (drv st) = true ->
    let out := ensureAppStarts env st in
    let d := drv st in
    drv (snd out) = d /\
    (if truthy_s (c_androidCoverage (caps d))
     then trace (wld (snd out)) = trace (wld st) ++ [AdbAndroidCoverage]
     else if o_noReset (opts d) && negb (o_forceAppLaunch (opts d))
          then if rejects env (wld st) AdbProcessExists
               then out = (Throw (Rejected AdbProcessExists),
                           mkSt d (record AdbProcessExists (wld st)))
               else if answers env (wld st) AdbProcessExists
                    then out = (Ok tt, mkSt d (record AdbProcessExists (wld st)))
                    else trace (wld (snd out)) =
                           trace (wld st) ++ [AdbProcessExists; AdbStartApp]
          else trace (wld (snd out)) = trace (wld st) ++ [AdbStartApp]).
Proof.
  intros env st Hadb out d. subst out d.
  unfold ensureAppStarts, adb_query, query, adb_call, call, world,
    bind, this, ret, throw. simpl.
  destruct (truthy_s (c_androidCoverage (caps (drv st)))); simpl; rewrite ?Hadb; simpl.
  { destruct (rejects env (wld st) AdbAndroidCoverage); simpl; split; reflexivity. }
  destruct (o_noReset (opts (drv st)) && negb (o_forceAppLaunch (opts (drv st)))); simpl;
    rewrite ?Hadb; simpl.
  - destruct (rejects env (wld st) AdbProcessExists); simpl; [split; reflexivity |].
    destruct (answers env (wld st) AdbProcessExists); simpl; [split; reflexivity |].
    rewrite Hadb. simpl.
    destruct (rejects env _ AdbStartApp); simpl; split; try reflexivity;
      rewrite <- app_assoc; reflexivity.
  - destruct (rejects env (wld st) AdbStartApp); simpl; split; reflexivity.
Qed.

Lemma ensureAppStarts_calls_attached :
  trace (wld (snd (ensureAppStarts quiet_env attached))) = [AdbStartApp].
Proof.
  pose proof (ensureAppStarts_calls quiet_env attached eq_refl) as H.
  cbv zeta in H. destruct H as [_ H]. exact H.
Defined.

(** ** Preparing the application under test (lines 628-686) *)

Lemma since_refl (T0 : list Call) (bad : Call -> bool) (w : World) :
  trace w = T0 -> since T0 (none_of bad) w.
Proof. intros H. exists []. split; [rewrite H; symmetry; apply app_nil_r | reflexivity]. Qed.

Lemma since_record (T0 : list Call) (bad : Call -> bool) (c : Call) (w : World) :
  bad c = false ->
  since T0 (none_of bad) w -> since T0 (none_of bad) (record c w).
Proof.
  intros Hc (t & Ht & Hn). exists (t ++ [c]). split.
  - simpl. rewrite Ht. symmetry. apply app_assoc.
  - unfold none_of in *. rewrite forallb_app, Hn. simpl. rewrite Hc. reflexivity.
Qed.

Ltac since_side :=
  first [ exact Logic.I
        | discriminate
        | intros; exact Logic.I
        | intros ? H; exact H
        | intros ? (? & ?); split; [assumption | apply since_record; [reflexivity | assumption]]
        | intros ? (? & ? & ?); repeat split; try assumption;
          apply since_record; [reflexivity | assumption] ].

Lemma initAUT_unsigned (env : Env) (T0 : list Call) :
  passes (unsigned T0) (fun _ => True) (initAUT env).
Proof.
  unfold initAUT, installApp. pass. all: since_side.
Qed.

Lemma initAUT_kept (env : Env) (T0 : list Call) :
  passes (kept T0) (fun _ => True) (initAUT env).
Proof.
  unfold initAUT, installApp. pass. all: since_side.
Qed.

(** X7.  [initAUT] honours [noSign] and [skipUninstall]: with [noSign]
    it neither checks the certificate of the application nor signs it, and
    with [skipUninstall] it never uninstalls the application, whatever the
    other keys are and whatever the collaborators answer. *)
Theorem initAUT_honours_noSign_and_skipUninstall :
  forall (env : Env) (st : St),
    let st' := snd (initAUT env st) in
    (o_noSign (opts (drv st)) = true ->
     since (trace (wld st)) (none_of signing_call) (wld st')) /\
    (o_skipUninstall (opts (drv st)) = true ->
     since (trace (wld st)) (none_of uninstall_call) (wld st')).
Proof.
  intros env st st'. split; intros H.
  - apply (initAUT_unsigned env (trace (wld st)) st).
    split; [exact H | apply since_refl; reflexivity].
  - apply (initAUT_kept env (trace (wld st)) st).
    split; [exact H | apply since_refl; reflexivity].
Qed.

(** X8.  With an application given, [noReset] set, no other packages
    to uninstall or install, and the bridge reporting the application as
    installed, [initAUT] does nothing after that query: nothing is signed,
    uninstalled or installed. *)
Theorem initAUT_noReset_installed_does_nothing :
  forall (env : Env) (st : St),
    adb (drv st) = true ->
    truthy_s (o_app (opts (drv st))) = true ->
    o_noReset (opts (drv st)) = true ->
    truthy_s (o_uninstallOtherPackages (opts (drv st))) = false ->
    truthy_s (o_otherApps (opts (drv st))) = false ->
    rejects env (wld st) AdbIsAppInstalled = false ->
    answers env (wld st) AdbIsAppInstalled = true ->
    initAUT env st = (Ok tt, mkSt (drv st) (record AdbIsAppInstalled (wld st))).
Proof.
  intros env st Hadb Happ Hnr Hun Hoth Hrej Hans.
  unfold initAUT, adb_query, query, call, when, world, bind, this, ret, throw. simpl.
  rewrite Hun, Hoth. simpl. rewrite Happ, Hnr. simpl. rewrite Hadb. simpl.
  rewrite Hrej. simpl. rewrite Hans. reflexivity.
Qed.

Lemma initAUT_noReset_installed_does_nothing_quiet :
  let st := mkSt (set_opts
                    (mkOpts (Some "/tmp/app.apk") (Some "io.example") None None false None
                       None None None None None true false false false false false false
                       None false false false false None None None false None None None
                       false)
                    (set_adb true (constructor bare_opts)))
                 empty_world in
  initAUT quiet_env st = (Ok tt, mkSt (drv st) (record AdbIsAppInstalled (wld st))).
Proof.
  cbv zeta.
  apply (initAUT_noReset_installed_does_nothing quiet_env); reflexivity.
Defined.

(** ** The bridge is attached before it is used *)

Section BridgeOrder.

Variable env : Env.
Variable T0 : list Call.

Lemma attached_first_record (c : Call) (w : World) :
  attached_first T0 w -> attached_first T0 (record c w).
Proof.
  intros (t1 & t2 & Ht & Hn). exists t1, (t2 ++ [c]). split; [| exact Hn].
  simpl. rewrite Ht. rewrite <- !app_assoc. reflexivity.
Qed.

Lemma attach (st : St) :
  untouched T0 st -> attached_first T0 (record CreateADB (wld st)).
Proof.
  intros (_ & t & Ht & Hn). exists t, []. split; [| exact Hn].
  simpl. rewrite Ht. rewrite <- app_assoc. reflexivity.
Qed.

Definition attached_st (st : St) : Prop := attached_first T0 (wld st).

Ltac untouched_side :=
  first [ exact Logic.I
        | discriminate
        | intros; exact Logic.I
        | intros ? H; exact H
        | intros ? (? & ?); split; [assumption | apply since_record; [reflexivity | assumption]] ].

Ltac attached_side :=
  first [ exact Logic.I
        | discriminate
        | intros; exact Logic.I
        | intros ? H; exact H
        | intros ? H; apply attached_first_record; exact H ].

Lemma deleteSession_untouched :
  passes (untouched T0) (fun _ => True) (deleteSession env).
Proof. unfold deleteSession. pass. all: untouched_side. Qed.

Lemma deleteSession_attached :
  passes attached_st (fun _ => True) (deleteSession env).
Proof. unfold_teardown. pass. all: attached_side. Qed.

Lemma startUiAutomator2Session_bridge_order (c : Caps) :
  hoare (untouched T0) (startUiAutomator2Session env c)
    (fun _ st => untouched T0 st \/ attached_st st).
Proof.
  unfold startUiAutomator2Session.
  walk (fun _ : Err => True)
       ltac:(intros ? ? H _; left; exact H)
       ltac:(untouched_side).
  apply hoare_bind with (R := fun _ => attached_st).
  { intros st H. unfold call. destruct (rejects env (wld st) CreateADB); simpl;
      [right |]; apply attach; exact H. }
  intros _.
  apply hoare_of_passes with (E := fun _ : Err => True); [| intros r st H _; right; exact H].
  unfold_provision. pass.
  all: try attached_side.
  apply retryInterval_loop_passes; [pass; attached_side | attached_side].
Qed.

Lemma provision_bridge_order (o : Opts) (c : Caps) :
  hoare (untouched T0) (provision env o c)
    (fun _ st => untouched T0 st \/ attached_st st).
Proof.
  unfold provision. unfold setAvdFromCapabilities, checkAppPresent.
  walk (fun _ : Err => True)
       ltac:(intros ? ? H _; left; exact H)
       ltac:(untouched_side).
  apply hoare_bind with (R := fun _ st => untouched T0 st \/ attached_st st).
  { intros st H. pose proof (startUiAutomator2Session_bridge_order c st H) as H'.
    destruct (fst (startUiAutomator2Session env c st)); exact H'. }
  intros _. apply hoare_or.
  - apply hoare_of_passes with (E := fun _ : Err => True); [| intros r st H _; left; exact H].
    pass. all: untouched_side.
  - apply hoare_of_passes with (E := fun _ : Err => True); [| intros r st H _; right; exact H].
    pass. all: attached_side.
Qed.

End BridgeOrder.

(** X9.  On a driver whose bridge is not yet attached, [createSession]
    never uses the device bridge before attaching it: in the calls it makes,
    teardown included, either none reaches the bridge or the first that
    does is [createADB].  A start that fails before the bridge is attached
    leaves the device untouched. *)
Theorem createSession_attaches_bridge_first :
  forall (env : Env) (o : Opts) (c : Caps) (st : St),
    adb (drv st) = false ->
    bridge_order (trace (wld st)) (wld (snd (createSession env o c st))).
Proof.
  intros env o c st Hadb.
  assert (H0 : untouched (trace (wld st)) st).
  { split; [exact Hadb | apply since_refl; reflexivity]. }
  pose proof (provision_bridge_order env (trace (wld st)) o c st H0) as Hprov.
  unfold createSession, try_catch, bind, throw.
  destruct (provision env o c st) as [[sid | e] st1]; simpl in *.
  - destruct Hprov as [[_ H] | H]; [left | right]; exact H.
  - assert (Hdel : untouched (trace (wld st)) (snd (deleteSession env st1)) \/
                   attached_st (trace (wld st)) (snd (deleteSession env st1))).
    { destruct Hprov as [H | H].
      - left. apply (deleteSession_untouched env (trace (wld st)) st1 H).
      - right. apply (deleteSession_attached env (trace (wld st)) st1 H). }
    destruct (deleteSession env st1) as [[[] | e'] st2]; simpl in *;
      (destruct Hdel as [[_ H] | H]; [left | right]; exact H).
Qed.

Lemma createSession_attaches_bridge_first_fresh :
  bridge_order [] (wld (snd (createSession quiet_env bare_opts emptyCaps fresh))).
Proof.
  apply (createSession_attaches_bridge_first quiet_env bare_opts emptyCaps fresh).
  reflexivity.
Defined.

(** ** Starts that fail early (lines 286-292, 442-449 and 867-873) *)

Section MissingApp.

Variable env : Env.
Variable T0 : list Call.
Hypothesis Hmissing : forall w path, answers env w (FsExists path) = false.

Ltac app_side :=
  first [ exact Logic.I
        | discriminate
        | intros; exact Logic.I
        | intros ? H; exact H
        | intros ? (? & ? & ?); repeat split; try assumption;
          apply since_record; [reflexivity | assumption] ].

Lemma checkAppPresent_missing (st : St) :
  is_throw (fst (checkAppPresent env st)) /\
  drv (snd (checkAppPresent env st)) = drv st /\
  wld (snd (checkAppPresent env st)) =
    record (FsExists (text (o_app (opts (drv st))))) (wld st).
Proof.
  unfold checkAppPresent, query, call, when, world, bind, this, ret, throw. simpl.
  destruct (rejects env (wld st) _); simpl.
  - split; [eexists; reflexivity | split; reflexivity].
  - rewrite Hmissing. simpl. split; [eexists; reflexivity | split; reflexivity].
Qed.

Lemma provision_missing_app (o : Opts) (c : Caps) :
  truthy_s (o_app o) = true ->
  hoare (fun st => adb (drv st) = false /\ since T0 (none_of is_bridge_call) (wld st))
    (provision env o c)
    (fun r st => is_throw r /\ untouched T0 st).
Proof.
  intros Happ. unfold provision. unfold setAvdFromCapabilities.
  apply hoare_world_inv; intro w.
  apply hoare_bind_passes with (E := fun _ : Err => True);
    [ pass; first [ intros; exact Logic.I
                  | intros ? (? & ?); split;
                    [assumption | apply since_record; [reflexivity | assumption]] ]
    | intros e st H _; split; [exists e; reflexivity | exact H]
    | intros _ ].
  apply hoare_bind with (R := fun _ => app_pending T0).
  { intros st [Ha Hs]. simpl. split; [exact Ha |]. split; [exact Happ | exact Hs]. }
  intros _.
  walk (fun _ : Err => True)
       ltac:(intros err1 st1 (Hadb1 & _ & Hsince1) _; split; [exists err1; reflexivity | split; assumption])
       ltac:(app_side).
  apply hoare_bind_throws. cbv iota.
  apply hoare_world_inv; intro w'.
  apply hoare_bind_passes with (E := fun _ : Err => True);
    [ pass; app_side
    | intros err1 st1 (Hadb1 & _ & Hsince1) _; split; [exists err1; reflexivity | split; assumption]
    | intros _ ].
  apply hoare_bind with (R := fun _ st => untouched T0 st).
  { intros st (Ha & _ & Hsi). simpl. split; assumption. }
  intros _ st [Ha Hsi].
  destruct (checkAppPresent_missing st) as ([e He] & Hd & Hw).
  rewrite He. split; [exists e; reflexivity |].
  split; [rewrite Hd; exact Ha | rewrite Hw; apply since_record; [reflexivity | exact Hsi]].
Qed.

End MissingApp.

(** X10.  When an application is given but its file does not exist,
    [createSession] on a driver whose bridge is not attached fails without
    a single call to the device bridge, teardown included, and leaves the
    bridge unattached. *)
Theorem createSession_missing_app_fails_fast :
  forall (env : Env) (o : Opts) (c : Caps) (st : St),
    adb (drv st) = false ->
    truthy_s (o_app o) = true ->
    (forall w path, answers env w (FsExists path) = false) ->
    let out := createSession env o c st in
    is_throw (fst out) /\
    adb (drv (snd out)) = false /\
    since (trace (wld st)) (none_of is_bridge_call) (wld (snd out)).
Proof.
  intros env o c st Hadb Happ Hmissing out.
  pose proof (provision_missing_app env (trace (wld st)) Hmissing o c Happ st) as Hprov.
  destruct Hprov as [[e He] Hun]; [split; [exact Hadb | apply since_refl; reflexivity] |].
  unfold out, createSession, try_catch, bind, throw.
  destruct (provision env o c st) as [r st1]. simpl in He, Hun. subst r.
  pose proof (deleteSession_untouched env (trace (wld st)) st1 Hun) as [[Ha Hs] _].
  destruct (deleteSession env st1) as [[[] | e'] st2]; simpl in *;
    (split; [eexists; reflexivity | split; assumption]).
Qed.

Lemma createSession_missing_app_fails_fast_witness :
  let out := createSession no_app_file_env app_opts emptyCaps fresh in
  is_throw (fst out) /\
  adb (drv (snd out)) = false /\
  since [] (none_of is_bridge_call) (wld (snd out)).
Proof.
  apply (createSession_missing_app_fails_fast no_app_file_env app_opts emptyCaps fresh).
  - reflexivity.
  - reflexivity.
  - intros w path. reflexivity.
Defined.

Section OldDevice.

Variable env : Env.
Variable T0 : list Call.
Hypothesis Hold : forall w, apiLevel env w < 21.

Ltac unprovisioned_side :=
  first [ exact Logic.I
        | discriminate
        | intros; exact Logic.I
        | intros ? H; exact H
        | intros ? H; apply since_record; [reflexivity | exact H] ].

Lemma deleteSession_unprovisioned :
  passes (unprovisioned T0) (fun _ => True) (deleteSession env).
Proof. unfold_teardown. pass. all: unprovisioned_side. Qed.

Lemma startUiAutomator2Session_old_device (c : Caps) :
  hoare (unprovisioned T0) (startUiAutomator2Session env c)
    (fun r st => is_throw r /\ unprovisioned T0 st).
Proof.
  unfold startUiAutomator2Session.
  do 5 walk1 (fun _ : Err => True)
       ltac:(intros err1 st1 Hinv1 _; split; [exists err1; reflexivity | exact Hinv1])
       ltac:(unprovisioned_side).
  apply hoare_bind with (R := fun level st => unprovisioned T0 st /\ level < 21).
  { intros st H. unfold adb_getApiLevel, adb_call, call, bind, world, this, ret, throw.
    simpl. destruct (adb (drv st)); simpl.
    - destruct (rejects env (wld st) AdbGetApiLevel); simpl.
      + split; [eexists; reflexivity |]. apply since_record; [reflexivity | exact H].
      + split; [apply since_record; [reflexivity | exact H] | apply Hold].
    - split; [eexists; reflexivity | exact H]. }
  intros level. apply hoare_bind_throws.
  intros st [H Hlevel]. apply Z.ltb_lt in Hlevel. rewrite Hlevel. simpl.
  split; [eexists; reflexivity | exact H].
Qed.

Lemma provision_old_device (o : Opts) (c : Caps) :
  hoare (unprovisioned T0) (provision env o c)
    (fun r st => is_throw r /\ unprovisioned T0 st).
Proof.
  unfold provision. unfold setAvdFromCapabilities, checkAppPresent.
  walk (fun _ : Err => True)
       ltac:(intros err1 st1 Hinv1 _; split; [exists err1; reflexivity | exact Hinv1])
       ltac:(unprovisioned_side).
  apply hoare_bind_throws.
  intros st H. pose proof (startUiAutomator2Session_old_device c st H) as [[e He] H'].
  rewrite He. split; [exists e; reflexivity | exact H'].
Qed.

End OldDevice.

(** X11.  When the device reports an API level below 21,
    [createSession] fails, and in all the calls it makes, teardown
    included, no port is forwarded, neither the server nor the application
    is installed, and no session is started on the device server. *)
Theorem createSession_old_device_fails_unprovisioned :
  forall (env : Env) (o : Opts) (c : Caps) (st : St),
    (forall w, apiLevel env w < 21) ->
    let out := createSession env o c st in
    is_throw (fst out) /\
    since (trace (wld st)) (none_of provisioning_call) (wld (snd out)).
Proof.
  intros env o c st Hold out.
  pose proof (provision_old_device env (trace (wld st)) Hold o c st) as Hprov.
  destruct Hprov as [[e He] Hun]; [apply since_refl; reflexivity |].
  unfold out, createSession, try_catch, bind, throw.
  destruct (provision env o c st) as [r st1]. simpl in He, Hun. subst r.
  pose proof (deleteSession_unprovisioned env (trace (wld st)) st1 Hun) as [Hs _].
  destruct (deleteSession env st1) as [[[] | e'] st2]; simpl in *;
    (split; [eexists; reflexivity | exact Hs]).
Qed.

Lemma createSession_old_device_fails_unprovisioned_kitkat :
  let out := createSession kitkat_env bare_opts emptyCaps fresh in
  is_throw (fst out) /\ since [] (none_of provisioning_call) (wld (snd out)).
Proof.
  apply (createSession_old_device_fails_unprovisioned kitkat_env bare_opts emptyCaps fresh).
  intros w. reflexivity.
Defined.

Example old_device_error :
  fst (createSession kitkat_env bare_opts emptyCaps fresh) = Throw unsupported_api_error.
Proof. vm_compute. reflexivity. Qed.

(** ** A successful start (lines 236-317 and 429-567) *)

Section Success.

Variable env : Env.
Variable sid : string.

Ltac stage_conv :=
  first [ exact Logic.I
        | discriminate
        | intros; exact Logic.I
        | intros ? H; exact H ].

Lemma allocateSystemPort_truthy (st : St) :
  fst (allocateSystemPort env st) = Ok tt ->
  truthy_z (systemPort (drv (snd (allocateSystemPort env st)))) = true.
Proof.
  assert (Heq : allocateSystemPort env st =
                match systemPort (drv st) with
                | Some p =>
                    if negb (p =? 0)
                    then (update (set__hasSystemPortInCaps true);; forwardPort env p)%m st
                    else DEVICE_PORT_ALLOCATION_GUARD env (scanAndForward env) st
                | None => DEVICE_PORT_ALLOCATION_GUARD env (scanAndForward env) st
                end).
  { unfold allocateSystemPort, bind at 1, this. cbv beta iota zeta.
    destruct (systemPort (drv st)) as [p |]; [destruct (negb (p =? 0)) |]; reflexivity. }
  rewrite Heq. clear Heq.
  assert (Hscan : fst (DEVICE_PORT_ALLOCATION_GUARD env (scanAndForward env) st) = Ok tt ->
            truthy_z (systemPort (drv (snd (DEVICE_PORT_ALLOCATION_GUARD env
                                              (scanAndForward env) st)))) = true).
  { unfold DEVICE_PORT_ALLOCATION_GUARD, finally, call, bind.
    cbv beta iota zeta. destruct (rejects env (wld st) GuardAcquire); [discriminate |].
    cbv beta iota zeta. rewrite scanAndForward_run. cbn [drv wld].
    pose proof (scan_spec env (record GuardAcquire (wld st)) 100 8200) as Hs.
    destruct (scan env (record GuardAcquire (wld st)) 8200 100) as [p |]; [| discriminate].
    pose proof (forwardPort_systemPort env p
                  (mkSt (set_systemPort (Some p) (drv st))
                     (record (FindAPortNotInUse 8200 8299) (record GuardAcquire (wld st)))))
      as Hd.
    destruct (forwardPort env p _) as [r st']. cbn [fst snd drv wld] in *.
    intros _. rewrite Hd. simpl. apply negb_true_iff, Z.eqb_neq. lia. }
  destruct (systemPort (drv st)) as [p |] eqn:Hsp; [| exact Hscan].
  destruct (p =? 0) eqn:Hp; cbn [negb]; [exact Hscan |].
  unfold bind, update. cbv beta iota zeta. intros _.
  rewrite forwardPort_systemPort. simpl. rewrite Hsp. simpl. rewrite Hp. reflexivity.
Qed.

Lemma allocateSystemPort_bridged :
  passes (bridged sid) (fun _ => True) (allocateSystemPort env).
Proof. unfold_provision. pass. all: stage_conv. Qed.

Lemma initUiAutomator2Server_known :
  hoare (port_held sid) (initUiAutomator2Server env)
    (fun r st => match r with Ok _ => server_known sid st | Throw _ => True end).
Proof.
  unfold initUiAutomator2Server.
  apply hoare_bind_passes with (E := fun _ : Err => True);
    [pass; stage_conv | intros; exact Logic.I | intros _].
  apply hoare_bind with (R := fun _ => server_known sid).
  { intros st (H1 & H2 & H3). simpl. repeat split; assumption. }
  intros _.
  apply hoare_of_passes with (E := fun _ : Err => True).
  - pass. all: stage_conv.
  - intros [[] | e] st H _; [exact H | exact Logic.I].
Qed.

Lemma startUiAutomator2Session_live (c : Caps) :
  hoare (identified sid) (startUiAutomator2Session env c)
    (fun r st => match r with Ok _ => live sid st | Throw _ => True end).
Proof.
  unfold startUiAutomator2Session.
  unfold allocateMjpegServerPort, adb_forwardPort, initAUT,
    installApp, ensureAppStarts, retryInterval.
  walk_to (update (set_adb true)) (fun _ : Err => True)
          ltac:(intros; exact Logic.I) ltac:(stage_conv).
  apply hoare_bind with (R := fun _ => bridged sid).
  { intros st H. simpl. split; [exact H | reflexivity]. }
  intros _.
  walk_to (allocateSystemPort env) (fun _ : Err => True)
          ltac:(intros; exact Logic.I) ltac:(stage_conv).
  apply hoare_bind with (R := fun _ => port_held sid).
  { intros st H. pose proof (allocateSystemPort_bridged st H) as [[H1 H2] _].
    pose proof (allocateSystemPort_truthy st) as H3.
    destruct (fst (allocateSystemPort env st)) as [[] | e]; [| exact Logic.I].
    split; [exact H1 |]. split; [exact H2 | apply H3; reflexivity]. }
  intros _.
  walk_to (initUiAutomator2Server env) (fun _ : Err => True)
          ltac:(intros; exact Logic.I) ltac:(stage_conv).
  apply hoare_bind with (R := fun _ => server_known sid).
  { intros st H. pose proof (initUiAutomator2Server_known st H) as H'.
    destruct (fst (initUiAutomator2Server env st)); exact H'. }
  intros _.
  walk (fun _ : Err => True) ltac:(intros; exact Logic.I) ltac:(stage_conv).
  apply hoare_bind_passes with (E := fun _ : Err => True).
  { unfold when. destruct (o_autoWebview (opts _)).
    - apply passes_bind; [| intros; apply passes_ret; exact Logic.I].
      apply retryInterval_loop_passes; [pass; stage_conv | stage_conv].
    - apply passes_ret. }
  { intros; exact Logic.I. }
  intros _.
  apply hoare_bind with (R := fun _ => live sid).
  { intros st (H1 & H2 & H3 & H4). simpl. repeat split; assumption. }
  intros _.
  apply hoare_of_passes with (E := fun _ : Err => True).
  - pass. all: stage_conv.
  - intros [v | e] st H _; [exact H | exact Logic.I].
Qed.

End Success.

Lemma provision_live (env : Env) (o : Opts) (c : Caps) :
  hoare (fun _ => True) (provision env o c)
    (fun r st => match r with Ok s => live s st | Throw _ => True end).
Proof.
  unfold provision, setAvdFromCapabilities, checkAppPresent.
  apply hoare_world_inv; intro w.
  apply hoare_bind_passes with (E := fun _ : Err => True);
    [pass; first [intros ? H; exact H | intros; exact Logic.I]
    | intros; exact Logic.I | intros _].
  apply hoare_bind with (R := fun _ => identified (newSessionId env w)).
  { intros st _. reflexivity. }
  intros _.
  walk_to (startUiAutomator2Session env c) (fun _ : Err => True)
          ltac:(intros; exact Logic.I)
          ltac:(first [ exact Logic.I | discriminate | intros; exact Logic.I
                      | intros ? H; exact H ]).
  apply hoare_bind with (R := fun _ => live (newSessionId env w)).
  { intros st H. pose proof (startUiAutomator2Session_live env _ c st H) as H'.
    destruct (fst (startUiAutomator2Session env c st)); exact H'. }
  intros _.
  walk (fun _ : Err => True)
       ltac:(intros; exact Logic.I)
       ltac:(first [ exact Logic.I | discriminate | intros; exact Logic.I
                   | intros ? H; exact H ]).
  apply hoare_ret. intros st H. exact H.
Qed.

(** X12.  When [createSession] returns normally, the driver serves the
    session: its [sessionId] is the id returned, the bridge and the device
    server are set, a local system port is recorded, and requests are
    proxied. *)
Theorem createSession_success_is_live :
  forall (env : Env) (o : Opts) (c : Caps) (st : St) (sid : string),
    fst (createSession env o c st) = Ok sid ->
    live sid (snd (createSession env o c st)).
Proof.
  intros env o c st sid. pose proof (provision_live env o c st Logic.I) as H.
  unfold createSession, try_catch, bind, throw.
  destruct (provision env o c st) as [[s | e] st1]; simpl in *.
  - intros [= ->]. exact H.
  - destruct (deleteSession env st1) as [[[] | e'] st2]; discriminate.
Qed.

Lemma createSession_success_is_live_quiet :
  live (newSessionId quiet_env empty_world)
    (snd (createSession quiet_env bare_opts emptyCaps fresh)).
Proof.
  apply (createSession_success_is_live quiet_env bare_opts emptyCaps fresh).
  vm_compute. reflexivity.
Defined.

(** ** What the end of a session leaves in the driver (lines 733-865) *)

Section TeardownState.

Variable env : Env.

Ltac off_side :=
  first [ exact Logic.I
        | discriminate
        | intros; exact Logic.I
        | intros ? H; exact H ].

Lemma deleteSession_proxying_off (w0 : World) :
  hoare (fun st => wld st = w0) (deleteSession env)
    (fun r st =>
       rejects env w0 RemoveAllSessionWebSocketHandlers = true \/
       (proxying_off st /\ (r = Ok tt -> sessionId (drv st) = None))).
Proof.
  unfold deleteSession.
  apply hoare_bind with (R := fun _ _ => True).
  { intros st Hw. unfold call. rewrite Hw.
    destruct (rejects env w0 RemoveAllSessionWebSocketHandlers); simpl;
      [left; reflexivity | exact Logic.I]. }
  intros _. apply hoare_this. intro d.
  apply hoare_bind with (R := fun _ st => uiautomator2 (drv st) = false).
  { destruct (uiautomator2 d) eqn:Hu; unfold when.
    - apply hoare_weaken with (P' := fun _ : St => True)
        (Q' := fun (r : Res unit) st =>
                 match r with
                 | Ok _ => uiautomator2 (drv st) = false
                 | Throw _ => False
                 end).
      + apply hoare_bind_passes with (E := fun _ : Err => False);
          [pass; off_side | intros ? ? _ [] | intros _].
        apply hoare_this_inv. intros d' _.
        apply hoare_bind_passes with (E := fun _ : Err => False);
          [pass; off_side | intros ? ? _ [] | intros _].
        intros st _. reflexivity.
      + intros; exact Logic.I.
      + intros [[] | e] st H; [exact H | destruct H].
    - apply hoare_ret. intros st [_ Hd]. rewrite Hd. exact Hu. }
  intros _.
  apply hoare_bind with (R := fun _ => proxying_off).
  { intros st H. simpl. split; [exact H | reflexivity]. }
  intros _.
  unfold_teardown.
  walk (fun _ : Err => True)
       ltac:(intros ? ? H _; right; split; [exact H | discriminate])
       ltac:(off_side).
  intros st H. simpl. right. split; [exact H | reflexivity].
Qed.

End TeardownState.

(** X13.  Once its first call (removing the session's web socket
    handlers) is accepted, [deleteSession] switches proxying off whatever
    happens next: when it returns or throws, [uiautomator2] and
    [jwpProxyActive] are cleared; when it returns normally the driver has
    no session id. *)
Theorem deleteSession_stops_proxying :
  forall (env : Env) (st : St),
    rejects env (wld st) RemoveAllSessionWebSocketHandlers = false ->
    let out := deleteSession env st in
    proxying_off (snd out) /\
    (fst out = Ok tt -> sessionId (drv (snd out)) = None).
Proof.
  intros env st Hacc out.
  destruct (deleteSession_proxying_off env (wld st) st eq_refl) as [H | H].
  - rewrite Hacc in H. discriminate H.
  - exact H.
Qed.

Lemma deleteSession_stops_proxying_after_failed_logcat :
  let st := snd (createSession logcat_fails_env bare_opts emptyCaps fresh) in
  let out := deleteSession logcat_fails_env st in
  proxying_off (snd out) /\
  (fst out = Ok tt -> sessionId (drv (snd out)) = None).
Proof.
  apply (deleteSession_stops_proxying logcat_fails_env
           (snd (createSession logcat_fails_env bare_opts emptyCaps fresh))).
  reflexivity.
Defined.

(** ** The screenshot rule (lines 68-160 and 892-909) *)

Lemma screenshot_rule_in_native_table : In SCREENSHOT_RULE NO_PROXY.
Proof. vm_compute. repeat (first [left; reflexivity | right]). Qed.

Lemma screenshot_rule_not_in_chrome_table : ~ In SCREENSHOT_RULE CHROME_NO_PROXY.
Proof.
  vm_compute. intros H.
  repeat (destruct H as [H | H]; [discriminate H |]). exact H.
Qed.

(** X16.  The list returned by [getProxyAvoidList] holds the rule for
    GET [/session/:id/screenshot] exactly when no chromedriver is active or
    [nativeWebScreenshot] is set: the native table has the rule already, so
    the capability matters in a web context only. *)
Theorem screenshot_rule_listed_iff :
  forall d : Driver,
    In SCREENSHOT_RULE (fst (getProxyAvoidList d)) <->
    chromedriver d = false \/ o_nativeWebScreenshot (opts d) = true.
Proof.
  intros d. rewrite getProxyAvoidList_eq, in_app_iff.
  destruct (chromedriver d), (o_nativeWebScreenshot (opts d)); split; intros H.
  - right; reflexivity.
  - right. left. reflexivity.
  - destruct H as [H | []]. destruct (screenshot_rule_not_in_chrome_table H).
  - destruct H as [H | H]; discriminate H.
  - left; reflexivity.
  - left. exact screenshot_rule_in_native_table.
  - left; reflexivity.
  - left. exact screenshot_rule_in_native_table.
Qed.

(** ** Keys that switch a step off (lines 236-317, 429-567 and 582-626) *)

Section OptOuts.

Variable env : Env.
Variable T0 : list Call.

Ltac avoided_side :=
  first [ exact Logic.I
        | discriminate
        | intros; exact Logic.I
        | intros ? H; exact H
        | intros ? H; apply since_record; [reflexivity | exact H] ].

Ltac opted_side :=
  first [ exact Logic.I
        | discriminate
        | intros; exact Logic.I
        | intros ? H; exact H
        | intros ? (? & ?); split; [assumption | apply since_record; [reflexivity | assumption]]
        | intros ? (? & ? & ?); repeat split; try assumption;
          apply since_record; [reflexivity | assumption]
        | intros ? (? & ?); split; [| assumption]; simpl;
          match goal with
          | |- context [mergeAppInfo ?i _] => destruct i as [[[?|] [?|]] |]
          end; simpl; assumption
        | intros ? (? & ? & ?); repeat split; try assumption; simpl;
          match goal with
          | |- context [mergeAppInfo ?i _] => destruct i as [[[?|] [?|]] |]
          end; simpl; assumption ].

(** The start of [provision] under an invariant on the calls alone, up to
    the assignment of the options; the rest under the invariant with the
    key. *)
Ltac opt_out Hkey inv :=
  unfold provision;
  apply hoare_world_inv; intro;
  apply hoare_bind_passes with (E := fun _ : Err => True);
    [ pass; avoided_side | intros ? ? H _; exact H | intros _ ];
  apply hoare_bind with (R := fun _ : unit => inv);
    [ intros st H; simpl; split; [exact Hkey | exact H] | intros _ ];
  apply hoare_of_passes with (E := fun _ : Err => True);
    [ | intros ? ? (_ & H) _; exact H ];
  unfold_provision; pass; try opted_side;
  try (apply retryInterval_loop_passes; [pass; opted_side | opted_side]).

Lemma provision_skipUnlock (o : Opts) (c : Caps) :
  o_skipUnlock o = true ->
  hoare (avoided unlock_call T0) (provision env o c) (fun _ => avoided unlock_call T0).
Proof.
  intros Hkey. opt_out Hkey (opted_out o_skipUnlock true unlock_call T0).
Qed.

Lemma provision_skipServerInstallation (o : Opts) (c : Caps) :
  o_skipServerInstallation o = true ->
  hoare (avoided server_install_call T0) (provision env o c)
    (fun _ => avoided server_install_call T0).
Proof.
  intros Hkey.
  opt_out Hkey (opted_out o_skipServerInstallation true server_install_call T0).
Qed.

Lemma provision_no_gpsEnabled (o : Opts) (c : Caps) :
  o_gpsEnabled o = None ->
  hoare (avoided gps_call T0) (provision env o c) (fun _ => avoided gps_call T0).
Proof.
  intros Hkey. opt_out Hkey (opted_out o_gpsEnabled (@None bool) gps_call T0).
Qed.

Lemma provision_animation (o : Opts) (c : Caps) :
  o_disableWindowAnimation o = false ->
  hoare (animation_untouched T0) (provision env o c) (fun _ => animation_untouched T0).
Proof.
  intros Hkey. unfold provision.
  apply hoare_world_inv; intro.
  apply hoare_bind_passes with (E := fun _ : Err => True);
    [ pass; opted_side | intros ? ? H _; exact H | intros _ ].
  apply hoare_bind with (R := fun _ : unit => animation_kept T0);
    [ intros st (H1 & H2); simpl; split; [exact Hkey | split; [exact H1 | exact H2]]
    | intros _ ].
  apply hoare_of_passes with (E := fun _ : Err => True);
    [ | intros ? ? (_ & H) _; exact H ].
  unfold_provision. pass. all: try opted_side.
  apply retryInterval_loop_passes; [pass; opted_side | opted_side].
Qed.

Lemma deleteSession_no_unlock :
  passes (avoided unlock_call T0) (fun _ => True) (deleteSession env).
Proof. unfold_teardown. pass. all: avoided_side. Qed.

Lemma deleteSession_no_server_install :
  passes (avoided server_install_call T0) (fun _ => True) (deleteSession env).
Proof. unfold_teardown. pass. all: avoided_side. Qed.

Lemma deleteSession_no_gps :
  passes (avoided gps_call T0) (fun _ => True) (deleteSession env).
Proof. unfold_teardown. pass. all: avoided_side. Qed.

Lemma deleteSession_animation :
  passes (animation_untouched T0) (fun _ => True) (deleteSession env).
Proof. unfold_teardown. pass. all: opted_side. Qed.

(** [createSession] keeps what [provision] and [deleteSession] keep. *)
Lemma createSession_keeps (I : St -> Prop) (o : Opts) (c : Caps) :
  hoare I (provision env o c) (fun _ => I) ->
  passes I (fun _ => True) (deleteSession env) ->
  forall st, I st -> I (snd (createSession env o c st)).
Proof.
  intros Hp Hd st HI. specialize (Hp st HI).
  unfold createSession, try_catch, bind, throw.
  destruct (provision env o c st) as [[s | e] st1]; simpl in *; [exact Hp |].
  destruct (Hd st1 Hp) as [H _].
  destruct (deleteSession env st1) as [[[] | e'] st2]; exact H.
Qed.

End OptOuts.

(** X17.  [createSession] honours the keys that switch a step off,
    teardown after a failure included: with [skipUnlock] the device is
    never unlocked; with [skipServerInstallation] the server package is
    neither installed nor put on the idle whitelist; without [gpsEnabled]
    the location provider is never toggled; and without
    [disableWindowAnimation], on a driver that has not switched the
    animations off, the animation state is neither queried nor set. *)
Theorem createSession_honours_opt_outs :
  forall (env : Env) (o : Opts) (c : Caps) (st : St),
    let T0 := trace (wld st) in
    let w' := wld (snd (createSession env o c st)) in
    (o_skipUnlock o = true -> since T0 (none_of unlock_call) w') /\
    (o_skipServerInstallation o = true -> since T0 (none_of server_install_call) w') /\
    (o_gpsEnabled o = None -> since T0 (none_of gps_call) w') /\
    (o_disableWindowAnimation o = false ->
     _wasWindowAnimationDisabled (drv st) = false ->
     since T0 (none_of animation_call) w').
Proof.
  intros env o c st T0 w'. unfold w', T0. repeat split.
  - intros H.
    apply (createSession_keeps env (avoided unlock_call (trace (wld st))) o c
             (provision_skipUnlock env _ o c H) (deleteSession_no_unlock env _) st).
    apply since_refl; reflexivity.
  - intros H.
    apply (createSession_keeps env (avoided server_install_call (trace (wld st))) o c
             (provision_skipServerInstallation env _ o c H)
             (deleteSession_no_server_install env _) st).
    apply since_refl; reflexivity.
  - intros H.
    apply (createSession_keeps env (avoided gps_call (trace (wld st))) o c
             (provision_no_gpsEnabled env _ o c H) (deleteSession_no_gps env _) st).
    apply since_refl; reflexivity.
  - intros H Hflag.
    apply (createSession_keeps env (animation_untouched (trace (wld st))) o c
             (provision_animation env _ o c H) (deleteSession_animation env _) st).
    split; [exact Hflag | apply since_refl; reflexivity].
Qed.

(** The keys are honoured on a session that starts: nothing of the four
    steps is in its trace. *)
Example opt_outs_on_a_started_session :
  let out := createSession quiet_env opt_out_opts emptyCaps fresh in
  o_skipUnlock opt_out_opts = true /\
  o_skipServerInstallation opt_out_opts = true /\
  o_gpsEnabled opt_out_opts = None /\
  o_disableWindowAnimation opt_out_opts = false /\
  fst out = Ok "4f2a" /\
  forallb (fun k => negb (unlock_call k || server_install_call k || gps_call k ||
                          animation_call k))
          (trace (wld (snd out))) = true.
Proof. vm_compute. repeat split. Qed.

(** ** Default values of the options (lines 265-271 and 304) *)

Section Defaults.

Variable env : Env.
Variable o : Opts.

Ltac defaults_side :=
  first [ exact Logic.I
        | discriminate
        | intros; exact Logic.I
        | intros ? H; exact H
        | intros ? (? & ? & ? & ?); repeat split; simpl; try assumption;
          match goal with
          | |- context [mergeAppInfo ?i _] => destruct i as [[[?|] [?|]] |]
          end; simpl; assumption ].

Lemma or_z_or_default (v : option Z) (d : Z) :
  or_z (or_default v d) d = or_z v d.
Proof. destruct v as [z |]; simpl; [reflexivity | destruct (d =? 0); reflexivity]. Qed.

Lemma or_z_nonzero (v : option Z) (d : Z) : d <> 0 -> or_z v d <> 0.
Proof.
  intros Hd. destruct v as [z |]; simpl; [| exact Hd].
  destruct (z =? 0) eqn:Hz; [exact Hd | apply Z.eqb_neq; exact Hz].
Qed.

Lemma provision_defaults (c : Caps) :
  hoare (fun _ => True) (provision env o c)
    (fun r st => match r with Ok _ => defaults_in_effect o st | Throw _ => True end).
Proof.
  unfold provision, setAvdFromCapabilities, checkAppPresent.
  apply hoare_world_inv; intro w.
  apply hoare_bind_passes with (E := fun _ : Err => True);
    [pass; first [intros ? H; exact H | intros; exact Logic.I]
    | intros; exact Logic.I | intros _].
  apply hoare_bind with (R := fun _ => opts_from o).
  { intros st _. reflexivity. }
  intros _.
  apply hoare_bind with (R := fun _ => defaulted o).
  { intros st H. red in H. simpl. unfold defaulted. simpl. rewrite H. repeat split. }
  intros _.
  walk_to (update (fun d => set_opts (set_o_adbPort
                     (Some (or_z (o_adbPort (opts d)) DEFAULT_ADB_PORT)) (opts d)) d))
          (fun _ : Err => True)
          ltac:(intros; exact Logic.I) ltac:(defaults_side).
  apply hoare_bind with (R := fun _ => defaults_in_effect o).
  { intros st (H1 & H2 & H3 & H4). simpl. unfold defaults_in_effect. simpl.
    rewrite H1, or_z_or_default. repeat split; assumption. }
  intros _.
  apply hoare_bind_passes with (E := fun _ : Err => True);
    [| intros; exact Logic.I | intros _].
  { unfold_provision. pass. all: try defaults_side.
    apply retryInterval_loop_passes; [pass; defaults_side | defaults_side]. }
  walk (fun _ : Err => True) ltac:(intros; exact Logic.I) ltac:(defaults_side).
  apply hoare_ret. intros st H. exact H.
Qed.

End Defaults.

(** X18.  In a session that starts, the four defaulted options hold the
    caller's value where one was given and the default otherwise:
    [fullReset] false, [autoLaunch] true, [androidInstallTimeout] 90000 and
    [adbPort] 5037; an [adbPort] of 0 is replaced by 5037 as well, so the
    port is never 0. *)
Theorem createSession_applies_defaults :
  forall (env : Env) (o : Opts) (c : Caps) (st : St) (sid : string),
    fst (createSession env o c st) = Ok sid ->
    let o' := opts (drv (snd (createSession env o c st))) in
    o_adbPort o' = Some (or_z (o_adbPort o) DEFAULT_ADB_PORT) /\
    truthy_z (o_adbPort o') = true /\
    o_fullReset o' = or_default (o_fullReset o) false /\
    o_autoLaunch o' = or_default (o_autoLaunch o) true /\
    o_androidInstallTimeout o' = or_default (o_androidInstallTimeout o) 90000.
Proof.
  intros env o c st sid. pose proof (provision_defaults env o c st Logic.I) as H.
  unfold createSession, try_catch, bind, throw.
  destruct (provision env o c st) as [[s | e] st1]; simpl in *.
  - intros _. destruct H as (H1 & H2 & H3 & H4).
    split; [exact H1 |]. split; [| repeat split; assumption].
    rewrite H1. simpl. apply negb_true_iff, Z.eqb_neq, or_z_nonzero. discriminate.
  - destruct (deleteSession env st1) as [[[] | e'] st2]; discriminate.
Qed.

Lemma createSession_applies_defaults_bare :
  let o' := opts (drv (snd (createSession quiet_env bare_opts emptyCaps fresh))) in
  o_adbPort o' = Some (or_z (o_adbPort bare_opts) DEFAULT_ADB_PORT) /\
  truthy_z (o_adbPort o') = true /\
  o_fullReset o' = or_default (o_fullReset bare_opts) false /\
  o_autoLaunch o' = or_default (o_autoLaunch bare_opts) true /\
  o_androidInstallTimeout o' = or_default (o_androidInstallTimeout bare_opts) 90000.
Proof.
  apply (createSession_applies_defaults quiet_env bare_opts emptyCaps fresh "4f2a").
  vm_compute. reflexivity.
Defined.

(** ** A teardown that stops at [adb.stopLogcat] (lines 773-832) *)

Section LogcatFails.

Variable env : Env.
Variable F0 : list (Z * Z).
Variable S0 : option string.
Variable T0 : list Call.

Hypothesis Hlogcat : forall w, rejects env w AdbStopLogcat = true.

Ltac logcat_side :=
  first [ exact Logic.I
        | discriminate
        | intros; exact Logic.I
        | intros ? H; exact H
        | intros ? (? & ? & ? & ?); repeat split; try assumption;
          apply since_record; [reflexivity | assumption] ].

Definition aborted {A : Type} (r : Res A) (st : St) : Prop :=
  is_throw r /\ before_logcat F0 S0 T0 st.

Lemma deleteSession_aborts :
  hoare (before_logcat F0 S0 T0) (deleteSession env) (@aborted unit).
Proof.
  unfold deleteSession.
  walk (fun _ : Err => True)
       ltac:(intros e st H _; split; [exists e; reflexivity | exact H])
       ltac:(logcat_side).
  apply hoare_bind_throws. unfold when. cbv iota.
  unfold deleteSession_adb, screenRecordingStopTasks, run_all.
  walk_to (adb_call env AdbStopLogcat) (fun _ : Err => True)
       ltac:(intros e st H _; split; [exists e; reflexivity | exact H])
       ltac:(logcat_side).
  apply hoare_bind_throws.
  intros st (Ha & Hf & Hsid & Hsince).
  unfold adb_call, bind, this, call. simpl. rewrite Ha, Hlogcat. simpl.
  split; [exists (Rejected AdbStopLogcat); reflexivity |].
  repeat split; try assumption. apply since_record; [reflexivity | assumption].
Qed.

End LogcatFails.

(** X19.  With the bridge attached, a rejection of [adb.stopLogcat]
    ends [deleteSession] there, whatever the other collaborators do: it
    throws, the system and MJPEG port forwards are not removed (the forward
    table is what it was), the hidden API policy is not restored, the
    emulator is not closed, the base driver's [deleteSession] is not called
    and the session id stays in the driver. *)
Theorem deleteSession_aborts_when_stopLogcat_rejects :
  forall (env : Env) (st : St),
    adb (drv st) = true ->
    (forall w, rejects env w AdbStopLogcat = true) ->
    let out := deleteSession env st in
    is_throw (fst out) /\
    forwards (wld (snd out)) = forwards (wld st) /\
    sessionId (drv (snd out)) = sessionId (drv st) /\
    since (trace (wld st)) (none_of after_logcat_call) (wld (snd out)).
Proof.
  intros env st Ha Hrej out.
  assert (H0 : before_logcat (forwards (wld st)) (sessionId (drv st)) (trace (wld st)) st).
  { repeat split; try assumption. apply since_refl; reflexivity. }
  pose proof (deleteSession_aborts env _ _ _ Hrej st H0) as [Ht (_ & Hf & Hs & Hsince)].
  repeat split; assumption.
Qed.

Lemma deleteSession_aborts_when_stopLogcat_rejects_attached :
  let out := deleteSession logcat_fails_env attached in
  is_throw (fst out) /\
  forwards (wld (snd out)) = forwards (wld attached) /\
  sessionId (drv (snd out)) = sessionId (drv attached) /\
  since (trace (wld attached)) (none_of after_logcat_call) (wld (snd out)).
Proof.
  apply (deleteSession_aborts_when_stopLogcat_rejects logcat_fails_env attached).
  - reflexivity.
  - intros w. reflexivity.
Defined.

(** ** Giving up on the webview (lines 553-560) *)

Section GivingUp.

Variable env : Env.
Variable T : Z.
Variable n : nat.

Hypothesis Hnever : forall w, rejects env w SetContext = true.
Hypothesis HT : 0 < T.

Ltac polling_side :=
  first [ exact Logic.I
        | discriminate
        | intros; exact Logic.I
        | intros ? H; exact H
        | intros ? _ _ H; discriminate H
        | intros H; discriminate H
        | intros ? H; red; simpl; rewrite polls_record; simpl;
          rewrite Nat.add_0_r; exact H
        | intros ? (? & ? & ?); repeat split; assumption
        | intros ? (? & ? & ?); repeat split; try assumption; simpl;
          rewrite polls_record; simpl; rewrite Nat.add_0_r; assumption
        | intros ? (? & ? & ?); repeat split; try assumption; simpl;
          match goal with
          | |- context [mergeAppInfo ?i _] => destruct i as [[[?|] [?|]] |]
          end; simpl; assumption ].

Lemma attempts_positive : 0 < Qceiling (inject_Z T / inject_Z 500).
Proof.
  destruct (Z.lt_ge_cases 0 (Qceiling (inject_Z T / inject_Z 500))) as [H | H]; [exact H |].
  exfalso.
  assert (Hq : (inject_Z T / inject_Z 500 <= inject_Z 0)%Q).
  { apply Qle_trans with (inject_Z (Qceiling (inject_Z T / inject_Z 500)));
      [apply Qle_ceiling | rewrite <- Zle_Qle; exact H]. }
  unfold Qdiv, Qle, Qmult, Qinv, inject_Z in Hq. simpl in Hq. lia.
Qed.

(** The retried [setContext] never succeeds: the step throws its
    rejection after [attempts T] attempts. *)
Lemma webview_step_throws {B : Type} (k : unit -> M B) :
  hoare (polling T n)
    (bind (when true
             (retryInterval (inject_Z T / inject_Z 500) 500 (call env SetContext);;
              ret tt)) k)
    (stuck_on_webview (n + attempts T)).
Proof.
  intros st (Hp & _ & _).
  destruct (retryInterval_loop_never env Hnever (inject_Z T / inject_Z 500) 500
              (Z.to_nat (Qceiling (inject_Z T / inject_Z 500))) 0 0 st)
    as (st' & Hrun & _ & Hpolls); [apply attempts_positive | lia |].
  assert (Heq : bind (when true
                        (retryInterval (inject_Z T / inject_Z 500) 500 (call env SetContext);;
                         ret tt)) k st
                = (Throw (Rejected SetContext), st')).
  { unfold bind, when, retryInterval. rewrite Hrun. reflexivity. }
  rewrite Heq. simpl. split; [reflexivity |].
  red. rewrite Hpolls, Hp. unfold attempts. rewrite Z.sub_0_r. reflexivity.
Qed.

Lemma webview_step {B : Type} (k : unit -> M B) :
  hoare (polling T n)
    (bind (when true
             (retryInterval (inject_Z T / inject_Z 500) 500 (call env SetContext);;
              ret tt)) k)
    (@gave_up n (attempts T) B).
Proof.
  intros st H. destruct (webview_step_throws k st H) as [Hr Hp].
  rewrite Hr. left. split; [reflexivity | exact Hp].
Qed.

Lemma startUiAutomator2Session_gives_up (c : Caps) :
  hoare (polling T n) (startUiAutomator2Session env c) (@gave_up n (attempts T) unit).
Proof.
  unfold startUiAutomator2Session, initUiAutomator2Server, initAUT, installApp,
    ensureAppStarts, allocateSystemPort, allocateMjpegServerPort,
    DEVICE_PORT_ALLOCATION_GUARD, scanAndForward, forwardPort, findAPortNotInUse,
    adb_forwardPort, DEVICE_PORT_RANGE.
  walk not_set_context
       ltac:(intros e st (H & _) He; right; split; [exact He | exact H])
       ltac:(polling_side).
  apply webview_step.
Qed.

Lemma provision_gives_up (o : Opts) (c : Caps) :
  o_autoWebview o = true ->
  or_z (o_autoWebviewTimeout o) 2000 = T ->
  hoare (polled n) (provision env o c) (@gave_up n (attempts T) string).
Proof.
  intros Hauto Htimeout.
  unfold provision, setAvdFromCapabilities, checkAppPresent.
  apply hoare_world_inv; intro w.
  apply hoare_bind_passes with (E := not_set_context);
    [ pass; polling_side
    | intros e st H He; right; split; [exact He | exact H]
    | intros _ ].
  apply hoare_bind with (R := fun _ => polling T n).
  { intros st H. simpl. repeat split; assumption. }
  intros _.
  walk not_set_context
       ltac:(intros e st (H & _) He; right; split; [exact He | exact H])
       ltac:(polling_side).
  apply hoare_bind with (R := fun _ _ => False); [| intros _ st []].
  intros st H. pose proof (startUiAutomator2Session_gives_up c st H) as H'.
  destruct (fst (startUiAutomator2Session env c st)); exact H'.
Qed.

Lemma deleteSession_polled (m : nat) :
  passes (polled m) (fun _ => True) (deleteSession env).
Proof. unfold_teardown. pass. all: polling_side. Qed.

End GivingUp.

(** *** The start that nothing else stops *)

Section Reaching.

Variable env : Env.
Variable n : nat.

Hypothesis Hnever : forall w, rejects env w SetContext = true.
Hypothesis Hcalm : forall w k, k <> SetContext -> rejects env w k = false.
Hypothesis Hlevel : forall w, 21 <= apiLevel env w.
Hypothesis Hfree : forall w p, listening env w p = false.

Lemma truthy_b_or_default (x : option bool) :
  truthy_b (or_default x false) = truthy_b x.
Proof. destruct x; reflexivity. Qed.

Ltac bound_conj :=
  repeat match goal with
         | H : _ /\ _ |- _ => destruct H
         end;
  repeat split; try assumption;
  try (rewrite polls_record; simpl; rewrite Nat.add_0_r; assumption);
  try (rewrite truthy_b_or_default; assumption).

Ltac bound_side :=
  first [ exact Logic.I
        | discriminate
        | intros ? _ Hr; rewrite Hcalm in Hr by discriminate; discriminate Hr
        | intros ? H; exact H
        | solve [intros ? H; red in H; red; simpl; bound_conj]
        | intros ? H; red in H; red; simpl;
          match goal with
          | |- context [mergeAppInfo ?i _] => destruct i as [[[?|] [?|]] |]
          end; simpl; solve [bound_conj] ].

(** As [pass], for a method that must not throw: a [throw] that can be
    reached stops the walk. *)
Ltac calm_step :=
  first
    [ progress cbn [negb]
    | lazymatch goal with
      | |- passes _ _ (try_catch _ _) =>
          apply passes_try_catch_from with (E' := fun _ : Err => False); [| intros ? []]
      | |- passes _ _ (throw _) => fail
      | |- passes _ _ (bind (throw _) _) => fail
      | |- _ => pass_step
      end ].

Ltac calm := repeat calm_step.

Ltac calm_walk1 :=
  first
    [ apply hoare_this_inv;
      let d := fresh "d" in let H := fresh "Hsnap" in
      intros d H; snapshot H
    | apply hoare_world_inv; intro
    | apply hoare_bind_passes with (E := fun _ : Err => False);
      [ calm; lazymatch goal with
              | |- passes _ _ _ => fail
              | |- _ => solve [bound_side]
              end
      | intros ? ? _ []
      | intro ] ].

Ltac calm_to stop :=
  repeat (lazymatch goal with
          | |- hoare _ (bind ?m _) _ => tryif constr_eq m stop then fail else idtac
          | |- _ => idtac
          end;
          calm_walk1).

Lemma forwardPort_unhindered (p : Z) (st : St) :
  adb (drv st) = true -> fst (forwardPort env p st) = Ok tt.
Proof.
  intros Hadb.
  unfold forwardPort, checkPortStatus, adb_forwardPort, adb_call, call, when,
    bind, this, world, note, on_world, ret, throw. simpl.
  rewrite Hfree. simpl. rewrite Hadb. simpl.
  rewrite Hcalm by discriminate. reflexivity.
Qed.

(** With a bridge, free ports and calls that resolve, the allocation
    returns and leaves [this.systemPort] with a value. *)
Lemma allocateSystemPort_unhindered (st : St) :
  adb (drv st) = true ->
  fst (allocateSystemPort env st) = Ok tt /\
  hasValue (systemPort (drv (snd (allocateSystemPort env st)))) = true.
Proof.
  intros Hadb.
  assert (Heq : allocateSystemPort env st =
                match systemPort (drv st) with
                | Some p =>
                    if negb (p =? 0)
                    then (update (set__hasSystemPortInCaps true);; forwardPort env p)%m st
                    else DEVICE_PORT_ALLOCATION_GUARD env (scanAndForward env) st
                | None => DEVICE_PORT_ALLOCATION_GUARD env (scanAndForward env) st
                end).
  { unfold allocateSystemPort, bind at 1, this. cbv beta iota zeta.
    destruct (systemPort (drv st)) as [p |]; [destruct (negb (p =? 0)) |]; reflexivity. }
  rewrite Heq. clear Heq.
  assert (Hscan : fst (DEVICE_PORT_ALLOCATION_GUARD env (scanAndForward env) st) = Ok tt /\
            hasValue (systemPort (drv (snd (DEVICE_PORT_ALLOCATION_GUARD env
                                              (scanAndForward env) st)))) = true).
  { unfold DEVICE_PORT_ALLOCATION_GUARD, finally, call, bind.
    cbv beta iota zeta. rewrite Hcalm by discriminate.
    cbv beta iota zeta. rewrite scanAndForward_run. cbn [drv wld].
    assert (Hs : scan env (record GuardAcquire (wld st)) 8200 100 = Some 8200).
    { change 100%nat with (S 99). cbn [scan]. rewrite Hfree. reflexivity. }
    rewrite Hs.
    pose proof (forwardPort_systemPort env 8200
                  (mkSt (set_systemPort (Some 8200) (drv st))
                     (record (FindAPortNotInUse 8200 8299) (record GuardAcquire (wld st)))))
      as Hd.
    pose proof (forwardPort_unhindered 8200
                  (mkSt (set_systemPort (Some 8200) (drv st))
                     (record (FindAPortNotInUse 8200 8299) (record GuardAcquire (wld st))))
                  Hadb) as Hr.
    destruct (forwardPort env 8200 _) as [r st']. cbn [fst snd drv wld] in *.
    split; [exact Hr | rewrite Hd; reflexivity]. }
  destruct (systemPort (drv st)) as [p |] eqn:Hsp; [| exact Hscan].
  destruct (p =? 0) eqn:Hp; cbn [negb]; [exact Hscan |].
  unfold bind, update. cbv beta iota zeta.
  rewrite forwardPort_systemPort. simpl. rewrite Hsp.
  split; [apply forwardPort_unhindered; exact Hadb | reflexivity].
Qed.

Lemma allocateSystemPort_bound :
  passes (webview_bound_bridged n) (fun _ => True) (allocateSystemPort env).
Proof. unfold_provision. pass. all: bound_side. Qed.

(** Every step before the webview step returns, and the webview step
    throws after four attempts. *)
Lemma startUiAutomator2Session_reaches (c : Caps) :
  hoare (webview_bound n) (startUiAutomator2Session env c) (stuck_on_webview (n + 4)).
Proof.
  unfold startUiAutomator2Session.
  unfold allocateMjpegServerPort, adb_forwardPort, initUiAutomator2Server, initAUT,
    installApp, ensureAppStarts.
  calm_to (update (set_adb true)).
  apply hoare_bind with (R := fun _ => webview_bound_bridged n).
  { intros st H. red in H. red. simpl. bound_conj. }
  intros _.
  apply hoare_bind with (R := fun level st => webview_bound_bridged n st /\ 21 <= level).
  { intros st H. red in H.
    unfold adb_getApiLevel, adb_call, call, bind, world, this, ret. simpl.
    destruct H as (Hadb & H). rewrite Hadb. rewrite Hcalm by discriminate. simpl.
    split; [red; simpl; bound_conj | apply Hlevel]. }
  intros level.
  apply hoare_bind with (R := fun _ => webview_bound_bridged n).
  { intros st [H Hl].
    replace (level <? 21) with false by (symmetry; apply Z.ltb_ge; exact Hl).
    exact H. }
  intros _.
  calm_to (allocateSystemPort env).
  apply hoare_bind with (R := fun _ => webview_bound_forwarded n).
  { intros st H.
    destruct (allocateSystemPort_unhindered st (proj1 H)) as [Hr Hv].
    pose proof (allocateSystemPort_bound st H) as [Hb _].
    cbv beta. rewrite Hr. split; [exact Hv | exact Hb]. }
  intros _.
  calm_to (update (set_adb true)).
  eapply hoare_weaken;
    [apply (webview_step_throws env 2000 n Hnever); lia | |].
  - intros st H. red in H. red. bound_conj.
  - intros r st H. exact H.
Qed.

Lemma provision_reaches (o : Opts) (c : Caps) :
  o_autoWebview o = true ->
  or_z (o_autoWebviewTimeout o) 2000 = 2000 ->
  o_reboot o = false ->
  truthy_s (o_app o) = false ->
  truthy_b (o_fullReset o) = false ->
  hoare (polled n) (provision env o c) (stuck_on_webview (n + 4)).
Proof.
  intros Hauto Htimeout Hreboot Happ Hreset.
  unfold provision, setAvdFromCapabilities, checkAppPresent.
  apply hoare_world_inv; intro w.
  apply hoare_bind_passes with (E := fun _ : Err => False);
    [ calm; bound_side | intros ? ? _ [] | intros _ ].
  apply hoare_bind with (R := fun _ => webview_bound n).
  { intros st H. simpl. repeat split; assumption. }
  intros _.
  calm_to (startUiAutomator2Session env c).
  apply hoare_bind_throws.
  intros st H. destruct (startUiAutomator2Session_reaches c st H) as [Hr Hp].
  rewrite Hr. split; [reflexivity | exact Hp].
Qed.

End Reaching.

(** C9.  With the auto-webview policy, a timeout of 2000 ms (given, or
    the default) and a [setContext] that is rejected whenever it is tried,
    the session start always fails.  It fails with the rejection of
    [setContext] exactly when it got as far as entering the webview, and
    then [setContext] was tried exactly 4 times, that is 2000 / 500; when
    the start fails earlier, with another error, it was never tried.
    Teardown adds no attempt.  The start does get as far as the webview
    when nothing else stops it: every other call resolves, the API level is
    21 or more, no host port is taken, and the bundle asks for no reboot,
    no application and no full reset. *)
Theorem auto_webview_gives_up_after_four_attempts :
  forall (env : Env) (o : Opts) (c : Caps) (st : St),
    o_autoWebview o = true ->
    or_z (o_autoWebviewTimeout o) 2000 = 2000 ->
    (forall w, rejects env w SetContext = true) ->
    let prov := provision env o c st in
    let out := createSession env o c st in
    let before := polls (trace (wld st)) in
    let after := polls (trace (wld (snd out))) in
    is_throw (fst prov) /\ is_throw (fst out) /\
    (fst prov = Throw (Rejected SetContext) -> after = (before + 4)%nat) /\
    (fst prov <> Throw (Rejected SetContext) -> after = before) /\
    (unhindered env o -> fst prov = Throw (Rejected SetContext)).
Proof.
  intros env o c st Hauto Htimeout Hnever prov out before after.
  assert (Hreach : unhindered env o -> fst prov = Throw (Rejected SetContext)).
  { intros (Hcalm & Hlevel & Hfree & Hreboot & Happ & Hreset).
    exact (proj1 (provision_reaches env before Hnever Hcalm Hlevel Hfree o c
                    Hauto Htimeout Hreboot Happ Hreset st eq_refl)). }
  pose proof (provision_gives_up env 2000 before Hnever ltac:(lia) o c Hauto Htimeout
                st eq_refl) as Hprov.
  fold prov in Hprov. unfold after, out, createSession, try_catch, bind, throw.
  unfold prov in *. destruct (provision env o c st) as [[s | e] st1]; simpl in *;
    [destruct Hprov |].
  assert (Hdel : polls (trace (wld (snd (deleteSession env st1)))) = polls (trace (wld st1))).
  { exact (proj1 (deleteSession_polled env (polls (trace (wld st1))) st1 eq_refl)). }
  assert (Hthrow : is_throw (fst (let (r, st2) := deleteSession env st1 in
                                  match r with
                                  | Ok _ => (@Throw string e, st2)
                                  | Throw e' => (Throw e', st2)
                                  end))).
  { destruct (deleteSession env st1) as [[[] | e'] st2]; eexists; reflexivity. }
  assert (Hsnd : wld (snd (let (r, st2) := deleteSession env st1 in
                           match r with
                           | Ok _ => (@Throw string e, st2)
                           | Throw e' => (Throw e', st2)
                           end)) = wld (snd (deleteSession env st1))).
  { destruct (deleteSession env st1) as [[[] | e'] st2]; reflexivity. }
  split; [exists e; reflexivity |]. split; [exact Hthrow |].
  rewrite Hsnd, Hdel.
  destruct Hprov as [[He Hp] | [He Hp]]; (split; [| split]); try exact Hreach; intros H.
  - exact Hp.
  - destruct (H (f_equal _ He)).
  - inversion H. destruct (He H1).
  - exact Hp.
Qed.

Lemma auto_webview_gives_up_after_four_attempts_reached :
  let prov := provision no_webview_env auto_webview_opts emptyCaps fresh in
  let out := createSession no_webview_env auto_webview_opts emptyCaps fresh in
  let before := polls (trace (wld fresh)) in
  let after := polls (trace (wld (snd out))) in
  is_throw (fst prov) /\ is_throw (fst out) /\
  (fst prov = Throw (Rejected SetContext) -> after = (before + 4)%nat) /\
  (fst prov <> Throw (Rejected SetContext) -> after = before) /\
  (unhindered no_webview_env auto_webview_opts -> fst prov = Throw (Rejected SetContext)).
Proof.
  apply (auto_webview_gives_up_after_four_attempts
           no_webview_env auto_webview_opts emptyCaps fresh).
  - reflexivity.
  - reflexivity.
  - intros w. reflexivity.
Defined.

(** The start of the witness does get as far as the webview: it fails
    with the rejection of [setContext] after four attempts, with a pause of
    500 ms after each but the last. *)
Example auto_webview_four_attempts_three_pauses :
  let out := createSession no_webview_env auto_webview_opts emptyCaps fresh in
  fst out = Throw (Rejected SetContext) /\
  filter (fun k => match k with SetContext | Sleep _ => true | _ => false end)
         (trace (wld (snd out)))
  = [SetContext; Sleep 500; SetContext; Sleep 500; SetContext; Sleep 500; SetContext].
Proof. vm_compute. split; reflexivity. Qed.

(** Nothing else stops the start of the witness. *)
Example no_webview_start_unhindered : unhindered no_webview_env auto_webview_opts.
Proof.
  repeat split; simpl; try lia.
  intros _ k Hk. destruct k; try reflexivity. destruct (Hk eq_refl).
Qed.
